(** * JSON-SQL-Workspace: the mock backend and the workspace client

    A shallow embedding of [server.ts] (the Express mock backend) and of the
    state logic of [src/App.tsx] (the React workspace), with the properties
    the specification states about them.

    Conventions of the embedding.
    - A JavaScript number is a binary64 float ([PrimFloat.float]).
    - A JavaScript string is a [string]; the only character the code looks
      for is the ASCII dot, so the byte view and the UTF-16 view agree on
      everything the code computes.
    - An object is the association list of its own properties in the
      order [Object.keys], [JSON.stringify] and the spread follow, which
      is the order of insertion for keys that are not array indices. What
      an object inherits from [Object.prototype] is read and assigned
      through [getProp] and [assign].
    - Row objects of the client live in a store indexed by locations, so
      that copying a row ([{...row}]) and assigning to a property of the
      copy are distinct from assigning to the row itself.
    - What belongs to the JavaScript runtime or to a third-party package
      ([Number] on a string, [String] on a number, [toLowerCase], the
      [alasql] engine) is a field of a record the definitions take as an
      argument.
    - An array of the page is a list of slots; every array the code
      assigns into is a copy it has just made ([[...t.data]], the result
      of [map]), so the assignment is an update of the list.
    - The notifications, the console, the active tab and the rendering
      are not part of the state. What the page renders from the state
      (the selects of the builder, the grid, the result set) is a function
      of the state, and an event handler is a function on the state.

    The file has two parts: the definitions (the values, the builder, the
    server, the client, both together, the controls of the page, then a
    runtime and an engine to compute with, and the forms the specification
    describes), and the properties. *)

From Stdlib Require Import ZArith Ascii String Floats.
From stdpp Require Import base strings list gmap pretty.

Open Scope string_scope.

(** ** JavaScript values *)

Module Js.

(** A value as data: what [JSON.parse] yields, plus [undefined] and the
    built-in functions an object inherits from [Object.prototype]. *)
#[warnings="-register-all"]
Inductive jsval :=
| JUndefined
| JNull
| JBool (b : bool)
| JNum (n : float)
| JStr (s : string)
| JArr (items : list jsval)
| JObj (props : list (string * jsval))
| JFun (fname : string).

(** An object's own enumerable properties. *)
Abbreviation obj := (list (string * jsval)).

(** What the code takes from the runtime. *)
Record Runtime := {
  (** [Number(s)] for a string [s] (ECMAScript StringToNumber). *)
  StringToNumber : string -> float;
  (** [String(n)] for a number [n] (ECMAScript Number::toString). *)
  NumberToString : float -> string;
  (** [Number(v)] for an array, an object or a function. *)
  ObjectToNumber : jsval -> float;
  (** [String(v)] for an array, an object or a function. *)
  ObjectToString : jsval -> string;
  (** [s.toLowerCase()]. *)
  toLowerCase : string -> string
}.

(** [isNaN(n)] on a number. *)
Definition isNaN (n : float) : bool := PrimFloat.is_nan n.

(** [Number(v)]. *)
Definition Number (rt : Runtime) (v : jsval) : float :=
  match v with
  | JUndefined => PrimFloat.nan
  | JNull => PrimFloat.zero
  | JBool true => PrimFloat.one
  | JBool false => PrimFloat.zero
  | JNum n => n
  | JStr s => StringToNumber rt s
  | _ => ObjectToNumber rt v
  end.

(** [String(v)]. *)
Definition String (rt : Runtime) (v : jsval) : string :=
  match v with
  | JUndefined => "undefined"
  | JNull => "null"
  | JBool true => "true"
  | JBool false => "false"
  | JNum n => NumberToString rt n
  | JStr s => s
  | _ => ObjectToString rt v
  end.

(** The truth value of [v] in a condition. *)
Definition truthy (v : jsval) : bool :=
  match v with
  | JUndefined | JNull => false
  | JBool b => b
  | JNum n => negb (PrimFloat.eqb n PrimFloat.zero || PrimFloat.is_nan n)
  | JStr s => negb (String.eqb s "")
  | JArr _ | JObj _ | JFun _ => true
  end.

(** [o[k]] on own properties: [None] when [k] is not an own key. *)
Fixpoint own (o : obj) (k : string) : option jsval :=
  match o with
  | [] => None
  | (k', v) :: o' => if String.eqb k' k then Some v else own o' k
  end.

(** The properties every object literal inherits from [Object.prototype]:
    all are functions except the [__proto__] accessor, which yields
    [Object.prototype] itself, an object with no enumerable property. *)
Definition ObjectPrototype : obj :=
  [ ("constructor", JFun "Object");
    ("__defineGetter__", JFun "__defineGetter__");
    ("__defineSetter__", JFun "__defineSetter__");
    ("hasOwnProperty", JFun "hasOwnProperty");
    ("__lookupGetter__", JFun "__lookupGetter__");
    ("__lookupSetter__", JFun "__lookupSetter__");
    ("isPrototypeOf", JFun "isPrototypeOf");
    ("propertyIsEnumerable", JFun "propertyIsEnumerable");
    ("toString", JFun "toString");
    ("valueOf", JFun "valueOf");
    ("__proto__", JObj []);
    ("toLocaleString", JFun "toLocaleString") ].

(** [o[k]] for an object literal [o]: a read that finds no own key
    continues in [Object.prototype], and yields [undefined] after that. *)
Definition getProp (o : obj) (k : string) : jsval :=
  match own o k with
  | Some v => v
  | None => default JUndefined (own ObjectPrototype k)
  end.

(** [{...o, [k]: v}], the definition of the own property [k]: an
    existing key keeps its place, a new key goes last (the place of a
    key that is not an array index). *)
Fixpoint set (o : obj) (k : string) (v : jsval) : obj :=
  match o with
  | [] => [(k, v)]
  | (k', v') :: o' =>
      if String.eqb k' k then (k', v) :: o' else (k', v') :: set o' k v
  end.

(** An assignment [o[k] = v] to a key that [o] does not own looks the key
    up in [Object.prototype]. It finds an accessor for [__proto__] and
    calls its setter; every other property there is a writable data
    property, and the assignment then defines the own property. *)
Definition inheritsSetter (o : obj) (k : string) : bool :=
  String.eqb k "__proto__" &&
  match own o k with Some _ => false | None => true end.

(** The setter of [__proto__] makes an object or [null] the prototype of
    the receiver and does nothing for any other value. *)
Definition isPrototype (v : jsval) : bool :=
  match v with
  | JNull | JArr _ | JObj _ | JFun _ => true
  | JUndefined | JBool _ | JNum _ | JStr _ => false
  end.

(** [o[k] = v] for a value [v] that is neither an object nor [null]. *)
Definition assigned (o : obj) (k : string) (v : jsval) : obj :=
  if inheritsSetter o k then o else set o k v.

(** [o[k] = v]; [None] when the assignment gives [o] another prototype,
    after which [o] is no object literal any more. *)
Definition assign (o : obj) (k : string) (v : jsval) : option obj :=
  if inheritsSetter o k && isPrototype v then None
  else Some (assigned o k v).

(** [Object.keys(o)]. *)
Definition keys (o : obj) : list string := map fst o.

(** [Array.isArray(v)]. *)
Definition isArray (v : jsval) : bool :=
  match v with JArr _ => true | _ => false end.

(** [s.includes(sub)]. *)
Fixpoint includes (sub s : string) : bool :=
  String.prefix sub s ||
  match s with
  | EmptyString => false
  | String.String _ s' => includes sub s'
  end.

End Js.

Import Js.

(** ** The visual builder ([App.tsx], the query-building effect) *)

Module Builder.

Record Join := { jtable : string; leftCol : string; rightCol : string }.
Record Filter := { column : string; operator : string; value : string }.

Section WithRuntime.
Context (rt : Runtime).

(** The body of [vbJoins.forEach]: the text appended for one join. *)
Definition joinText (vbBaseTable : string) (join : Join) : string :=
  " JOIN " +:+ jtable join +:+ " ON " +:+ vbBaseTable +:+ "." +:+ leftCol join
    +:+ " = " +:+ jtable join +:+ "." +:+ rightCol join.

(** The callback of [vbFilters.map]. *)
Definition filterString (vbBaseTable : string) (f : Filter) : string :=
  let table := if includes "." (column f) then "" else vbBaseTable +:+ "." in
  let value' :=
    if isNaN (Number rt (JStr (value f)))
    then "'" +:+ value f +:+ "'" else value f in
  table +:+ column f +:+ " " +:+ operator f +:+ " " +:+ value'.

(** The effect's computation of [newQuery], statement by statement. *)
Definition generateQuery (vbBaseTable : string) (vbJoins : list Join)
    (vbFilters : list Filter) : string :=
  let newQuery := "SELECT * FROM " +:+ vbBaseTable in
  let newQuery :=
    fold_left (fun acc join => acc +:+ joinText vbBaseTable join)
      vbJoins newQuery in
  if Nat.ltb 0 (length vbFilters) then
    let filterStrings := map (filterString vbBaseTable) vbFilters in
    newQuery +:+ " WHERE " +:+ String.concat " AND " filterStrings
  else newQuery.

End WithRuntime.
End Builder.

(** ** The mock backend ([server.ts]) *)

Module Server.

Open Scope float_scope.

Definition row (fields : obj) : jsval := JObj fields.

(** The [mockData] literal. *)
Definition mockData : obj :=
  [ ("users", JArr
      [ row [("id", JNum 1); ("name", JStr "Alice Johnson");
             ("email", JStr "alice@example.com"); ("role_id", JNum 1)];
        row [("id", JNum 2); ("name", JStr "Bob Smith");
             ("email", JStr "bob@example.com"); ("role_id", JNum 2)];
        row [("id", JNum 3); ("name", JStr "Charlie Brown");
             ("email", JStr "charlie@example.com"); ("role_id", JNum 2)];
        row [("id", JNum 4); ("name", JStr "Diana Prince");
             ("email", JStr "diana@example.com"); ("role_id", JNum 1)] ]);
    ("roles", JArr
      [ row [("id", JNum 1); ("role_name", JStr "Admin");
             ("permissions", JStr "all")];
        row [("id", JNum 2); ("role_name", JStr "User");
             ("permissions", JStr "read-only")] ]);
    ("orders", JArr
      [ row [("id", JNum 101); ("user_id", JNum 1);
             ("product", JStr "Laptop"); ("amount", JNum 1200)];
        row [("id", JNum 102); ("user_id", JNum 2);
             ("product", JStr "Mouse"); ("amount", JNum 25)];
        row [("id", JNum 103); ("user_id", JNum 1);
             ("product", JStr "Monitor"); ("amount", JNum 300)];
        row [("id", JNum 104); ("user_id", JNum 3);
             ("product", JStr "Keyboard"); ("amount", JNum 75)] ]) ].

Close Scope float_scope.

(** The arrays the store holds. *)
Definition staticArrays (store : obj) : list jsval :=
  filter (fun v => isArray v = true) (map snd store).

(** A request after routing. Express matches the method and the path and
    binds [req.params.name] to the decoded path segment. The requests
    carry no body, as the ones the page sends. *)
Inductive request :=
| GetTables                       (* GET /api/tables *)
| GetTable (name : string)        (* GET /api/table/:name *)
| Other (method path : string).   (* anything else: left to the middleware
                                     registered after the two routes *)

(** A response: the status line and the body [res.json] wrote, as the
    value the client parses. *)
Record response := { status : nat; body : option jsval }.

(** [JSON.stringify(v)] as the value [JSON.parse] reads back from its
    text. [undefined] and a function have no text: [stringify] then
    yields [undefined] ([None], and [res.json] sends an empty body), an
    element of an array is written [null], and a property of an object is
    left out. [NaN] and the infinities are written [null], and the sign
    of zero is not written. *)
Fixpoint stringify (v : jsval) : option jsval :=
  match v with
  | JUndefined | JFun _ => None
  | JNull | JBool _ | JStr _ => Some v
  | JNum n =>
      Some (if PrimFloat.is_nan n || PrimFloat.is_infinity n then JNull
            else if PrimFloat.eqb n PrimFloat.zero then JNum PrimFloat.zero
            else JNum n)
  | JArr items =>
      Some (JArr (map (fun item => default JNull (stringify item)) items))
  | JObj props =>
      Some (JObj ((fix members (props : obj) : obj :=
                     match props with
                     | [] => []
                     | (k, x) :: props' =>
                         match stringify x with
                         | Some y => (k, y) :: members props'
                         | None => members props'
                         end
                     end) props))
  end.

(** Handlers run in a state monad over the table store: every read of
    [mockData] in a handler is a [gets]. *)
Definition handler (A : Type) : Type := obj -> A * obj.
Definition gets {A} (f : obj -> A) : handler A := fun s => (f s, s).
Definition hret {A} (a : A) : handler A := fun s => (a, s).
Definition hbind {A B} (m : handler A) (k : A -> handler B) : handler B :=
  fun s => let '(a, s') := m s in k a s'.

(** [res.json(v)] and [res.status(c).json(v)]. *)
Definition json (v : jsval) : handler response :=
  hret {| status := 200; body := stringify v |}.
Definition status_json (c : nat) (v : jsval) : handler response :=
  hret {| status := c; body := stringify v |}.

(** [app.get("/api/tables", ...)]. *)
Definition tablesHandler : handler response :=
  hbind (gets keys) (fun ks => json (JArr (map JStr ks))).

(** [app.get("/api/table/:name", ...)]. *)
Definition tableHandler (name : string) : handler response :=
  hbind (gets (fun mockData => getProp mockData name)) (fun v =>
    if truthy v then json v
    else status_json 404 (JObj [("error", JStr "Table not found")])).

(** A route registration: method and path pattern. *)
Record route := { rmethod : string; rpath : string }.

(** The [app.get] registrations of [startServer], in order; the catch-all
    exists only in production mode. *)
Definition routes (production : bool) : list route :=
  [ {| rmethod := "GET"; rpath := "/api/tables" |};
    {| rmethod := "GET"; rpath := "/api/table/:name" |} ]
  ++ (if production then [ {| rmethod := "GET"; rpath := "*" |} ] else []).

(** The REST routes are the ones under [/api/]. *)
Definition restRoutes (production : bool) : list route :=
  filter (fun r => String.prefix "/api/" (rpath r) = true) (routes production).

(** What the two routes do not match goes to the middleware registered
    after them (Vite in development, the static files in production),
    which never sees the table store: [fallback] is its response. *)
Definition handle (fallback : string -> string -> response) (req : request)
    : handler response :=
  match req with
  | GetTables => tablesHandler
  | GetTable name => tableHandler name
  | Other m p => hret (fallback m p)
  end.

(** The server process: the store starts as [mockData] and each request
    runs its handler on the current store. *)
Fixpoint serve (fallback : string -> string -> response)
    (reqs : list request) (store : obj) : list response * obj :=
  match reqs with
  | [] => ([], store)
  | req :: reqs' =>
      let '(resp, store') := handle fallback req store in
      let '(resps, store'') := serve fallback reqs' store' in
      (resp :: resps, store'')
  end.

End Server.

(** ** Computations with a state and exceptions *)

Module Eff.

(** The outcome of a JavaScript statement: it completes with a value, or
    it throws an error whose [message] is [msg]. [Unmodelled] marks a step
    that met a value outside the types of this embedding (a table name
    that is not a string or not a plain path segment, a table body that
    is not an array of objects, an assignment to an array under a name
    that is no array index, an assignment that changes a prototype); it
    is neither caught nor continued. *)
Inductive res (A : Type) :=
| Ok (a : A)
| Throw (msg : string)
| Unmodelled.
Arguments Ok {A} a.
Arguments Throw {A} msg.
Arguments Unmodelled {A}.

Definition M (S A : Type) : Type := S -> S * res A.

Definition ret {S A} (a : A) : M S A := fun s => (s, Ok a).
Definition throw {S A} (msg : string) : M S A := fun s => (s, Throw msg).
Definition unmodelled {S A} : M S A := fun s => (s, Unmodelled).
Definition bind {S A B} (m : M S A) (k : A -> M S B) : M S B :=
  fun s =>
    match m s with
    | (s', Ok a) => k a s'
    | (s', Throw msg) => (s', Throw msg)
    | (s', Unmodelled) => (s', Unmodelled)
    end.

Notation "'let*' x := m 'in' k" := (bind m (fun x => k))
  (at level 10, x pattern, m at level 100, k at level 200,
   format "'[v' 'let*'  x  :=  m  'in' '/' k ']'").

(** [l.map(f)] when [f] has effects: left to right, stopping at a throw. *)
Fixpoint mapM {S A B} (f : A -> M S B) (l : list A) : M S (list B) :=
  match l with
  | [] => ret []
  | a :: l' => let* b := f a in let* bs := mapM f l' in ret (b :: bs)
  end.

(** [l.forEach(f)]. *)
Fixpoint forEach {S A} (f : A -> M S unit) (l : list A) : M S unit :=
  match l with
  | [] => ret tt
  | a :: l' => let* _ := f a in forEach f l'
  end.

(** [m] only takes a state to one related to it by [R], whatever its
    outcome. *)
Definition stable {S A} (R : relation S) (m : M S A) : Prop :=
  forall s s' r, m s = (s', r) -> R s s'.

End Eff.

Import Eff.

(** ** The workspace client ([src/App.tsx], [src/types.ts]) *)

Module Client.

(** [ColumnType] and [ColumnDefinition] of [types.ts]. *)
Inductive ColumnType := TString | TNumber | TBoolean | TDate.
Record ColumnDefinition := { cname : string; ctype : ColumnType }.

(** Row objects are identified by their location in the store. *)
Abbreviation loc := positive.
Abbreviation heap := (gmap positive obj).

(** An element of a [data] array: an empty slot (left by an assignment
    past the end), [undefined], or a row object. The backend serves arrays
    of objects, and the operations below add nothing else. *)
Inductive slot := Hole | Undef | Row (l : loc).

(** [TableState]. [columns] is [None] when the property is absent from
    the object (reading it yields [undefined]). *)
Record TableState := {
  name : string;
  data : list slot;
  columns : option (list ColumnDefinition)
}.

Definition with_data (t : TableState) (d : list slot) : TableState :=
  {| name := name t; data := d; columns := columns t |}.
Definition with_columns (t : TableState) (c : list ColumnDefinition)
    : TableState :=
  {| name := name t; data := data t; columns := Some c |}.

(** *** Arrays *)

(** [[...a]]: a new array in which the empty slots read as [undefined]. *)
Definition spreadArray (a : list slot) : list slot :=
  map (fun s => match s with Hole => Undef | _ => s end) a.

(** [a[i]]. *)
Definition readIdx (a : list slot) (i : nat) : slot := default Undef (a !! i).

(** The array indices are the integers below [2^32 - 1]. *)
Definition isArrayIndex (i : nat) : bool :=
  (N.of_nat i <? 4294967295)%N.

(** [a[i] = s]: inside the array the element is replaced (an array has
    fewer than [2^32] elements, so an index inside it is an array
    index); past the end, and for an array index, the array grows to
    length [i + 1], the slots in between staying empty. For an [i] that
    is no array index the assignment defines a property of that name and
    the length stays: such an array is outside the lists of slots
    ([None]). *)
Definition writeIdx (a : list slot) (i : nat) (s : slot)
    : option (list slot) :=
  if Nat.ltb i (length a) then Some (<[i := s]> a)
  else if isArrayIndex i then
    Some (a ++ replicate (i - length a) Hole ++ [s])%list
  else None.

(** *** The store of row objects *)

(** The properties of the object at [l]. Every location the state holds
    was allocated, so the default is never read. *)
Definition props (h : heap) (l : loc) : obj := default [] (h !! l).

(** [{...s}]: the own properties of a row; none for [undefined]. *)
Definition spreadSlot (h : heap) (s : slot) : obj :=
  match s with
  | Row l => props h l
  | Hole | Undef => []
  end.

(** An object literal: a new object with the properties [o]. *)
Definition alloc (o : obj) : M heap loc :=
  fun h => let l := fresh (dom h) in (<[l := o]> h, Ok l).

(** [l[k]]. *)
Definition readProp (l : loc) (k : string) : M heap jsval :=
  fun h => (h, Ok (getProp (props h l) k)).

(** [l[k] = v]. *)
Definition writeProp (l : loc) (k : string) (v : jsval) : M heap unit :=
  fun h =>
    match assign (props h l) k v with
    | Some o => (alter (fun _ => o) l h, Ok tt)
    | None => (h, Unmodelled)
    end.

(** *** The updaters passed to [setTables] *)

(** The callback of [prev.map] in [updateCell]. *)
Definition cellUpdater (tableName : string) (rowIndex : nat) (key : string)
    (value : jsval) (t : TableState) : M heap TableState :=
  if String.eqb (name t) tableName then
    let newData := spreadArray (data t) in
    let* newRow := fun h =>
      alloc (set (spreadSlot h (readIdx newData rowIndex)) key value) h in
    match writeIdx newData rowIndex (Row newRow) with
    | Some newData => ret (with_data t newData)
    | None => unmodelled
    end
  else ret t.

(** [updateCell]: the function of [prev]. *)
Definition updateCell (tableName : string) (rowIndex : nat) (key : string)
    (value : jsval) (prev : list TableState) : M heap (list TableState) :=
  mapM (cellUpdater tableName rowIndex key value) prev.

(** The callback of [prev.map] in [addRow]; [now] is what [Date.now()]
    reads. The [reduce] builds one object per key, each from the previous
    one; only the last is reachable afterwards and only it is allocated. *)
Definition rowAdder (now : float) (tableName : string) (t : TableState)
    : M heap TableState :=
  if String.eqb (name t) tableName then
    let* newRow :=
      if Nat.ltb 0 (length (data t)) then
        match readIdx (data t) 0 with
        | Row first => fun h =>
            alloc (fold_left (fun acc key => set acc key (JStr ""))
                     (keys (props h first)) []) h
        | Hole | Undef =>
            throw "Cannot convert undefined or null to object"
        end
      else alloc [("id", JNum now)] in
    ret (with_data t (spreadArray (data t) ++ [Row newRow]))
  else ret t.

(** [addRow]: the function of [prev]. *)
Definition addRow (now : float) (tableName : string)
    (prev : list TableState) : M heap (list TableState) :=
  mapM (rowAdder now tableName) prev.

(** The callback of [prev.map] in [updateColumnType]. *)
Definition typeUpdater (tableName columnName : string) (newType : ColumnType)
    (t : TableState) : M heap TableState :=
  if String.eqb (name t) tableName then
    match columns t with
    | Some cols =>
        ret (with_columns t
               (map (fun c =>
                       if String.eqb (cname c) columnName
                       then {| cname := cname c; ctype := newType |}
                       else c) cols))
    | None => throw "Cannot read properties of undefined (reading 'map')"
    end
  else ret t.

(** [updateColumnType]: the function of [prev]. *)
Definition updateColumnType (tableName columnName : string)
    (newType : ColumnType) (prev : list TableState)
    : M heap (list TableState) :=
  mapM (typeUpdater tableName columnName newType) prev.

(** *** Reading the state *)

(** The row object of a slot, if any, is in the store. *)
Definition slotAllocated (h : heap) (s : slot) : Prop :=
  match s with Row l => is_Some (h !! l) | Hole | Undef => True end.

(** Every row object a table refers to is in the store. *)
Definition allocated (h : heap) (t : TableState) : Prop :=
  forall l, Row l ∈ data t -> is_Some (h !! l).

(** A table of the page is well formed in a store: its row objects are
    there, and its column names, if it has columns, are distinct. *)
Definition goodTable (t : TableState) (h : heap) : Prop :=
  allocated h t /\
  forall cols, columns t = Some cols -> NoDup (map cname cols).

(** The row [t.data[j]] with its properties; [None] when [t.data[j]] is
    [undefined]. *)
Definition rowAt (h : heap) (t : TableState) (j : nat) : option obj :=
  match data t !! j with
  | Some (Row l) => h !! l
  | Some Hole | Some Undef | None => None
  end.

(** What [updateCell] leaves of a table, by locations: [t'] is [t] unless
    it has the name, and then its data is the copy of the array with a
    new object written at the index, the copy of the row with the key
    set. [h] is the store before and [h'] the store after. *)
Definition cellUpdated (h h' : heap) (tableName : string) (rowIndex : nat)
    (key : string) (value : jsval) (t t' : TableState) : Prop :=
  name t' = name t /\ columns t' = columns t /\
  (name t ≠ tableName -> t' = t) /\
  (name t = tableName ->
   exists l, h !! l = None /\
     h' !! l = Some (set (spreadSlot h (readIdx (spreadArray (data t)) rowIndex))
                       key value) /\
     writeIdx (spreadArray (data t)) rowIndex (Row l) = Some (data t')).

(** The index is in each table with the name, or it is an array index:
    the assignment of [updateCell] is then to an element of the array. *)
Definition addressable (tableName : string) (rowIndex : nat)
    (prev : list TableState) : Prop :=
  forall t, t ∈ prev -> name t = tableName ->
    rowIndex < length (data t) \/ isArrayIndex rowIndex = true.

(** What [addRow] leaves of a table: [t'] is [t] unless it has the name,
    and then its data is the copy of the array with one more element, a
    new object: [{id: now}] for a table without rows, and otherwise the
    keys of the first row, each with the empty string. [h] is the store
    before and [h'] the store after. *)
Definition rowAdded (now : float) (h h' : heap) (tableName : string)
    (t t' : TableState) : Prop :=
  name t' = name t /\ columns t' = columns t /\
  (name t ≠ tableName -> t' = t) /\
  (name t = tableName ->
     length (data t') = S (length (data t)) /\
     (forall j, j < length (data t) -> rowAt h' t' j = rowAt h t j) /\
     exists o', rowAt h' t' (length (data t)) = Some o' /\
       match data t with
       | [] => o' = [("id", JNum now)]
       | _ :: _ =>
           exists first, rowAt h t 0 = Some first /\
             (forall k, own o' k
                        = if bool_decide (k ∈ keys first)
                          then Some (JStr "") else None) /\
             (NoDup (keys first) -> keys o' = keys first)
       end).

(** What [updateColumnType] leaves of a table: [t'] is [t] unless it has
    the name, and then its columns are those of [t], in order and with
    their names, the ones named [columnName] with the type [newType]. *)
Definition typeUpdated (tableName columnName : string) (newType : ColumnType)
    (t t' : TableState) : Prop :=
  name t' = name t /\ data t' = data t /\
  (name t ≠ tableName -> t' = t) /\
  (name t = tableName ->
     exists cols cols', columns t = Some cols /\ columns t' = Some cols' /\
       Forall2 (fun c c' =>
                  cname c' = cname c /\
                  ctype c' = if bool_decide (cname c = columnName)
                             then newType else ctype c) cols cols').

(** *** Running a query *)

(** The [alasql] package: [DB] is the state of its singleton database.
    [alasql sql] runs a statement and returns its value or throws;
    [setData name rows] is the assignment [alasql.tables[name].data = rows],
    which throws when [alasql.tables[name]] is [undefined]. The array
    assigned and its objects are made by [runQuery] for this call and
    nothing of the page refers to them afterwards, so they are handed
    over with their properties; an empty slot is [None]. *)
Record Engine := {
  DB : Type;
  alasql : string -> M DB jsval;
  setData : string -> list (option obj) -> M DB unit
}.

(** The state of the component that the modelled functions read or write. *)
Record AppState := {
  tables : list TableState;
  loading : bool;
  selectedTableName : option string;
  query : string;
  queryResult : option (list jsval);
  queryError : option string
}.

Section WithEngine.
Context (rt : Runtime) (eng : Engine).

Definition liftH {A} (m : M heap A) : M (heap * DB eng) A :=
  fun '(h, d) => let '(h', r) := m h in ((h', d), r).
Definition liftD {A} (m : M (DB eng) A) : M (heap * DB eng) A :=
  fun '(h, d) => let '(d', r) := m d in ((h, d'), r).

(** [val !== undefined && val !== null && val !== ''] *)
Definition nonEmpty (val : jsval) : bool :=
  match val with
  | JUndefined | JNull => false
  | JStr s => negb (String.eqb s "")
  | _ => true
  end.

(** The callback of [t.columns.forEach]. *)
Definition castColumn (newRow : loc) (col : ColumnDefinition) : M heap unit :=
  let* val := readProp newRow (cname col) in
  if nonEmpty val then
    match ctype col with
    | TNumber =>
        let num := Number rt val in
        writeProp newRow (cname col)
          (JNum (if isNaN num then PrimFloat.zero else num))
    | TBoolean =>
        writeProp newRow (cname col)
          (JBool (String.eqb (toLowerCase rt (String rt val)) "true"))
    | TString | TDate => ret tt
    end
  else ret tt.

(** The same callback as a function of the properties of the new row:
    what it leaves of them. The values it assigns are a number and a
    boolean. *)
Definition castObj (col : ColumnDefinition) (o : obj) : obj :=
  let val := getProp o (cname col) in
  if nonEmpty val then
    match ctype col with
    | TNumber =>
        assigned o (cname col)
          (JNum (if isNaN (Number rt val) then PrimFloat.zero
                 else Number rt val))
    | TBoolean =>
        assigned o (cname col)
          (JBool (String.eqb (toLowerCase rt (String rt val)) "true"))
    | TString | TDate => o
    end
  else o.

Definition castAll (cols : list ColumnDefinition) (o : obj) : obj :=
  fold_left (fun o col => castObj col o) cols o.

(** The callback of [t.data.map]. *)
Definition castRow (t : TableState) (row : slot) : M heap loc :=
  let* newRow := fun h => alloc (spreadSlot h row) h in
  let* _ :=
    match columns t with
    | Some cols => forEach (castColumn newRow) cols
    | None => throw "Cannot read properties of undefined (reading 'forEach')"
    end in
  ret newRow.

(** [t.data.map(...)]: [map] skips the empty slots and leaves them empty. *)
Definition castElement (t : TableState) (row : slot) : M heap (option loc) :=
  match row with
  | Hole => ret None
  | Undef | Row _ => let* newRow := castRow t row in ret (Some newRow)
  end.

Definition castedData (t : TableState) : M heap (list (option loc)) :=
  mapM (castElement t) (data t).

(** The callback of [tables.forEach]. *)
Definition registerTable (t : TableState) : M (heap * DB eng) unit :=
  let* castedData := liftH (castedData t) in
  let* _ := liftD (alasql eng ("DROP TABLE IF EXISTS " +:+ name t)) in
  let* _ := liftD (alasql eng ("CREATE TABLE " +:+ name t)) in
  let* rows := liftH (fun h => (h, Ok (map (fmap (props h)) castedData))) in
  liftD (setData eng (name t) rows).

(** The [try] block up to the value of [alasql(query)]. *)
Definition tryBlock (st : AppState) : M (heap * DB eng) jsval :=
  let* _ := forEach registerTable (tables st) in
  liftD (alasql eng (query st)).

(** [Array.isArray(result) ? result : [result]], under the test that
    [result] is neither [undefined] nor [null]. *)
Definition processedResult (result : jsval) : list jsval :=
  match result with
  | JUndefined | JNull => []
  | JArr items => items
  | _ => [result]
  end.

Definition setQueryOutcome (st : AppState) (result : option (list jsval))
    (error : option string) : AppState :=
  {| tables := tables st; loading := loading st;
     selectedTableName := selectedTableName st; query := query st;
     queryResult := result; queryError := error |}.

(** [runQuery]: the state after the handler, with the store and the
    database it leaves. The notifications and the console are not part
    of the state. *)
Definition runQuery (st : AppState) : M (heap * DB eng) AppState :=
  fun s =>
    match tryBlock st s with
    | (s', Ok result) =>
        (s', Ok (setQueryOutcome st (Some (processedResult result)) None))
    | (s', Throw msg) =>
        (s', Ok (setQueryOutcome st None (Some msg)))
    | (s', Unmodelled) => (s', Unmodelled)
    end.

(** A state keeps the objects it had. *)
Definition heapGrows : relation (heap * DB eng) :=
  fun s s' => fst s ⊆ fst s'.

End WithEngine.

End Client.

(** ** The client and the backend together *)

Module World.

Import Server Client.

(** The page is live, or it was unmounted by an error thrown during an
    update, or a step left the types of this embedding. *)
Inductive Phase := Live | Crashed (msg : string) | OutOfModel.

Section WithEnvironment.
Context (rt : Runtime) (eng : Engine) (fallback : string -> string -> response).

Record World := {
  app : AppState;       (* the component state *)
  objects : heap;       (* the row objects of the page *)
  db : DB eng;          (* the database of the SQL engine *)
  backend : obj;        (* the table store of the server process *)
  phase : Phase
}.

Definition with_phase (w : World) (p : Phase) : World :=
  {| app := app w; objects := objects w; db := db w; backend := backend w;
     phase := p |}.

(** *** Loading from the backend *)

Definition liftHeap {A} (m : M heap A) : M (heap * obj) A :=
  fun '(h, b) => let '(h', r) := m h in ((h', b), r).

(** [await (await fetch(url)).json()]: the request is handled by the
    server; parsing an empty body rejects. *)
Definition fetchJson (req : request) : M (heap * obj) jsval :=
  fun '(h, b) =>
    let '(resp, b') := handle fallback req b in
    match body resp with
    | Some v => ((h, b'), Ok v)
    | None => ((h, b'), Throw "Unexpected end of JSON input")
    end.

(** [fetch(`/api/table/${name}`)]: the name goes into the path as it
    is. A name of letters, digits, [-], [.], [_] and [~] that is neither
    empty nor a dot segment is one path segment, which the URL parser
    and the route leave as it is, and [req.params.name] is the name.
    What any other name reaches (another path, a query, a fragment, an
    escape) is not modelled. *)
Definition plainChar (c : ascii) : bool :=
  let n := N_of_ascii c in
  ((48 <=? n) && (n <=? 57) || (65 <=? n) && (n <=? 90)
   || (97 <=? n) && (n <=? 122)
   || (n =? 45) || (n =? 46) || (n =? 95) || (n =? 126))%N.

Fixpoint plainChars (s : string) : bool :=
  match s with
  | EmptyString => true
  | String.String c s' => plainChar c && plainChars s'
  end.

Definition plainSegment (name : string) : bool :=
  plainChars name &&
  negb (String.eqb name "" || String.eqb name "." || String.eqb name "..").

Definition fetchTable (name : string) : M (heap * obj) jsval :=
  if plainSegment name then fetchJson (GetTable name) else unmodelled.

(** [tableNames] as the array [tableNames.map] iterates. *)
Definition asNames (v : jsval) : M (heap * obj) (list string) :=
  match v with
  | JArr items =>
      mapM (fun it => match it with JStr s => ret s | _ => unmodelled end)
        items
  | _ => throw "tableNames.map is not a function"
  end.

(** [data] as parsed: each object of the array is a new row object. *)
Definition asRows (v : jsval) : M (heap * obj) (list slot) :=
  match v with
  | JArr items =>
      mapM (fun it =>
              match it with
              | JObj o => let* l := liftHeap (alloc o) in ret (Row l)
              | _ => unmodelled
              end) items
  | _ => unmodelled
  end.

(** The column inference of [fetchData]. *)
Definition inferType (val : jsval) : ColumnType :=
  let type := TString in
  let type := match val with JNum _ => TNumber | _ => type end in
  let type := match val with JBool _ => TBoolean | _ => type end in
  type.

Definition inferColumns (data : list slot) : M heap (list ColumnDefinition) :=
  if Nat.ltb 0 (length data) then
    match readIdx data 0 with
    | Row first => fun h =>
        (h, Ok (map (fun key =>
                       let val := getProp (props h first) key in
                       {| cname := key; ctype := inferType val |})
                  (keys (props h first))))
    | Hole | Undef => throw "Cannot convert undefined or null to object"
    end
  else ret [].

(** The callback of [tableNames.map] in [fetchData]. *)
Definition loadTable (name : string) : M (heap * obj) TableState :=
  let* v := fetchTable name in
  let* data := asRows v in
  let* columns := liftHeap (inferColumns data) in
  ret {| name := name; data := data; columns := Some columns |}.

(** The callback of [tableNames.map] in the Reset to Default handler. *)
Definition reloadTable (name : string) : M (heap * obj) TableState :=
  let* v := fetchTable name in
  let* data := asRows v in
  ret {| name := name; data := data; columns := None |}.

(** The requests of [Promise.all] are served one after the other; no
    handler changes the store, so their order does not matter. *)
Definition fetchAll (load : string -> M (heap * obj) TableState)
    : M (heap * obj) (list TableState) :=
  let* v := fetchJson GetTables in
  let* tableNames := asNames v in
  mapM load tableNames.

Definition settle (w : World) (st : AppState) (s : heap * obj) : World :=
  {| app := st; objects := fst s; db := db w; backend := snd s;
     phase := phase w |}.

(** [fetchData], run by the mount effect. *)
Definition fetchData (w : World) : World :=
  let st := app w in
  match fetchAll loadTable (objects w, backend w) with
  | (s, Ok loadedTables) =>
      settle w
        {| tables := loadedTables; loading := false;
           selectedTableName :=
             match loadedTables with
             | t :: _ => Some (name t)
             | [] => selectedTableName st
             end;
           query := query st; queryResult := queryResult st;
           queryError := queryError st |} s
  | (s, Throw _) =>
      settle w
        {| tables := tables st; loading := false;
           selectedTableName := selectedTableName st;
           query := query st; queryResult := queryResult st;
           queryError := queryError st |} s
  | (s, Unmodelled) => with_phase (settle w st s) OutOfModel
  end.

(** The click handler of Reset to Default, from [setLoading(true)] to
    the [finally]. *)
Definition resetToDefault (w : World) : World :=
  let st := app w in
  match fetchAll reloadTable (objects w, backend w) with
  | (s, Ok loadedTables) =>
      settle w
        {| tables := loadedTables; loading := false;
           selectedTableName := selectedTableName st;
           query := query st; queryResult := queryResult st;
           queryError := queryError st |} s
  | (s, Throw _) =>
      settle w
        {| tables := tables st; loading := false;
           selectedTableName := selectedTableName st;
           query := query st; queryResult := queryResult st;
           queryError := queryError st |} s
  | (s, Unmodelled) => with_phase (settle w st s) OutOfModel
  end.

(** *** The operations of the page *)

(** [setTables(updater)]: an updater that throws unmounts the page. *)
Definition setTables
    (updater : list TableState -> M heap (list TableState)) (w : World)
    : World :=
  let st := app w in
  match updater (tables st) (objects w) with
  | (h, Ok ts) =>
      {| app := {| tables := ts; loading := loading st;
                   selectedTableName := selectedTableName st;
                   query := query st; queryResult := queryResult st;
                   queryError := queryError st |};
         objects := h; db := db w; backend := backend w; phase := phase w |}
  | (h, Throw msg) =>
      {| app := st; objects := h; db := db w; backend := backend w;
         phase := Crashed msg |}
  | (h, Unmodelled) =>
      {| app := st; objects := h; db := db w; backend := backend w;
         phase := OutOfModel |}
  end.

Definition setQuery (q : string) (w : World) : World :=
  let st := app w in
  {| app := {| tables := tables st; loading := loading st;
               selectedTableName := selectedTableName st;
               query := q; queryResult := queryResult st;
               queryError := queryError st |};
     objects := objects w; db := db w; backend := backend w;
     phase := phase w |}.

Definition clickRun (w : World) : World :=
  match runQuery rt eng (app w) (objects w, db w) with
  | ((h, d), Ok st) =>
      {| app := st; objects := h; db := d; backend := backend w;
         phase := phase w |}
  | ((h, d), Throw msg) =>
      {| app := app w; objects := h; db := d; backend := backend w;
         phase := Crashed msg |}
  | ((h, d), Unmodelled) =>
      {| app := app w; objects := h; db := d; backend := backend w;
         phase := OutOfModel |}
  end.

(** What the user (or the mount effect) can do. *)
Inductive op :=
| Mount                                   (* the effect that runs fetchData *)
| EditCell (tableName : string) (rowIndex : nat) (key : string)
    (value : jsval)                       (* updateCell *)
| AddRow (now : float) (tableName : string)
| ChangeColumnType (tableName columnName : string) (newType : ColumnType)
| TypeQuery (q : string)                  (* setQuery *)
| ExecuteQuery                            (* runQuery *)
| ResetToDefault.

Definition step (w : World) (o : op) : World :=
  match phase w with
  | Live =>
      match o with
      | Mount => fetchData w
      | EditCell tableName rowIndex key value =>
          setTables (updateCell tableName rowIndex key value) w
      | AddRow now tableName => setTables (addRow now tableName) w
      | ChangeColumnType tableName columnName newType =>
          setTables (updateColumnType tableName columnName newType) w
      | TypeQuery q => setQuery q w
      | ExecuteQuery => clickRun w
      | ResetToDefault => resetToDefault w
      end
  | Crashed _ | OutOfModel => w
  end.

Definition run (ops : list op) (w : World) : World := fold_left step ops w.

(** The page before the mount effect, with the server just started. The
    query is the initial value of its state; the builder effect replaces
    it as [TypeQuery] does. *)
Definition initial (d : DB eng) : World :=
  {| app := {| tables := []; loading := true; selectedTableName := None;
               query :=
                 "SELECT * FROM users JOIN roles ON users.role_id = roles.id";
               queryResult := None; queryError := None |};
     objects := ∅; db := d; backend := mockData; phase := Live |}.

(** *** Reading the world *)

(** The tables of the page as data, the way the backend stores its own:
    each table name with the array of its rows. *)
Definition slotValue (h : heap) (s : slot) : jsval :=
  match s with
  | Row l => JObj (props h l)
  | Hole | Undef => JUndefined
  end.

Definition snapshot (w : World) : obj :=
  map (fun t => (name t, JArr (map (slotValue (objects w)) (data t))))
    (tables (app w)).

(** Every table of the page has its [columns] array. *)
Definition columnsDefined (w : World) : Prop :=
  Forall (fun t => is_Some (columns t)) (tables (app w)).

(** Every table of the page is well formed in the store of the page. *)
Definition wellFormed (w : World) : Prop :=
  Forall (fun t => goodTable t (objects w)) (tables (app w)).

End WithEnvironment.

(** The rows of a table of the store, when it is an array of objects. *)
Fixpoint objectsOf (items : list jsval) : option (list obj) :=
  match items with
  | [] => Some []
  | JObj o :: items' => cons o <$> objectsOf items'
  | _ :: _ => None
  end.

Definition asObjects (v : jsval) : option (list obj) :=
  match v with
  | JArr items => objectsOf items
  | _ => None
  end.

(** A store of tables the page loads as they are: distinct names, each a
    plain path segment, each with an array of objects that reads back
    from its JSON text as it is. *)
Definition tableStore (b : obj) : Prop :=
  NoDup (keys b) /\
  Forall (fun kv => plainSegment (fst kv) = true /\
                    is_Some (asObjects (snd kv)) /\
                    stringify (snd kv) = Some (snd kv)) b.

(** The store [b] has such a table at the name [n]. *)
Definition served (b : obj) (n : string) : Prop :=
  exists v, own b n = Some v /\ plainSegment n = true /\
    is_Some (asObjects v) /\ stringify v = Some v.

(** What the reload of one table leaves: the table [t] named [n] without
    columns, its rows in the store [h'] being the array of the backend. *)
Definition reloaded (b : obj) (h' : heap) (n : string) (t : TableState) : Prop :=
  name t = n /\ columns t = None /\
  Forall (slotAllocated h') (data t) /\
  own b n = Some (JArr (map (slotValue h') (data t))).

(** The columns [fetchData] infers for the rows [os]. *)
Definition inferred (os : list obj) : list ColumnDefinition :=
  match os with
  | [] => []
  | o :: _ =>
      map (fun key => {| cname := key; ctype := inferType (getProp o key) |})
        (keys o)
  end.

(** What the load of one table leaves: the table [t] named [n], its rows
    in the store [h'] being the array of the backend, and its columns the
    ones inferred from these rows. *)
Definition loaded (b : obj) (h' : heap) (n : string) (t : TableState) : Prop :=
  name t = n /\
  Forall (slotAllocated h') (data t) /\
  own b n = Some (JArr (map (slotValue h') (data t))) /\
  exists os, map (slotValue h') (data t) = map JObj os /\
    columns t = Some (inferred os).

(** The keys of the first row of each table of a store are distinct. *)
Definition firstKeysDistinct (b : obj) : Prop :=
  Forall (fun kv =>
            match asObjects (snd kv) with
            | Some (o :: _) => NoDup (keys o)
            | Some [] | None => True
            end) b.

(** A state keeps the objects it had and the same backend store. *)
Definition backendKept : relation (heap * obj) :=
  fun s s' => fst s ⊆ fst s' /\ snd s' = snd s.

Arguments app {eng} w.
Arguments objects {eng} w.
Arguments db {eng} w.
Arguments backend {eng} w.
Arguments phase {eng} w.
Arguments snapshot {eng} w.
Arguments columnsDefined {eng} w.
Arguments wellFormed {eng} w.

End World.

(** ** The controls of the visual builder ([src/App.tsx], the SQL tab) *)

Module Controls.

Import Builder Client.

(** The state of the builder. [vbJoins] and [vbFilters] are arrays of
    objects, and the change handlers assign to a property of an element
    ([newJoins[idx].table = ...]) after copying the array only: the
    objects are in a store and the arrays hold their locations. *)
Record VB := {
  vbBaseTable : string;
  vbJoins : list loc;
  vbFilters : list loc;
  joinObjects : gmap positive Join;
  filterObjects : gmap positive Filter
}.

(** The initial values of the three [useState] calls. *)
Definition initialVB : VB :=
  {| vbBaseTable := "users"; vbJoins := []; vbFilters := [];
     joinObjects := ∅; filterObjects := ∅ |}.

(** The object at a location of the arrays. Every location an array holds
    was allocated, so the default is never read. *)
Definition joinAt (vb : VB) (l : loc) : Join :=
  default {| jtable := ""; leftCol := ""; rightCol := "" |}
    (joinObjects vb !! l).
Definition filterAt (vb : VB) (l : loc) : Filter :=
  default {| column := ""; operator := ""; value := "" |}
    (filterObjects vb !! l).

(** The arrays as the effect reads them. *)
Definition joinsOf (vb : VB) : list Join := map (joinAt vb) (vbJoins vb).
Definition filtersOf (vb : VB) : list Filter := map (filterAt vb) (vbFilters vb).

(** The query the effect sets when the state of the builder changes. *)
Definition builderQuery (rt : Runtime) (vb : VB) : string :=
  generateQuery rt (vbBaseTable vb) (joinsOf vb) (filtersOf vb).

(** [a.filter((_, i) => i !== idx)]. *)
Fixpoint filterIndex {A} (p : nat -> bool) (i : nat) (a : list A) : list A :=
  match a with
  | [] => []
  | x :: a' =>
      if p i then x :: filterIndex p (S i) a' else filterIndex p (S i) a'
  end.

Definition withoutIndex {A} (idx : nat) (a : list A) : list A :=
  filterIndex (fun i => negb (Nat.eqb i idx)) 0 a.

(** [tables.find(t => t.name === n)]. *)
Definition findTable (tables : list TableState) (n : string)
    : option TableState :=
  List.find (fun t => String.eqb (name t) n) tables.

(** The change handler of the Primary Table select. *)
Definition selectBaseTable (v : string) : M VB unit :=
  fun vb =>
    ({| vbBaseTable := v; vbJoins := []; vbFilters := [];
        joinObjects := joinObjects vb; filterObjects := filterObjects vb |},
     Ok tt).

(** [tables.find(t => t.name !== vbBaseTable)?.name || '']. *)
Definition otherTable (tables : list TableState) (vbBaseTable : string)
    : string :=
  match List.find (fun t => negb (String.eqb (name t) vbBaseTable)) tables with
  | Some t => name t
  | None => ""
  end.

(** The click handler of Add Join. *)
Definition addJoin (tables : list TableState) : M VB unit :=
  fun vb =>
    let join := {| jtable := otherTable tables (vbBaseTable vb);
                   leftCol := "id"; rightCol := "id" |} in
    let l := fresh (dom (joinObjects vb)) in
    ({| vbBaseTable := vbBaseTable vb;
        vbJoins := vbJoins vb ++ [l]; vbFilters := vbFilters vb;
        joinObjects := <[l := join]> (joinObjects vb);
        filterObjects := filterObjects vb |}, Ok tt).

(** The click handler of the remove button of the join at [idx]. *)
Definition removeJoin (idx : nat) : M VB unit :=
  fun vb =>
    ({| vbBaseTable := vbBaseTable vb;
        vbJoins := withoutIndex idx (vbJoins vb); vbFilters := vbFilters vb;
        joinObjects := joinObjects vb; filterObjects := filterObjects vb |},
     Ok tt).

(** The change handlers of the selects of the join at [idx]:
    [newJoins = [...vbJoins]; newJoins[idx].field = v; setVbJoins(newJoins)].
    The new array has the elements of the old one; the assignment writes
    the object both arrays hold, and throws when there is no element at
    [idx]. *)
Definition editJoin (field : string) (assign : Join -> Join) (idx : nat)
    : M VB unit :=
  fun vb =>
    match vbJoins vb !! idx with
    | Some l =>
        ({| vbBaseTable := vbBaseTable vb;
            vbJoins := vbJoins vb; vbFilters := vbFilters vb;
            joinObjects := alter assign l (joinObjects vb);
            filterObjects := filterObjects vb |}, Ok tt)
    | None =>
        (vb, Throw ("Cannot set properties of undefined (setting '"
                    +:+ field +:+ "')"))
    end.

Definition setJoinTable (idx : nat) (v : string) : M VB unit :=
  editJoin "table"
    (fun j => {| jtable := v; leftCol := leftCol j; rightCol := rightCol j |})
    idx.
Definition setJoinLeftCol (idx : nat) (v : string) : M VB unit :=
  editJoin "leftCol"
    (fun j => {| jtable := jtable j; leftCol := v; rightCol := rightCol j |})
    idx.
Definition setJoinRightCol (idx : nat) (v : string) : M VB unit :=
  editJoin "rightCol"
    (fun j => {| jtable := jtable j; leftCol := leftCol j; rightCol := v |})
    idx.

(** [tables.find(t => t.name === vbBaseTable)?.columns[0].name || '']:
    the chain stops at a table that is not found; on a table that is
    found, [columns[0]] reads an index of [columns] and [.name] a property
    of the element. *)
Definition firstColumn (tables : list TableState) (vbBaseTable : string)
    : M VB string :=
  match findTable tables vbBaseTable with
  | None => ret ""
  | Some t =>
      match columns t with
      | None => throw "Cannot read properties of undefined (reading '0')"
      | Some [] => throw "Cannot read properties of undefined (reading 'name')"
      | Some (c :: _) => ret (cname c)
      end
  end.

(** The click handler of Add Filter. *)
Definition addFilter (tables : list TableState) : M VB unit :=
  fun vb =>
    match firstColumn tables (vbBaseTable vb) vb with
    | (_, Ok col) =>
        let filter := {| column := col; operator := "="; value := "" |} in
        let l := fresh (dom (filterObjects vb)) in
        ({| vbBaseTable := vbBaseTable vb;
            vbJoins := vbJoins vb; vbFilters := vbFilters vb ++ [l];
            joinObjects := joinObjects vb;
            filterObjects := <[l := filter]> (filterObjects vb) |}, Ok tt)
    | (_, Throw msg) => (vb, Throw msg)
    | (_, Unmodelled) => (vb, Unmodelled)
    end.

(** The click handler of the remove button of the filter at [idx]. *)
Definition removeFilter (idx : nat) : M VB unit :=
  fun vb =>
    ({| vbBaseTable := vbBaseTable vb;
        vbJoins := vbJoins vb; vbFilters := withoutIndex idx (vbFilters vb);
        joinObjects := joinObjects vb; filterObjects := filterObjects vb |},
     Ok tt).

(** The change handlers of the controls of the filter at [idx]. *)
Definition editFilter (field : string) (assign : Filter -> Filter) (idx : nat)
    : M VB unit :=
  fun vb =>
    match vbFilters vb !! idx with
    | Some l =>
        ({| vbBaseTable := vbBaseTable vb;
            vbJoins := vbJoins vb; vbFilters := vbFilters vb;
            joinObjects := joinObjects vb;
            filterObjects := alter assign l (filterObjects vb) |}, Ok tt)
    | None =>
        (vb, Throw ("Cannot set properties of undefined (setting '"
                    +:+ field +:+ "')"))
    end.

Definition setFilterColumn (idx : nat) (v : string) : M VB unit :=
  editFilter "column"
    (fun f => {| column := v; operator := operator f; value := value f |}) idx.
Definition setFilterOperator (idx : nat) (v : string) : M VB unit :=
  editFilter "operator"
    (fun f => {| column := column f; operator := v; value := value f |}) idx.
Definition setFilterValue (idx : nat) (v : string) : M VB unit :=
  editFilter "value"
    (fun f => {| column := column f; operator := operator f; value := v |}) idx.

(** What the user can do in the builder. *)
Inductive action :=
| SelectBaseTable (v : string)
| AddJoin
| RemoveJoin (idx : nat)
| SetJoinTable (idx : nat) (v : string)
| SetJoinLeftCol (idx : nat) (v : string)
| SetJoinRightCol (idx : nat) (v : string)
| AddFilter
| RemoveFilter (idx : nat)
| SetFilterColumn (idx : nat) (v : string)
| SetFilterOperator (idx : nat) (v : string)
| SetFilterValue (idx : nat) (v : string).

Definition handler (tables : list TableState) (a : action) : M VB unit :=
  match a with
  | SelectBaseTable v => selectBaseTable v
  | AddJoin => addJoin tables
  | RemoveJoin idx => removeJoin idx
  | SetJoinTable idx v => setJoinTable idx v
  | SetJoinLeftCol idx v => setJoinLeftCol idx v
  | SetJoinRightCol idx v => setJoinRightCol idx v
  | AddFilter => addFilter tables
  | RemoveFilter idx => removeFilter idx
  | SetFilterColumn idx v => setFilterColumn idx v
  | SetFilterOperator idx v => setFilterOperator idx v
  | SetFilterValue idx v => setFilterValue idx v
  end.

(** A sequence of actions, each with the tables of the page at its time.
    An error thrown by an event handler reaches the console and leaves
    the state as it was. *)
Definition act (vb : VB) (e : list TableState * action) : VB :=
  fst (handler (fst e) (snd e) vb).

Definition acts (es : list (list TableState * action)) (vb : VB) : VB :=
  fold_left act es vb.

(** The elements of the two arrays are distinct objects of the stores. *)
Definition distinctObjects (vb : VB) : Prop :=
  NoDup (vbJoins vb) /\ NoDup (vbFilters vb) /\
  Forall (fun l => is_Some (joinObjects vb !! l)) (vbJoins vb) /\
  Forall (fun l => is_Some (filterObjects vb !! l)) (vbFilters vb).

(** *** Rendering the selects of the builder *)

(** [tables.find(t => t.name === n)?.columns.map(c => f(c.name))]: the
    options of a column select. Nothing is rendered for a table that is
    not found; [.map] is read from the [columns] of a table that is. *)
Definition columnOptions (tables : list TableState) (n : string)
    (f : string -> string) : M unit (list string) :=
  match findTable tables n with
  | None => ret []
  | Some t =>
      match columns t with
      | Some cols => ret (map (fun c => f (cname c)) cols)
      | None => throw "Cannot read properties of undefined (reading 'map')"
      end
  end.

(** The selects of one join: the tables, the columns of the base table
    and the columns of the joined table. *)
Definition joinSelects (tables : list TableState) (vbBaseTable : string)
    (join : Join) : M unit (list string * list string * list string) :=
  let tableOptions := map name tables in
  let* leftOptions := columnOptions tables vbBaseTable id in
  let* rightOptions := columnOptions tables (jtable join) id in
  ret (tableOptions, leftOptions, rightOptions).

(** The column select of one filter: the columns of the base table, then
    those of each joined table, qualified. *)
Definition filterSelect (tables : list TableState) (vbBaseTable : string)
    (joins : list Join) : M unit (list string) :=
  let* base := columnOptions tables vbBaseTable id in
  let* joined :=
    mapM (fun j => columnOptions tables (jtable j)
                     (fun c => jtable j +:+ "." +:+ c)) joins in
  ret (base ++ concat joined)%list.

(** The builder's part of the SQL tab: one group of selects per join and
    one column select per filter. *)
Definition renderBuilder (tables : list TableState) (vb : VB)
    : res (list (list string * list string * list string)
           * list (list string)) :=
  snd ((let* js := mapM (joinSelects tables (vbBaseTable vb)) (joinsOf vb) in
        let* fs := mapM (fun _ : Filter =>
                           filterSelect tables (vbBaseTable vb) (joinsOf vb))
                     (filtersOf vb) in
        ret (js, fs)) tt).

End Controls.

(** ** The grid of the Data Explorer ([src/App.tsx], the tables tab) *)

Module Grid.

Import Client.

(** [tables.find(t => t.name === selectedTableName)]. *)
Definition activeTable (st : AppState) : option TableState :=
  List.find (fun t => bool_decide (Some (name t) = selectedTableName st))
    (tables st).

(** [activeTable?.columns || []]. *)
Definition columns (st : AppState) : list ColumnDefinition :=
  match activeTable st with
  | Some t => default [] (Client.columns t)
  | None => []
  end.

(** The cells of one row, [columns.map(col => row[col.name])]: reading a
    property of [undefined] throws. *)
Definition rowCells (cols : list ColumnDefinition) (row : slot)
    : M heap (list jsval) :=
  mapM (fun col =>
          match row with
          | Row l => readProp l (cname col)
          | Hole | Undef =>
              throw ("Cannot read properties of undefined (reading '"
                     +:+ cname col +:+ "')")
          end) cols.

(** [activeTable?.data.map((row, idx) => ...)]: [map] skips the empty
    slots. *)
Definition renderRows (st : AppState) : M heap (list (option (list jsval))) :=
  match activeTable st with
  | Some t =>
      mapM (fun row =>
              match row with
              | Hole => ret None
              | Undef | Row _ =>
                  let* cells := rowCells (columns st) row in ret (Some cells)
              end) (data t)
  | None => ret []
  end.

(** The text inputs of a rendered grid, each with the row index and the
    key its change handler passes to [updateCell]: one per column in each
    row that [map] visited. *)
Definition inputs (st : AppState) (h : heap) : list (nat * string) :=
  match renderRows st h with
  | (_, Ok rows) =>
      concat (imap (fun idx row =>
                      match row with
                      | Some _ => map (fun col => (idx, cname col)) (columns st)
                      | None => []
                      end) rows)
  | (_, Throw _) | (_, Unmodelled) => []
  end.

(** The type selects of the header, each with the column name its change
    handler passes to [updateColumnType]. *)
Definition typeSelects (st : AppState) : list string :=
  map cname (columns st).

End Grid.

(** ** The result set of the SQL tab ([src/App.tsx]) *)

Module Panel.

Import Client.

(** What the result area shows: the error, the table of the result, or
    one of the two messages. A cell is given by the value it shows. *)
Inductive view :=
| ErrorView (msg : string)
| TableView (headers : list string) (rows : list (list jsval))
| MessageView (text : string).

(** [typeof v === 'object' && v !== null]. *)
Definition isObject (v : jsval) : bool :=
  match v with JArr _ | JObj _ => true | _ => false end.

(** [Object.keys(v)] and [Object.values(v)] for such a value; the keys of
    an array are its indices. *)
Definition objectKeys (v : jsval) : list string :=
  match v with
  | JObj o => keys o
  | JArr items => map (fun i : nat => pretty i) (seq 0 (length items))
  | _ => []
  end.
Definition objectValues (v : jsval) : list jsval :=
  match v with
  | JObj o => map snd o
  | JArr items => items
  | _ => []
  end.

(** The header row: the keys of the first row, or the one header
    [Result]. *)
Definition headers (first : jsval) : list string :=
  if isObject first then objectKeys first else ["Result"].

(** The cells of a row. *)
Definition cells (row : jsval) : list jsval :=
  if isObject row then objectValues row else [row].

(** The conditional of the result area: [queryError ? ... : queryResult &&
    queryResult.length > 0 ? ... : ...]. An empty message is falsy. *)
Definition withoutError (st : AppState) : view :=
  match queryResult st with
  | Some (first :: rest) =>
      TableView (headers first) (map cells (first :: rest))
  | Some [] => MessageView "No results found"
  | None => MessageView "No results to display"
  end.

Definition resultView (st : AppState) : view :=
  match queryError st with
  | Some msg =>
      if negb (String.eqb msg "") then ErrorView msg else withoutError st
  | None => withoutError st
  end.

End Panel.

(** ** The page as the user drives it ([src/App.tsx]) *)

Module Explorer.

Import Client World.

(** Every element of the data of a table is a row object: the array has
    no empty slot and no [undefined]. *)
Definition dense (t : TableState) : Prop :=
  Forall (fun s => exists l, s = Row l) (data t).

Section WithEnvironment.
Context (rt : Runtime) (eng : Engine)
  (fallback : string -> string -> Server.response).

(** The click handler of a table of the sidebar. *)
Definition selectTable (n : string) (w : World eng) : World eng :=
  let st := app w in
  {| app := {| tables := tables st; loading := loading st;
               selectedTableName := Some n;
               query := query st; queryResult := queryResult st;
               queryError := queryError st |};
     objects := objects w; db := db w; backend := backend w;
     phase := phase w |}.

(** The operations the page offers in a state: the change handler of a
    text input of the grid, with the text typed; Add Row, for the selected
    table (with no table selected, [addRow(null)] matches no table and
    changes nothing); the change handler of a type select of the header,
    with one of its three options; and what does not depend on the grid.
    The grid is there when the page is not loading and shows the tables
    tab: the relation offers it in every state. *)
Inductive offered (w : World eng) : op -> Prop :=
| offered_edit n idx key text :
    selectedTableName (app w) = Some n ->
    (idx, key) ∈ Grid.inputs (app w) (objects w) ->
    offered w (EditCell n idx key (JStr text))
| offered_add now n :
    selectedTableName (app w) = Some n ->
    offered w (AddRow now n)
| offered_type n col ty :
    selectedTableName (app w) = Some n ->
    col ∈ Grid.typeSelects (app w) ->
    ty ∈ [TString; TNumber; TBoolean] ->
    offered w (ChangeColumnType n col ty)
| offered_mount : offered w Mount
| offered_query q : offered w (TypeQuery q)
| offered_run : offered w ExecuteQuery
| offered_reset : offered w ResetToDefault.

(** The states the page reaches through what it offers. *)
Inductive reachable : World eng -> Prop :=
| reachable_initial d : reachable (initial eng d)
| reachable_step w o :
    reachable w -> offered w o -> reachable (step rt eng fallback w o)
| reachable_select w t :
    reachable w -> t ∈ tables (app w) -> reachable (selectTable (name t) w).

(** What the page keeps through what it offers: the backend has the mock
    data, the table names are distinct, the rows are in the store and
    every table is dense, and no updater has thrown. *)
Definition explored (w : World eng) : Prop :=
  backend w = Server.mockData /\
  NoDup (map name (tables (app w))) /\
  Forall (allocated (objects w)) (tables (app w)) /\
  Forall dense (tables (app w)) /\
  (phase w = Live \/ phase w = OutOfModel).

End WithEnvironment.

Arguments explored {eng} w.

End Explorer.

(** ** A runtime and an engine to run the model on

    The theorems below hold for every [Runtime] and every [Engine]. The
    examples need one of each to compute with. *)

Module Ref.

Import Client.

(** *** The runtime

    [StringToNumber] follows the StringNumericLiteral grammar of
    ECMAScript on byte strings (white space is the ASCII white space). The
    value is the correctly rounded one when the digits denote an integer
    below 2^53 and the power of ten is at most 10^22. *)

Definition code (a : ascii) : nat := nat_of_ascii a.

Definition isSpace (a : ascii) : bool :=
  bool_decide (code a ∈ [9; 10; 11; 12; 13; 32]).

Definition digitOf (base : nat) (a : ascii) : option Z :=
  let n := code a in
  let d :=
    if bool_decide (48 ≤ n ≤ 57)%nat then Some (n - 48)%nat
    else if bool_decide (97 ≤ n ≤ 122)%nat then Some (n - 87)%nat
    else if bool_decide (65 ≤ n ≤ 90)%nat then Some (n - 55)%nat
    else None in
  match d with
  | Some d => if bool_decide (d < base)%nat then Some (Z.of_nat d) else None
  | None => None
  end.

Definition isDigit (a : ascii) : bool := bool_decide (is_Some (digitOf 10 a)).

Fixpoint span {A} (p : A -> bool) (l : list A) : list A * list A :=
  match l with
  | a :: l' =>
      if p a then let '(yes, rest) := span p l' in (a :: yes, rest)
      else ([], l)
  | [] => ([], [])
  end.

Definition trim (l : list ascii) : list ascii :=
  let front := snd (span isSpace l) in
  reverse (snd (span isSpace (reverse front))).

(** The integer a digit string denotes in [base]; [None] for the empty
    string and for a string with another character. *)
Definition natural (base : nat) (l : list ascii) : option Z :=
  match l with
  | [] => None
  | _ =>
      foldl (fun acc a =>
               match acc, digitOf base a with
               | Some n, Some d => Some (n * Z.of_nat base + d)%Z
               | _, _ => None
               end) (Some 0%Z) l
  end.

Definition ofZ (z : Z) : float := SF2Prim (binary_normalize prec emax z 0 false).

Definition pow10 (n : nat) : float :=
  Nat.iter n (fun x => x * ofZ 10)%float PrimFloat.one.

Definition scale (m e10 : Z) : float :=
  if bool_decide (m = 0%Z) then PrimFloat.zero
  else if bool_decide (0 ≤ e10)%Z then (ofZ m * pow10 (Z.to_nat e10))%float
  else (ofZ m / pow10 (Z.to_nat (- e10)))%float.

Definition signed {A} (l : list ascii) (k : bool -> list ascii -> A) : A :=
  match l with
  | a :: l' =>
      if Ascii.eqb a "-" then k true l'
      else if Ascii.eqb a "+" then k false l'
      else k false l
  | [] => k false l
  end.

(** The exponent part: nothing, or [e] or [E], a sign and digits. *)
Definition exponent (l : list ascii) : option Z :=
  match l with
  | [] => Some 0%Z
  | a :: l' =>
      if Ascii.eqb a "e" || Ascii.eqb a "E" then
        signed l' (fun neg ds =>
          (fun n : Z => if neg then (- n)%Z else n) <$> natural 10 ds)
      else None
  end.

(** An unsigned decimal literal. *)
Definition decimal (l : list ascii) : option float :=
  let '(ip, r1) := span isDigit l in
  let '(fp, r2, shaped) :=
    match r1 with
    | a :: r =>
        if Ascii.eqb a "." then
          let '(fp, r2) := span isDigit r in
          (fp, r2, negb (bool_decide (ip = []) && bool_decide (fp = [])))
        else ([], r1, negb (bool_decide (ip = [])))
    | [] => ([], r1, negb (bool_decide (ip = [])))
    end in
  if shaped then
    e ← exponent r2;
    m ← natural 10 (ip ++ fp);
    Some (scale m (e - Z.of_nat (length fp)))
  else None.

Definition radixLiteral (l : list ascii) : option float :=
  match l with
  | z :: x :: ds =>
      if Ascii.eqb z "0" then
        let base :=
          if Ascii.eqb x "x" || Ascii.eqb x "X" then Some 16
          else if Ascii.eqb x "o" || Ascii.eqb x "O" then Some 8
          else if Ascii.eqb x "b" || Ascii.eqb x "B" then Some 2
          else None in
        b ← base; ofZ <$> natural b ds
      else None
  | _ => None
  end.

Definition refStringToNumber (s : string) : float :=
  let l := trim (list_ascii_of_string s) in
  match l with
  | [] => PrimFloat.zero
  | _ =>
      match radixLiteral l with
      | Some n => n
      | None =>
          signed l (fun neg body =>
            let magnitude :=
              if String.eqb (string_of_list_ascii body) "Infinity"
              then Some PrimFloat.infinity else decimal body in
            match magnitude with
            | Some n => if neg then (- n)%float else n
            | None => PrimFloat.nan
            end)
      end
  end.

(** [String(n)] for [NaN], the infinities, the zeros and the integers
    below 2^53, which print as their decimal digits. ECMAScript prints
    every other number with its shortest round-trip digits; here it
    prints as a question mark. The modelled code only compares the
    lowercased text with [true], which no number prints as. *)
Definition refNumberToString (n : float) : string :=
  if PrimFloat.is_nan n then "NaN"
  else if PrimFloat.eqb n PrimFloat.infinity then "Infinity"
  else if PrimFloat.eqb n PrimFloat.neg_infinity then "-Infinity"
  else
    match Prim2SF n with
    | S754_zero _ => "0"
    | S754_finite neg m e =>
        let whole :=
          if bool_decide (0 ≤ e)%Z then Some (Z.pos m * 2 ^ e)%Z
          else if bool_decide (Z.pos m `mod` 2 ^ (- e) = 0)%Z
               then Some (Z.pos m `div` 2 ^ (- e))%Z
               else None in
        match whole with
        | Some z =>
            if bool_decide (z < 2 ^ 53)%Z
            then (if neg then "-" else "") +:+ pretty z
            else "?"
        | None => "?"
        end
    | _ => "?"
    end.

(** [String(v)] for every value: an array prints its elements separated
    by commas, [undefined] and [null] among them as nothing. *)
Fixpoint refToString (v : jsval) : string :=
  match v with
  | JUndefined => "undefined"
  | JNull => "null"
  | JBool true => "true"
  | JBool false => "false"
  | JNum n => refNumberToString n
  | JStr s => s
  | JArr items =>
      String.concat ","
        (map (fun item =>
                match item with
                | JUndefined | JNull => ""
                | _ => refToString item
                end) items)
  | JObj _ => "[object Object]"
  | JFun f => "function " +:+ f +:+ "() { [native code] }"
  end.

(** ASCII letters to lower case; other bytes stay. *)
Definition lowerAscii (a : ascii) : ascii :=
  if bool_decide (65 ≤ code a ≤ 90)%nat then ascii_of_nat (code a + 32) else a.

Definition refToLowerCase (s : string) : string :=
  string_of_list_ascii (map lowerAscii (list_ascii_of_string s)).

Definition refRuntime : Runtime :=
  {| StringToNumber := refStringToNumber;
     NumberToString := refNumberToString;
     ObjectToNumber := fun v => refStringToNumber (refToString v);
     ObjectToString := refToString;
     toLowerCase := refToLowerCase |}.

(** *** The engine

    A stand-in for the SQL package with three statements: dropping a
    table, creating one, and selecting all the rows of one. Any other
    statement is a parse error. *)

Definition isWord (s : string) : bool :=
  negb (String.eqb s "") &&
  forallb (fun a => bool_decide (is_Some (digitOf 36 a)) || Ascii.eqb a "_")
    (list_ascii_of_string s).

(** [Some rest] when [s] is [p] followed by [rest]. *)
Definition after (p s : string) : option string :=
  if String.prefix p s
  then Some (String.substring (String.length p)
               (String.length s - String.length p) s)
  else None.

Abbreviation miniDB := (list (string * list (option obj))).

Fixpoint lookupTable (n : string) (d : miniDB) : option (list (option obj)) :=
  match d with
  | [] => None
  | (n', rows) :: d' => if String.eqb n' n then Some rows else lookupTable n d'
  end.

Definition dropTable (n : string) (d : miniDB) : miniDB :=
  filter (fun e => fst e ≠ n) d.

Definition miniAlasql (sql : string) : M miniDB jsval :=
  fun d =>
    match after "DROP TABLE IF EXISTS " sql,
          after "CREATE TABLE " sql,
          after "SELECT * FROM " sql with
    | Some n, _, _ =>
        if isWord n
        then (dropTable n d,
              Ok (JNum (if bool_decide (is_Some (lookupTable n d))
                        then PrimFloat.one else PrimFloat.zero)))
        else (d, Throw ("Parse error: " +:+ sql))
    | None, Some n, _ =>
        if isWord n then
          match lookupTable n d with
          | Some _ => (d, Throw ("Table already exists: " +:+ n))
          | None => ((d ++ [(n, [])])%list, Ok (JNum PrimFloat.one))
          end
        else (d, Throw ("Parse error: " +:+ sql))
    | None, None, Some n =>
        if isWord n then
          match lookupTable n d with
          | Some rows => (d, Ok (JArr (JObj <$> omap id rows)))
          | None => (d, Throw ("Table does not exist: " +:+ n))
          end
        else (d, Throw ("Parse error: " +:+ sql))
    | None, None, None => (d, Throw ("Parse error: " +:+ sql))
    end.

Definition miniSetData (n : string) (rows : list (option obj)) : M miniDB unit :=
  fun d =>
    match lookupTable n d with
    | Some _ =>
        (map (fun e => if String.eqb (fst e) n then (fst e, rows) else e) d,
         Ok tt)
    | None => (d, Throw "Cannot set properties of undefined (setting 'data')")
    end.

Definition miniSql : Engine :=
  {| DB := miniDB; alasql := miniAlasql; setData := miniSetData |}.

(** An engine that only records the statements it is given, to read
    what [runQuery] sends. *)
Definition recorder : Engine :=
  {| DB := list string;
     alasql := fun sql d => ((d ++ [sql])%list, Ok JUndefined);
     setData := fun _ _ => ret tt |}.

(** *** A small page state

    Two tables over three row objects: the roles of the backend, and a
    table of hand-typed cells. *)

Definition sampleStore : heap :=
  <[ 3%positive := [("on", JStr "TRUE"); ("n", JStr "12px"); ("note", JNull);
                    ("size", JStr "42")] ]>
  (<[ 2%positive := [("id", JNum 2); ("role_name", JStr "User");
                     ("permissions", JStr "read-only")] ]>
  (<[ 1%positive := [("id", JNum 1); ("role_name", JStr "Admin");
                     ("permissions", JStr "all")] ]> ∅)).

Definition sampleRoles : TableState :=
  {| name := "roles"; data := [Row 1; Row 2];
     columns := Some [ {| cname := "id"; ctype := TNumber |};
                       {| cname := "role_name"; ctype := TString |};
                       {| cname := "permissions"; ctype := TString |} ] |}.

Definition sampleFlags : TableState :=
  {| name := "flags"; data := [Row 3];
     columns := Some [ {| cname := "on"; ctype := TBoolean |};
                       {| cname := "n"; ctype := TNumber |};
                       {| cname := "note"; ctype := TNumber |};
                       {| cname := "size"; ctype := TNumber |} ] |}.

Definition sampleTables : list TableState := [sampleRoles; sampleFlags].

(** A table whose first row has a property named [__proto__], as
    [JSON.parse] makes one, and whose second row has none; the columns
    are the keys of the first row, both set to the type number. *)
Definition protoStore : heap :=
  <[ 2%positive := [("id", JNum 2)] ]>
  (<[ 1%positive := [("__proto__", JStr "5"); ("id", JNum 1)] ]> ∅).

Definition sampleProto : TableState :=
  {| name := "protos"; data := [Row 1; Row 2];
     columns := Some [ {| cname := "__proto__"; ctype := TNumber |};
                       {| cname := "id"; ctype := TNumber |} ] |}.

(** The page over these tables, with a query to run. *)
Definition sampleState (q : string) : AppState :=
  {| tables := sampleTables; loading := false;
     selectedTableName := Some "roles"; query := q;
     queryResult := None; queryError := Some "stale" |}.

(** What selecting the roles returns. *)
Definition sampleRolesResult : list jsval :=
  [ JObj [("id", JNum 1%float); ("role_name", JStr "Admin");
          ("permissions", JStr "all")];
    JObj [("id", JNum 2%float); ("role_name", JStr "User");
          ("permissions", JStr "read-only")] ].

(** The other pages of the server, for a closed run. *)
Definition noPage (method path : string) : Server.response :=
  {| Server.status := 404; Server.body := None |}.

(** The roles as Reset to Default leaves a table: without columns. *)
Definition bareRoles : TableState :=
  {| name := "roles"; data := [Row 1; Row 2]; columns := None |}.

Definition bareState : AppState :=
  {| tables := [bareRoles]; loading := false;
     selectedTableName := Some "roles"; query := "SELECT * FROM roles";
     queryResult := None; queryError := None |}.

(** A builder on the roles, before and after one join and one filter
    were added. *)
Definition rolesBuilder : Controls.VB :=
  Controls.acts [ (sampleTables, Controls.SelectBaseTable "roles") ]
    Controls.initialVB.

Definition sampleBuilder : Controls.VB :=
  Controls.acts [ (sampleTables, Controls.AddJoin);
                  (sampleTables, Controls.AddFilter) ] rolesBuilder.

End Ref.

(** ** The query text as the specification describes it *)

Module Described.

Import Builder.

Section WithRuntime.
Context (rt : Runtime).

(** One [JOIN t ON B.leftCol = t.rightCol] clause. *)
Definition joinClause (B : string) (j : Join) : string :=
  " JOIN " +:+ jtable j +:+ " ON " +:+ B +:+ "." +:+ leftCol j
    +:+ " = " +:+ jtable j +:+ "." +:+ rightCol j.

(** The column, prefixed with [B.] unless its name contains a dot. *)
Definition qualified (B : string) (col : string) : string :=
  if includes "." col then col else B +:+ "." +:+ col.

(** The value, bare if [Number(value)] is not [NaN], quoted otherwise. *)
Definition rendered (v : string) : string :=
  if negb (isNaN (Number rt (JStr v))) then v else "'" +:+ v +:+ "'".

Definition filterClause (B : string) (f : Filter) : string :=
  qualified B (column f) +:+ " " +:+ operator f +:+ " " +:+ rendered (value f).

(** [SELECT * FROM B], the join clauses in order, and the filter clauses
    joined with [AND] after [WHERE] when there is a filter. *)
Definition queryText (B : string) (J : list Join) (F : list Filter) : string :=
  "SELECT * FROM " +:+ B
    +:+ String.concat "" (map (joinClause B) J)
    +:+ match F with
        | [] => ""
        | _ :: _ => " WHERE " +:+ String.concat " AND " (map (filterClause B) F)
        end.

End WithRuntime.

(** ** The cast as the specification describes it *)

Section CastDescribed.
Import Client.
Context (rt : Runtime).

(** A number column gets [Number(value)], or 0 when that is [NaN]; a
    boolean column gets whether the lowercased text of the value is
    [true]; [undefined], [null] and the empty string stay, and so does
    every cell of a column of another type. *)
Definition castValue (ty : ColumnType) (val : jsval) : jsval :=
  match val with
  | JUndefined | JNull | JStr "" => val
  | _ =>
      match ty with
      | TNumber =>
          JNum (if isNaN (Number rt val) then PrimFloat.zero else Number rt val)
      | TBoolean => JBool (String.eqb (toLowerCase rt (String rt val)) "true")
      | TString | TDate => val
      end
  end.

(** A row with the properties [before] is cast to one with the properties
    [after]. The cell of a declared column reads after the cast as the
    cast of what it read before, unless the column is named [__proto__]
    and the row has no property of that name. A cell the row owns stays
    its own property, with the cast value. A cell the row does not own
    stays absent when the column is named [__proto__] or the cast leaves
    the value read as it is. The cast keeps every other property, and
    the keys of the row, in their order, come first among the keys of
    the cast row. *)
Definition castRowOf (cols : list ColumnDefinition) (before after : obj) : Prop :=
  (forall col, col ∈ cols ->
     (own before (cname col) = None -> cname col ≠ "__proto__") ->
     getProp after (cname col)
     = castValue (ctype col) (getProp before (cname col))) /\
  (forall col v, col ∈ cols -> own before (cname col) = Some v ->
     own after (cname col) = Some (castValue (ctype col) v)) /\
  (forall col, col ∈ cols -> own before (cname col) = None ->
     cname col = "__proto__" \/
     castValue (ctype col) (getProp before (cname col))
     = getProp before (cname col) ->
     own after (cname col) = None) /\
  (forall k, k ∉ map cname cols -> own after k = own before k) /\
  keys before `prefix_of` keys after.

(** The element [r] of the array handed to the engine, for the element
    [row] of [t.data] in the store [h]: an empty slot stays empty,
    [undefined] gives the cast of an object without properties, and a
    row object gives the cast of its properties. *)
Definition castSlot (cols : list ColumnDefinition) (h : heap)
    (row : slot) (r : option obj) : Prop :=
  match row with
  | Hole => r = None
  | Undef => exists after, r = Some after /\ castRowOf cols [] after
  | Row l =>
      exists before after,
        h !! l = Some before /\ r = Some after /\ castRowOf cols before after
  end.

End CastDescribed.
End Described.

(** * Properties *)

(** ** Strings *)

Lemma append_empty_l (a : string) : "" +:+ a = a.
Proof. reflexivity. Qed.

Lemma append_cons (x : ascii) (a b : string) :
  String.String x a +:+ b = String.String x (a +:+ b).
Proof. reflexivity. Qed.

Lemma append_assoc (a b c : string) : (a +:+ b) +:+ c = a +:+ (b +:+ c).
Proof.
  induction a as [|x a IH]; [reflexivity |].
  rewrite !append_cons. by f_equal.
Qed.

Lemma append_empty_r (a : string) : a +:+ "" = a.
Proof.
  induction a as [|x a IH]; [reflexivity |].
  rewrite append_cons. by f_equal.
Qed.

Lemma concat_empty_cons (x : string) (l : list string) :
  String.concat "" (x :: l) = x +:+ String.concat "" l.
Proof. destruct l; cbn [String.concat]; [by rewrite append_empty_r | done]. Qed.

(** Appending piece after piece to an accumulator appends the pieces'
    concatenation. *)
Lemma fold_left_append {A} (f : A -> string) (l : list A) (acc : string) :
  fold_left (fun acc x => acc +:+ f x) l acc
  = acc +:+ String.concat "" (map f l).
Proof.
  revert acc. induction l as [|x l IH]; intros acc.
  - simpl. by rewrite append_empty_r.
  - cbn [fold_left map]. rewrite IH, concat_empty_cons. apply append_assoc.
Qed.

(** ** The visual builder *)

Section BuilderFacts.
Import Builder.
Context (rt : Runtime).

Lemma filterString_described (B : string) (f : Filter) :
  filterString rt B f = Described.filterClause rt B f.
Proof.
  unfold filterString, Described.filterClause, Described.qualified,
    Described.rendered.
  destruct (includes "." (column f)), (isNaN _); cbn [negb];
    rewrite ?append_empty_l, ?append_assoc; reflexivity.
Qed.

(** C1. For every base table [B], join list [J] and filter list [F], the
    generated query is [SELECT * FROM B], then one
    [JOIN t ON B.leftCol = t.rightCol] clause per join in order, then, when
    [F] is not empty, [WHERE] and the filter clauses joined with [AND];
    a filter clause prefixes the column with [B.] unless the column name
    contains a dot, and writes the value bare when [Number(value)] is not
    [NaN] and in single quotes otherwise. *)
Theorem generateQuery_described (B : string) (J : list Join) (F : list Filter) :
  generateQuery rt B J F = Described.queryText rt B J F.
Proof.
  unfold generateQuery, Described.queryText.
  rewrite (fold_left_append (joinText B)).
  change (joinText B) with (Described.joinClause B).
  rewrite (map_ext _ _ (filterString_described B)).
  destruct F as [|f F]; cbn [length Nat.ltb Nat.leb].
  - by rewrite append_empty_r, append_assoc.
  - by rewrite !append_assoc.
Qed.

End BuilderFacts.

(** The text built for a join and three filters. *)
Example generateQuery_orders :
  Builder.generateQuery Ref.refRuntime "orders"
    [ {| Builder.jtable := "users"; Builder.leftCol := "user_id";
         Builder.rightCol := "id" |} ]
    [ {| Builder.column := "product"; Builder.operator := "=";
         Builder.value := "Laptop" |};
      {| Builder.column := "users.id"; Builder.operator := ">";
         Builder.value := "1" |};
      {| Builder.column := "amount"; Builder.operator := "<";
         Builder.value := "1e3" |} ]
  = "SELECT * FROM orders JOIN users ON orders.user_id = users.id"
    +:+ " WHERE orders.product = 'Laptop' AND users.id > 1"
    +:+ " AND orders.amount < 1e3".
Proof. vm_compute. reflexivity. Qed.

(** ** The mock backend *)

Section ServerFacts.
Import Server.
Context (fallback : string -> string -> response).

(** No handler writes the store. *)
Lemma handle_store (req : request) (store : obj) :
  snd (handle fallback req store) = store.
Proof.
  destruct req as [|name|m p]; cbn; [done | | done].
  unfold tableHandler, hbind, gets, json, status_json, hret.
  by destruct (truthy _).
Qed.

Lemma serve_store (reqs : list request) (store : obj) :
  snd (serve fallback reqs store) = store.
Proof.
  revert store. induction reqs as [|req reqs IH]; intros store; [done |].
  cbn [serve]. pose proof (handle_store req store) as Hh.
  destruct (handle fallback req store) as [resp store1]. cbn in Hh. subst store1.
  specialize (IH store). by destruct (serve fallback reqs store).
Qed.

(** Each response is the handler's answer on the initial store. *)
Lemma serve_responses (reqs : list request) (store : obj) :
  fst (serve fallback reqs store)
  = map (fun req => fst (handle fallback req store)) reqs.
Proof.
  revert store. induction reqs as [|req reqs IH]; intros store; [done |].
  cbn [serve map]. pose proof (handle_store req store) as Hh.
  destruct (handle fallback req store) as [resp store1]. cbn in Hh. subst store1.
  specialize (IH store). destruct (serve fallback reqs store) as [resps ?].
  cbn in *. by rewrite IH.
Qed.

(** An array of strings reads back as it is. *)
Lemma stringify_strings (ks : list string) :
  stringify (JArr (map JStr ks)) = Some (JArr (map JStr ks)).
Proof.
  cbn [stringify]. do 2 f_equal.
  induction ks as [|k ks IH]; [done |]. cbn. by f_equal.
Qed.

(** What is lost between [res.json] and the value the page parses. *)
Example stringify_reads_back :
  stringify
    (JArr [ JObj [ ("a", JNum PrimFloat.nan); ("b", JUndefined);
                   ("c", JNum PrimFloat.neg_zero); ("d", JStr "x") ];
            JFun "f"; JNum PrimFloat.infinity ])
  = Some (JArr [ JObj [ ("a", JNull); ("c", JNum PrimFloat.zero);
                        ("d", JStr "x") ];
                 JNull; JNull ]).
Proof. vm_compute. reflexivity. Qed.

(** GET /api/tables answers with the keys of the store, in order. *)
Lemma tables_route (store : obj) :
  fst (handle fallback GetTables store)
  = {| status := 200; body := Some (JArr (map JStr (keys store))) |}.
Proof. by rewrite <- stringify_strings. Qed.

(** GET /api/table/:name for a key of the store whose value is an array
    answers with that array, as JSON writes it. *)
Lemma table_route_key (store : obj) (name : string) (rows : list jsval) :
  own store name = Some (JArr rows) ->
  fst (handle fallback (GetTable name) store)
  = {| status := 200; body := stringify (JArr rows) |}.
Proof.
  intros Hown. cbn. unfold tableHandler, hbind, gets, getProp.
  by rewrite Hown.
Qed.

(** GET /api/table/:name for a name that is neither a key of the store
    nor a property of [Object.prototype] answers 404. *)
Lemma table_route_unknown (store : obj) (name : string) :
  own store name = None -> own ObjectPrototype name = None ->
  fst (handle fallback (GetTable name) store)
  = {| status := 404;
       body := Some (JObj [("error", JStr "Table not found")]) |}.
Proof.
  intros Hown Hproto. cbn. unfold tableHandler, hbind, gets, getProp.
  by rewrite Hown, Hproto.
Qed.

(** C3, at the name [constructor]: it is not a key of the mock data, and
    the response is not the 404 the claim states: the handler reads the
    inherited property, finds it truthy and sends it with status 200;
    a function has no JSON text, so the body is empty. *)
Theorem table_route_inherited_name :
  own mockData "constructor" = None /\
  fst (handle fallback (GetTable "constructor") mockData)
  = {| status := 200; body := None |}.
Proof. split; reflexivity. Qed.

(** The same for every property of [Object.prototype] that is not a key
    of the store: the status is 200. *)
Lemma table_route_inherited (store : obj) (name : string) (v : jsval) :
  own store name = None -> own ObjectPrototype name = Some v ->
  status (fst (handle fallback (GetTable name) store)) = 200.
Proof.
  intros Hown Hproto. cbn. unfold tableHandler, hbind, gets, getProp.
  rewrite Hown, Hproto. cbn.
  assert (truthy v = true) as ->; [| done].
  unfold ObjectPrototype in Hproto. cbn in Hproto.
  repeat (case_match; simplify_eq; try done).
Qed.

(** C5. No handler changes the mock data: after any requests the store
    is the mock data, and a request then gets the response it gets from a
    server that has just started, for GET /api/tables, for
    GET /api/table/:name with any name, and for every other request. *)
Theorem responses_fixed (before : list request) (req : request) :
  snd (serve fallback before mockData) = mockData /\
  fst (handle fallback req (snd (serve fallback before mockData)))
  = fst (handle fallback req mockData) /\
  fst (serve fallback (before ++ [req])%list mockData)
  = (fst (serve fallback before mockData)
     ++ [fst (handle fallback req mockData)])%list.
Proof.
  rewrite serve_store. split; [done |]. split; [done |].
  rewrite !serve_responses. by rewrite map_app.
Qed.

(** C4, as stated, fails: the mock data holds three arrays, not four. *)
Lemma not_four_arrays :
  ~ (length (staticArrays mockData) = 4 /\
     forall production, length (restRoutes production) = 2).
Proof. intros [H _]. vm_compute in H. discriminate. Qed.

(** C4, amended. The mock backend consists of exactly three static arrays
    (users, roles, orders), every value of the store being one of them,
    served behind exactly two REST routes. *)
Theorem three_arrays_two_routes :
  keys mockData = ["users"; "roles"; "orders"] /\
  length (staticArrays mockData) = 3 /\
  staticArrays mockData = map snd mockData /\
  forall production,
    restRoutes production
    = [ {| rmethod := "GET"; rpath := "/api/tables" |};
        {| rmethod := "GET"; rpath := "/api/table/:name" |} ].
Proof.
  split; [reflexivity |]. split; [reflexivity |]. split; [reflexivity |].
  intros []; reflexivity.
Qed.

End ServerFacts.

(** ** Objects and the store *)

Section ClientFacts.
Import Client.

Lemma own_set_eq (o : obj) (k : string) (v : jsval) : own (set o k v) k = Some v.
Proof.
  induction o as [|[k' v'] o IH]; cbn.
  - by rewrite String.eqb_refl.
  - destruct (String.eqb_spec k' k) as [->|Hne]; cbn.
    + by rewrite String.eqb_refl.
    + destruct (String.eqb_spec k' k); [done | apply IH].
Qed.

Lemma own_set_ne (o : obj) (k k' : string) (v : jsval) :
  k ≠ k' -> own (set o k v) k' = own o k'.
Proof.
  intros Hne. induction o as [|[k0 v0] o IH]; cbn.
  - by destruct (String.eqb_spec k k').
  - destruct (String.eqb_spec k0 k) as [->|Hne0]; cbn.
    + by destruct (String.eqb_spec k k').
    + by rewrite IH.
Qed.

Lemma getProp_set_eq (o : obj) (k : string) (v : jsval) :
  getProp (set o k v) k = v.
Proof. unfold getProp. by rewrite own_set_eq. Qed.

Lemma alloc_spec (o : obj) (h : heap) :
  exists l, alloc o h = (<[l := o]> h, Ok l) /\ h !! l = None.
Proof.
  exists (fresh (dom h)). split; [done |].
  apply not_elem_of_dom, is_fresh.
Qed.

(** ** The store grows *)

Lemma allocated_mono (h h' : heap) (t : TableState) :
  h ⊆ h' -> allocated h t -> allocated h' t.
Proof.
  intros Hsub Hal l Hl. destruct (Hal l Hl) as [o Ho].
  exists o. by eapply lookup_weaken.
Qed.

Lemma props_mono (h h' : heap) (l : loc) :
  h ⊆ h' -> is_Some (h !! l) -> props h' l = props h l.
Proof.
  intros Hsub [o Ho]. unfold props.
  by rewrite Ho, (lookup_weaken _ _ _ _ Ho Hsub).
Qed.

Lemma readIdx_spread_Row (a : list slot) (i : nat) (l : loc) :
  readIdx (spreadArray a) i = Row l -> Row l ∈ a.
Proof.
  unfold readIdx, spreadArray. rewrite list_lookup_fmap.
  destruct (a !! i) as [s|] eqn:Hs; cbn; [| done].
  destruct s; try done. intros [= ->]. by eapply list_elem_of_lookup_2.
Qed.

Lemma spreadSlot_mono (h h' : heap) (t : TableState) (i : nat) :
  h ⊆ h' -> allocated h t ->
  spreadSlot h' (readIdx (spreadArray (data t)) i)
  = spreadSlot h (readIdx (spreadArray (data t)) i).
Proof.
  intros Hsub Hal.
  destruct (readIdx (spreadArray (data t)) i) as [| |l] eqn:Hr; cbn; try done.
  apply props_mono; [done |]. apply Hal. by eapply readIdx_spread_Row.
Qed.

Lemma rowAt_mono (h h' : heap) (t : TableState) (j : nat) :
  h ⊆ h' -> allocated h t -> rowAt h' t j = rowAt h t j.
Proof.
  intros Hsub Hal. unfold rowAt.
  destruct (data t !! j) as [[| |l]|] eqn:Hj; try done.
  destruct (Hal l) as [o Ho]; [by eapply list_elem_of_lookup_2 |].
  by rewrite Ho, (lookup_weaken _ _ _ _ Ho Hsub).
Qed.

Lemma Forall2_impl_Forall {A B} (P : A -> Prop) (R R' : A -> B -> Prop)
    (l : list A) (l' : list B) :
  Forall P l -> Forall2 R l l' ->
  (forall a b, P a -> R a b -> R' a b) -> Forall2 R' l l'.
Proof.
  intros HP HR Himp. induction HR as [|a b l l' Hab HR IH]; [constructor |].
  apply Forall_cons in HP as [Ha HP]. constructor; auto.
Qed.

(** ** updateCell *)

Lemma cellUpdated_earlier h h1 h' tableName rowIndex key value t t' :
  h ⊆ h1 -> allocated h t ->
  cellUpdated h1 h' tableName rowIndex key value t t' ->
  cellUpdated h h' tableName rowIndex key value t t'.
Proof.
  intros Hsub Hal (Hn & Hc & Hother & Hnamed).
  repeat split; try done.
  intros Hname. destruct (Hnamed Hname) as (l & Hfresh & Hl & Hd).
  exists l. split; [| split; [| done]].
  - destruct (h !! l) as [o|] eqn:Ho; [| done].
    by rewrite (lookup_weaken _ _ _ _ Ho Hsub) in Hfresh.
  - by rewrite <- (spreadSlot_mono h h1 t rowIndex Hsub Hal).
Qed.

Lemma writeIdx_inside (a : list slot) (i : nat) (s : slot) :
  i < length a -> writeIdx a i s = Some (<[i := s]> a).
Proof. intros Hi. unfold writeIdx. by apply Nat.ltb_lt in Hi as ->. Qed.

Lemma writeIdx_defined (a : list slot) (i : nat) (s : slot) :
  i < length a \/ isArrayIndex i = true -> is_Some (writeIdx a i s).
Proof.
  intros Hi. unfold writeIdx. destruct (Nat.ltb_spec i (length a)); [done |].
  destruct Hi as [Hi | ->]; [lia | done].
Qed.

Lemma updateCell_locations tableName rowIndex key value prev (h : heap) :
  Forall (allocated h) prev ->
  addressable tableName rowIndex prev ->
  exists h' next,
    updateCell tableName rowIndex key value prev h = (h', Ok next) /\
    h ⊆ h' /\
    Forall2 (cellUpdated h h' tableName rowIndex key value) prev next.
Proof.
  revert h. induction prev as [|t prev IH]; intros h Hal Hidx.
  - exists h, []. by repeat split.
  - apply Forall_cons in Hal as [Ht Hprev].
    assert (addressable tableName rowIndex prev) as Hidx'.
    { intros t0 Ht0. apply Hidx. by right. }
    unfold updateCell. cbn [mapM]. unfold bind at 1, cellUpdater at 1.
    destruct (String.eqb_spec (name t) tableName) as [Hname|Hname].
    + unfold bind at 1.
      destruct (alloc_spec
        (set (spreadSlot h (readIdx (spreadArray (data t)) rowIndex)) key value) h)
        as (l & -> & Hfresh).
      set (o := set _ key value). set (h1 := <[l := o]> h).
      assert (h ⊆ h1) as Hsub by by apply insert_subseteq.
      destruct (IH h1) as (h' & next & Hrun & Hsub' & Hall); [| done |].
      { eapply Forall_impl; [exact Hprev |]. intros t0. by apply allocated_mono. }
      destruct (writeIdx_defined (spreadArray (data t)) rowIndex (Row l))
        as [newData Hw].
      { unfold spreadArray. rewrite length_map. apply Hidx; [by left | done]. }
      rewrite Hw.
      unfold updateCell in Hrun. unfold ret at 1. unfold bind at 1. rewrite Hrun.
      exists h', (with_data t newData :: next).
      split; [done |]. split; [by etrans |].
      constructor.
      * repeat split; try done. intros _. exists l. repeat split; try done.
        eapply lookup_weaken; [| exact Hsub']. apply lookup_insert_eq.
      * eapply Forall2_impl_Forall; [exact Hprev | exact Hall |].
        intros t0 t0' Ht0. by apply cellUpdated_earlier.
    + destruct (IH h Hprev Hidx') as (h' & next & Hrun & Hsub' & Hall).
      unfold updateCell in Hrun. unfold ret at 1. unfold bind at 1. rewrite Hrun.
      exists h', (t :: next). split; [done |]. split; [done |].
      constructor; [| done].
      repeat split; done.
Qed.

(** C6, amended. For every table name, key and value, and every row
    index that addresses an existing row of the named table, [updateCell]
    replaces only the value at that (table, row, key) cell: every other
    table, every other row of the named table, every other key of the
    addressed row and all column definitions are unchanged, no table's
    row count changes, and no existing row object is written. *)
Theorem updateCell_frame tableName rowIndex key value prev (h : heap) :
  Forall (allocated h) prev ->
  (forall t, t ∈ prev -> name t = tableName -> rowIndex < length (data t)) ->
  exists h' next,
    updateCell tableName rowIndex key value prev h = (h', Ok next) /\
    h ⊆ h' /\
    Forall2 (fun t t' =>
      name t' = name t /\ columns t' = columns t /\
      length (data t') = length (data t) /\
      (name t ≠ tableName -> t' = t /\ forall j, rowAt h' t' j = rowAt h t j) /\
      (name t = tableName ->
         (forall j, j ≠ rowIndex -> rowAt h' t' j = rowAt h t j) /\
         exists o', rowAt h' t' rowIndex = Some o' /\
           own o' key = Some value /\
           forall k, k ≠ key ->
             own o' k = own (default [] (rowAt h t rowIndex)) k))
      prev next.
Proof.
  intros Hal Hrange.
  destruct (updateCell_locations tableName rowIndex key value prev h Hal)
    as (h' & next & Hrun & Hsub & Hall).
  { intros t Ht Hname. left. by apply Hrange. }
  exists h', next. split; [done |]. split; [done |].
  assert (Forall (fun t => allocated h t /\
            (name t = tableName -> rowIndex < length (data t))) prev) as Hboth.
  { apply Forall_forall. intros t Ht. split; [| by apply Hrange].
    by eapply Forall_forall in Hal. }
  eapply Forall2_impl_Forall; [exact Hboth | exact Hall |].
  intros t t' [Ht Hin] (Hn & Hc & Hother & Hnamed).
  destruct (decide (name t = tableName)) as [Hname|Hname].
  - destruct (Hnamed Hname) as (l & Hfresh & Hl & Hd).
    specialize (Hin Hname).
    assert (data t' = <[rowIndex := Row l]> (spreadArray (data t))) as Hd'.
    { rewrite writeIdx_inside in Hd; [by injection Hd |].
      unfold spreadArray. by rewrite length_map. }
    split; [done |]. split; [done |].
    split. { rewrite Hd', length_insert. unfold spreadArray. by rewrite length_map. }
    split; [done |]. intros _. split.
    + intros j Hj. unfold rowAt. rewrite Hd', list_lookup_insert_ne by done.
      unfold spreadArray. rewrite list_lookup_fmap.
      destruct (data t !! j) as [[| |l0]|] eqn:Hlj; cbn; try done.
      destruct (Ht l0) as [o0 Ho0]; [by eapply list_elem_of_lookup_2 |].
      by rewrite Ho0, (lookup_weaken _ _ _ _ Ho0 Hsub).
    + eexists. split.
      { unfold rowAt. rewrite Hd', list_lookup_insert_eq; [exact Hl |].
        unfold spreadArray. by rewrite length_map. }
      split; [apply own_set_eq |].
      intros k Hk. rewrite own_set_ne by done.
      f_equal. unfold readIdx, rowAt, spreadArray. rewrite list_lookup_fmap.
      destruct (data t !! rowIndex) as [[| |l0]|] eqn:Hlj; cbn; try done.
  - rewrite (Hother Hname). repeat split; try done.
    intros j. by apply rowAt_mono.
Qed.


(** Row objects listed slot by slot are allocated. *)
Lemma allocated_slots (h : heap) (t : TableState) :
  Forall (fun s => match s with Row l => is_Some (h !! l) | _ => True end)
    (data t) ->
  allocated h t.
Proof.
  intros Hall l Hl. eapply Forall_forall in Hall; [| exact Hl]. exact Hall.
Qed.

Lemma sampleTables_allocated : Forall (allocated Ref.sampleStore) Ref.sampleTables.
Proof.
  repeat constructor; apply allocated_slots; repeat constructor;
    by vm_compute; eexists.
Qed.

(** [updateCell_frame] on the second role. *)
Lemma updateCell_frame_roles :
  exists h' next,
    updateCell "roles" 1 "role_name" (JStr "Guest") Ref.sampleTables
      Ref.sampleStore = (h', Ok next) /\
    Ref.sampleStore ⊆ h' /\
    Forall2 (fun t t' =>
      name t' = name t /\ columns t' = columns t /\
      length (data t') = length (data t) /\
      (name t ≠ "roles" ->
         t' = t /\ forall j, rowAt h' t' j = rowAt Ref.sampleStore t j) /\
      (name t = "roles" ->
         (forall j, j ≠ 1 -> rowAt h' t' j = rowAt Ref.sampleStore t j) /\
         exists o', rowAt h' t' 1 = Some o' /\
           own o' "role_name" = Some (JStr "Guest") /\
           forall k, k ≠ "role_name" ->
             own o' k = own (default [] (rowAt Ref.sampleStore t 1)) k))
      Ref.sampleTables next.
Proof.
  apply updateCell_frame.
  - exact sampleTables_allocated.
  - intros t Ht Hname. unfold Ref.sampleTables in Ht.
    rewrite !elem_of_cons, elem_of_nil in Ht.
    destruct Ht as [->| [->| []]]; [cbn; lia | discriminate Hname].
Defined.

(** C6, as stated, fails past the end of the table: editing row index 5
    of the two-row table [roles] leaves it with six rows. *)
Lemma updateCell_past_end_grows :
  exists h' roles' flags',
    updateCell "roles" 5 "id" (JStr "7") Ref.sampleTables Ref.sampleStore
    = (h', Ok [roles'; flags']) /\
    length (data Ref.sampleRoles) = 2 /\
    length (data roles') = 6.
Proof. vm_compute. eauto 10. Qed.

End ClientFacts.

(** ** The cast of runQuery *)

Section CastFacts.
Import Client.
Context (rt : Runtime).

Lemma alter_const (h : heap) (l : loc) (o o' : obj) :
  h !! l = Some o -> alter (fun _ => o') l h = <[l := o']> h.
Proof.
  intros Ho. apply map_eq. intros i. rewrite lookup_alter, lookup_insert.
  destruct (decide (l = i)) as [->|]; [by rewrite Ho | done].
Qed.

(** An assignment of a number or a boolean. *)
Lemma writeProp_value (l : loc) (k : string) (v : jsval) (h : heap) (o : obj) :
  h !! l = Some o -> isPrototype v = false ->
  writeProp l k v h = (<[l := assigned o k v]> h, Ok tt).
Proof.
  intros Ho Hv. unfold writeProp, props, assign. rewrite Ho. cbn [default].
  rewrite Hv, andb_false_r. by rewrite (alter_const h l o).
Qed.

Lemma castColumn_spec (l : loc) (col : ColumnDefinition) (h : heap) (o : obj) :
  h !! l = Some o ->
  castColumn rt l col h = (<[l := castObj rt col o]> h, Ok tt).
Proof.
  intros Ho. unfold castColumn, castObj, bind, readProp, ret, props.
  rewrite Ho. cbn [default].
  destruct (nonEmpty _); [| by rewrite insert_id].
  destruct (ctype col); try (by rewrite insert_id); by apply writeProp_value.
Qed.

Lemma forEach_castColumn (l : loc) (cols : list ColumnDefinition) (h : heap)
    (o : obj) :
  h !! l = Some o ->
  forEach (castColumn rt l) cols h = (<[l := castAll rt cols o]> h, Ok tt).
Proof.
  revert h o. induction cols as [|col cols IH]; intros h o Ho.
  - cbn. by rewrite insert_id.
  - cbn [forEach castAll fold_left]. unfold bind.
    rewrite (castColumn_spec l col h o Ho).
    rewrite (IH _ (castObj rt col o)); [| apply lookup_insert_eq].
    by rewrite insert_insert_eq.
Qed.

Lemma castRow_spec (t : TableState) (cols : list ColumnDefinition) (row : slot)
    (h : heap) :
  columns t = Some cols ->
  exists newRow,
    castRow rt t row h
    = (<[newRow := castAll rt cols (spreadSlot h row)]> h, Ok newRow) /\
    h !! newRow = None.
Proof.
  intros Hcols. unfold castRow. rewrite Hcols. unfold bind at 1.
  destruct (alloc_spec (spreadSlot h row) h) as (l & -> & Hfresh).
  exists l. split; [| done]. unfold bind at 1.
  rewrite (forEach_castColumn l cols _ (spreadSlot h row));
    [| apply lookup_insert_eq].
  by rewrite insert_insert_eq.
Qed.

(** *** One column *)

Lemma inheritsSetter_true (o : obj) (k : string) :
  inheritsSetter o k = true <-> k = "__proto__" /\ own o k = None.
Proof.
  unfold inheritsSetter. destruct (String.eqb_spec k "__proto__") as [->|Hk];
    destruct (own o _); cbn; split; (done || by intros [? ?]).
Qed.

Lemma inheritsSetter_false (o : obj) (k : string) :
  (own o k = None -> k ≠ "__proto__") -> inheritsSetter o k = false.
Proof.
  intros Hk. destruct (inheritsSetter o k) eqn:Hs; [| done].
  apply inheritsSetter_true in Hs as [-> Ho]. by destruct (Hk Ho).
Qed.

(** What a read finds in [Object.prototype]: a function, or the
    prototype itself for [__proto__], or nothing. *)
Lemma inherited_value (k : string) :
  match default JUndefined (own ObjectPrototype k) with
  | JUndefined | JFun _ => True
  | JObj _ => k = "__proto__"
  | _ => False
  end.
Proof.
  unfold ObjectPrototype. cbn [own].
  repeat (match goal with
          | |- context [String.eqb ?a k] => destruct (String.eqb_spec a k)
          end; [by subst |]).
  done.
Qed.

(** The cast of one column touches no other key. *)
Lemma own_castObj_ne (col : ColumnDefinition) (o : obj) (k : string) :
  cname col ≠ k -> own (castObj rt col o) k = own o k.
Proof.
  intros Hne. unfold castObj, assigned.
  destruct (nonEmpty _); [| done].
  destruct (inheritsSetter _ _); [by destruct (ctype col) |].
  destruct (ctype col); try done; by apply own_set_ne.
Qed.

(** The cast of a column depends on the row through that cell only. *)
Lemma own_castObj_cell (col : ColumnDefinition) (o o' : obj) :
  own o' (cname col) = own o (cname col) ->
  own (castObj rt col o') (cname col) = own (castObj rt col o) (cname col).
Proof.
  intros Heq. unfold castObj, assigned, inheritsSetter, getProp. rewrite Heq.
  destruct (nonEmpty _); [| done].
  destruct (_ && _); [by destruct (ctype col) |].
  destruct (ctype col); try done; by rewrite !own_set_eq.
Qed.

Lemma nonEmpty_false (val : jsval) :
  nonEmpty val = false <-> val = JUndefined \/ val = JNull \/ val = JStr "".
Proof.
  destruct val as [| | | |s| | |]; cbn;
    try (split; [done | by intros [?|[?|?]]]); try (split; [auto | done]).
  destruct (String.eqb_spec s "") as [->|Hs]; cbn.
  - split; auto.
  - split; [done |]. intros [?|[?|?]]; congruence.
Qed.

Lemma castValue_nonEmpty (ty : ColumnType) (val : jsval) :
  Described.castValue rt ty val
  = if nonEmpty val then
      match ty with
      | TNumber =>
          JNum (if isNaN (Number rt val) then PrimFloat.zero else Number rt val)
      | TBoolean => JBool (String.eqb (toLowerCase rt (String rt val)) "true")
      | TString | TDate => val
      end
    else val.
Proof.
  destruct val as [| | | |s| | |]; try done.
  destruct s as [|a s]; done.
Qed.

(** The cell reads as the cast of what it read, unless the assignment
    reaches the setter of [__proto__]. *)
Lemma getProp_castObj (col : ColumnDefinition) (o : obj) :
  (own o (cname col) = None -> cname col ≠ "__proto__") ->
  getProp (castObj rt col o) (cname col)
  = Described.castValue rt (ctype col) (getProp o (cname col)).
Proof.
  intros Hk. rewrite castValue_nonEmpty. unfold castObj, assigned.
  rewrite (inheritsSetter_false _ _ Hk).
  destruct (nonEmpty _); [| done].
  destruct (ctype col); try done; by rewrite getProp_set_eq.
Qed.

(** A cell the row owns stays its own. *)
Lemma own_castObj_own (col : ColumnDefinition) (o : obj) (v : jsval) :
  own o (cname col) = Some v ->
  own (castObj rt col o) (cname col)
  = Some (Described.castValue rt (ctype col) v).
Proof.
  intros Ho. rewrite castValue_nonEmpty. unfold castObj, assigned, getProp.
  rewrite inheritsSetter_false by (by rewrite Ho).
  rewrite Ho. destruct (nonEmpty v); [| done].
  destruct (ctype col); try done; by rewrite own_set_eq.
Qed.

(** A cell the row does not own stays absent when the assignment reaches
    the setter, and when the cast leaves the value as it is. *)
Lemma own_castObj_absent (col : ColumnDefinition) (o : obj) :
  own o (cname col) = None ->
  cname col = "__proto__" \/
  Described.castValue rt (ctype col) (getProp o (cname col))
  = getProp o (cname col) ->
  own (castObj rt col o) (cname col) = None.
Proof.
  intros Ho Hcase.
  destruct (inheritsSetter o (cname col)) eqn:Hs.
  { unfold castObj, assigned. rewrite Hs.
    destruct (nonEmpty _); [| done]. by destruct (ctype col). }
  destruct Hcase as [Hk | Hsame].
  { assert (inheritsSetter o (cname col) = true) as Hs'
      by by apply inheritsSetter_true.
    congruence. }
  rewrite castValue_nonEmpty in Hsame. revert Hsame.
  unfold castObj, assigned, getProp. rewrite Hs, Ho.
  pose proof (inherited_value (cname col)) as Hv.
  destruct (default JUndefined (own ObjectPrototype (cname col)))
    as [| | | | | |ps|f]; try done; cbn [nonEmpty].
  - assert (inheritsSetter o (cname col) = true) as Hs'
      by by apply inheritsSetter_true.
    congruence.
  - by destruct (ctype col).
Qed.

Lemma keys_set_prefix (o : obj) (k : string) (v : jsval) :
  keys o `prefix_of` keys (set o k v).
Proof.
  induction o as [|[k' v'] o IH]; cbn; [apply prefix_nil |].
  destruct (String.eqb k' k); cbn; [done |]. by apply prefix_cons.
Qed.

Lemma keys_castObj_prefix (col : ColumnDefinition) (o : obj) :
  keys o `prefix_of` keys (castObj rt col o).
Proof.
  unfold castObj, assigned. destruct (nonEmpty _); [| done].
  destruct (inheritsSetter _ _); [by destruct (ctype col) |].
  destruct (ctype col); try done; apply keys_set_prefix.
Qed.

(** *** All the columns *)

Lemma own_castAll_out (cols : list ColumnDefinition) (o : obj) (k : string) :
  k ∉ map cname cols -> own (castAll rt cols o) k = own o k.
Proof.
  revert o. induction cols as [|col cols IH]; intros o Hk; [done |].
  cbn in Hk. apply not_elem_of_cons in Hk as [Hne Hk].
  cbn [castAll fold_left]. etrans; [apply (IH _ Hk) |].
  by apply own_castObj_ne.
Qed.

Lemma own_castAll_in (cols : list ColumnDefinition) (o : obj)
    (col : ColumnDefinition) :
  NoDup (map cname cols) -> col ∈ cols ->
  own (castAll rt cols o) (cname col) = own (castObj rt col o) (cname col).
Proof.
  revert o. induction cols as [|c cols IH]; intros o Hnd Hin.
  - by apply elem_of_nil in Hin.
  - cbn in Hnd. apply NoDup_cons in Hnd as [Hc Hnd].
    cbn [castAll fold_left].
    apply elem_of_cons in Hin as [->|Hin].
    + by apply own_castAll_out.
    + etrans; [apply (IH _ Hnd Hin) |].
      apply own_castObj_cell, own_castObj_ne.
      intros Heq. apply Hc. rewrite Heq. by apply list_elem_of_fmap_2.
Qed.

Lemma keys_castAll_prefix (cols : list ColumnDefinition) (o : obj) :
  keys o `prefix_of` keys (castAll rt cols o).
Proof.
  revert o. induction cols as [|col cols IH]; intros o; [done |].
  cbn [castAll fold_left]. etrans; [apply (keys_castObj_prefix col) | apply IH].
Qed.

Lemma getProp_own (o o' : obj) (k : string) :
  own o' k = own o k -> getProp o' k = getProp o k.
Proof. unfold getProp. by intros ->. Qed.

Lemma castAll_castRowOf (cols : list ColumnDefinition) (o : obj) :
  NoDup (map cname cols) -> Described.castRowOf rt cols o (castAll rt cols o).
Proof.
  intros Hnd. split; [| split; [| split; [| split]]].
  - intros col Hcol Hk. rewrite <- (getProp_castObj col o Hk).
    by apply getProp_own, own_castAll_in.
  - intros col v Hcol Ho. rewrite <- (own_castObj_own col o v Ho).
    by apply own_castAll_in.
  - intros col Hcol Ho Hcase. rewrite <- (own_castObj_absent col o Ho Hcase).
    by apply own_castAll_in.
  - intros k Hk. by apply own_castAll_out.
  - apply keys_castAll_prefix.
Qed.

(** *** The rows *)

Lemma spreadSlot_weaken (h h' : heap) (s : slot) :
  h ⊆ h' -> slotAllocated h s -> spreadSlot h' s = spreadSlot h s.
Proof. intros Hsub Hs. destruct s; try done. by apply props_mono. Qed.

Lemma slotAllocated_mono (h h' : heap) (s : slot) :
  h ⊆ h' -> slotAllocated h s -> slotAllocated h' s.
Proof.
  intros Hsub Hs. destruct s as [| |l]; try done.
  destruct Hs as [o Ho]. exists o. by eapply lookup_weaken.
Qed.

(** The properties handed over for a cast row are the cast of the
    properties of the row. *)
Lemma castSlot_handed (cols : list ColumnDefinition) (h h' : heap)
    (row : slot) (l : loc) :
  NoDup (map cname cols) -> slotAllocated h row -> row ≠ Hole ->
  h' !! l = Some (castAll rt cols (spreadSlot h row)) ->
  Described.castSlot rt cols h row (Some (props h' l)).
Proof.
  intros Hnd Hal Hrow Hl. unfold props. rewrite Hl. cbn [default].
  destruct row as [| |l0]; [done | |].
  - eexists. split; [done |]. by apply castAll_castRowOf.
  - destruct Hal as [before Hb]. exists before. eexists.
    split; [done |]. split; [done |].
    cbn [spreadSlot]. unfold props. rewrite Hb. by apply castAll_castRowOf.
Qed.

Lemma castedData_rows (t : TableState) (cols : list ColumnDefinition)
    (rows : list slot) (h : heap) :
  columns t = Some cols -> NoDup (map cname cols) ->
  Forall (slotAllocated h) rows ->
  exists h' cd,
    mapM (castElement rt t) rows h = (h', Ok cd) /\
    h ⊆ h' /\
    Forall2 (Described.castSlot rt cols h) rows (map (fmap (props h')) cd).
Proof.
  intros Hcols Hnd. revert h.
  induction rows as [|row rows IH]; intros h Hal.
  - exists h, []. by repeat split.
  - apply Forall_cons in Hal as [Hrow Hrows].
    assert (exists h1 r, castElement rt t row h = (h1, Ok r) /\ h ⊆ h1 /\
            (forall h', h1 ⊆ h' ->
               Described.castSlot rt cols h row (props h' <$> r)))
      as (h1 & r & Hstep & Hsub1 & Hr).
    { destruct (castRow_spec t cols row h Hcols) as (l & Hrun & Hfresh).
      assert (h ⊆ <[l := castAll rt cols (spreadSlot h row)]> h) as Hsub
        by by apply insert_subseteq.
      destruct row as [| |l0]; [by exists h, None | |];
        unfold castElement, bind; rewrite Hrun; eexists _, _;
        (split; [reflexivity |]); (split; [done |]);
        intros h' Hsub'; cbn [fmap option_fmap option_map];
        (apply castSlot_handed; [done | done | done |]);
        eapply lookup_weaken; [apply lookup_insert_eq | done
                              | apply lookup_insert_eq | done]. }
    destruct (IH h1) as (h' & cd & Hrun & Hsub' & Hall).
    { eapply Forall_impl; [exact Hrows |]. intros s. by apply slotAllocated_mono. }
    cbn [mapM]. unfold bind at 1. rewrite Hstep.
    unfold bind at 1. rewrite Hrun.
    exists h', (r :: cd). split; [done |]. split; [by etrans |].
    cbn [map]. constructor; [by apply Hr |].
    eapply Forall2_impl_Forall; [exact Hrows | exact Hall |].
    intros s r0 Hs. unfold Described.castSlot.
    destruct s as [| |l0]; [done | done |].
    intros (before & after & Hb & Hrest). exists before, after.
    split; [| done]. destruct Hs as [o Ho].
    rewrite (lookup_weaken _ _ _ _ Ho Hsub1) in Hb. by rewrite Ho.
Qed.

Lemma allocated_Forall (h : heap) (t : TableState) :
  allocated h t -> Forall (slotAllocated h) (data t).
Proof.
  intros Hal. apply Forall_forall. intros [| |l] Hs; try done. by apply Hal.
Qed.

(** C9, amended. Before a table is registered, each cell of each row is
    cast by the declared type of its column (the column names being
    distinct, as the keys of a row are), except the cell of a column
    named [__proto__] in a row that has no property of that name: a
    number column gets [Number(value)], or 0 when that is [NaN]; a boolean
    column gets whether the lowercased text of the value is [true]; cells
    that are [undefined], [null] or the empty string, and cells of columns
    of another type, stay as they are. The rows of the page are not
    written, an empty slot stays empty, and the cast rows are what the
    engine is handed for the table, after the two statements that drop
    and create it. *)
Theorem registerTable_casts (eng : Engine) (t : TableState)
    (cols : list ColumnDefinition) (h : heap) (d : DB eng) :
  columns t = Some cols -> NoDup (map cname cols) -> allocated h t ->
  exists h' rows,
    Forall2 (Described.castSlot rt cols h) (data t) rows /\
    h ⊆ h' /\
    registerTable rt eng t (h, d)
    = (let* _ := liftD eng (alasql eng ("DROP TABLE IF EXISTS " +:+ name t)) in
       let* _ := liftD eng (alasql eng ("CREATE TABLE " +:+ name t)) in
       liftD eng (setData eng (name t) rows)) (h', d).
Proof.
  intros Hcols Hnd Hal.
  destruct (castedData_rows t cols (data t) h Hcols Hnd)
    as (h' & cd & Hrun & Hsub & Hall); [by apply allocated_Forall |].
  exists h', (map (fmap (props h')) cd). split; [done |]. split; [done |].
  unfold registerTable. unfold bind at 1. unfold liftH at 1.
  unfold castedData. rewrite Hrun.
  unfold bind, liftD, liftH.
  destruct (alasql eng _ d) as [d1 [v1|msg|]]; [| done | done].
  destruct (alasql eng _ d1) as [d2 [v2|msg|]]; done.
Qed.

End CastFacts.

(** [registerTable_casts] on the table of hand-typed cells, with the
    engine that keeps the rows it is handed. *)
Lemma registerTable_casts_flags :
  exists h' rows,
    Forall2
      (Described.castSlot Ref.refRuntime
         [ {| Client.cname := "on"; Client.ctype := Client.TBoolean |};
           {| Client.cname := "n"; Client.ctype := Client.TNumber |};
           {| Client.cname := "note"; Client.ctype := Client.TNumber |};
           {| Client.cname := "size"; Client.ctype := Client.TNumber |} ]
         Ref.sampleStore)
      (Client.data Ref.sampleFlags) rows /\
    Ref.sampleStore ⊆ h' /\
    Client.registerTable Ref.refRuntime Ref.miniSql Ref.sampleFlags
      (Ref.sampleStore, [])
    = (let* _ := Client.liftD Ref.miniSql
                   (Client.alasql Ref.miniSql
                      ("DROP TABLE IF EXISTS " +:+ Client.name Ref.sampleFlags)) in
       let* _ := Client.liftD Ref.miniSql
                   (Client.alasql Ref.miniSql
                      ("CREATE TABLE " +:+ Client.name Ref.sampleFlags)) in
       Client.liftD Ref.miniSql
         (Client.setData Ref.miniSql (Client.name Ref.sampleFlags) rows))
        (h', []).
Proof.
  apply (registerTable_casts Ref.refRuntime Ref.miniSql Ref.sampleFlags).
  - reflexivity.
  - compute_done.
  - apply allocated_slots. repeat constructor. by vm_compute; eexists.
Defined.

(** The cast of the hand-typed row: [TRUE] is true, [12px] is not a
    number and becomes 0, [null] stays, [42] becomes the number; and the
    row is what the engine then holds for the table. *)
Example registerTable_flags_value :
  exists h',
    Client.registerTable Ref.refRuntime Ref.miniSql Ref.sampleFlags
      (Ref.sampleStore, [])
    = ((h', [("flags",
              [Some [("on", JBool true); ("n", JNum PrimFloat.zero);
                     ("note", JNull); ("size", JNum 42%float)]])]),
       Ok tt).
Proof. vm_compute. eauto. Qed.

(** C9, as stated, fails at a number column named [__proto__] for a row
    that has no property of that name. In the first row, which has one,
    the cell [5] becomes the number. In the second row the cell reads
    [Object.prototype] before the cast, the cast of that value is 0, and
    the cell of the cast row still reads [Object.prototype]: the
    assignment has reached the setter of [__proto__], which ignores a
    number. *)
Lemma cast_skips_inherited_proto :
  exists h' first second after1 after2,
    Client.castedData Ref.refRuntime Ref.sampleProto Ref.protoStore
    = (h', Ok [Some first; Some second]) /\
    h' !! first = Some after1 /\ h' !! second = Some after2 /\
    getProp after1 "__proto__" = JNum 5%float /\
    getProp (Client.props Ref.protoStore 2) "__proto__" = JObj [] /\
    Described.castValue Ref.refRuntime Client.TNumber (JObj [])
    = JNum PrimFloat.zero /\
    getProp after2 "__proto__" = JObj [].
Proof. vm_compute. eauto 12. Qed.

(** ** Computations that keep what the state had *)

Section Stable.
Context {S : Type} (R : relation S) `{!PreOrder R}.

Lemma stable_ret {A} (a : A) : stable R (ret a).
Proof. intros s s' r [= <- _]. reflexivity. Qed.

Lemma stable_throw {A} (msg : string) : stable R (@throw S A msg).
Proof. intros s s' r [= <- _]. reflexivity. Qed.

Lemma stable_unmodelled {A} : stable R (@unmodelled S A).
Proof. intros s s' r [= <- _]. reflexivity. Qed.

Lemma stable_bind {A B} (m : M S A) (k : A -> M S B) :
  stable R m -> (forall a, stable R (k a)) -> stable R (bind m k).
Proof.
  intros Hm Hk s s' r. unfold bind.
  destruct (m s) as [s1 [a|msg|]] eqn:Hms.
  - intros Hks. etrans; [by eapply Hm | by eapply Hk].
  - intros [= <- _]. by eapply Hm.
  - intros [= <- _]. by eapply Hm.
Qed.

Lemma stable_mapM {A B} (f : A -> M S B) (l : list A) :
  (forall a, stable R (f a)) -> stable R (mapM f l).
Proof.
  intros Hf. induction l as [|a l IH]; cbn [mapM]; [apply stable_ret |].
  apply stable_bind; [done |]. intros b.
  apply stable_bind; [done |]. intros bs. apply stable_ret.
Qed.

Lemma stable_forEach {A} (f : A -> M S unit) (l : list A) :
  (forall a, stable R (f a)) -> stable R (forEach f l).
Proof.
  intros Hf. induction l as [|a l IH]; cbn [forEach]; [apply stable_ret |].
  apply stable_bind; [done |]. by intros _.
Qed.

End Stable.

(** One step through the structure of a computation. *)
Ltac stable_step :=
  first [ apply stable_ret | apply stable_throw | apply stable_unmodelled
        | apply stable_bind | apply stable_mapM | apply stable_forEach ];
  try apply _.

(** ** Running a query *)

Section QueryFacts.
Import Client.
Context (rt : Runtime) (eng : Engine).

Local Instance heapGrows_preorder : PreOrder (heapGrows eng).
Proof.
  split.
  - intros s. unfold heapGrows. done.
  - intros s1 s2 s3. unfold heapGrows. intros ??. by etrans.
Qed.

Lemma alloc_stable (o : obj) : stable (⊆) (alloc o).
Proof.
  intros h h' r. destruct (alloc_spec o h) as (l & -> & Hfresh).
  intros [= <- _]. by apply insert_subseteq.
Qed.

Lemma castRow_stable (t : TableState) (row : slot) : stable (⊆) (castRow rt t row).
Proof.
  intros h h' r. destruct (columns t) as [cols|] eqn:Hcols.
  - destruct (castRow_spec rt t cols row h Hcols) as (l & -> & Hfresh).
    intros [= <- _]. by apply insert_subseteq.
  - unfold castRow. rewrite Hcols. unfold bind at 1.
    destruct (alloc_spec (spreadSlot h row) h) as (l & -> & Hfresh).
    cbn. intros [= <- _]. by apply insert_subseteq.
Qed.

Lemma castedData_stable (t : TableState) : stable (⊆) (castedData rt t).
Proof.
  stable_step. intros [| |l]; unfold castElement; [stable_step | |];
    (stable_step; [apply castRow_stable | intros; stable_step]).
Qed.

Lemma liftH_stable {A} (m : M heap A) : stable (⊆) m -> stable (heapGrows eng) (liftH eng m).
Proof.
  intros Hm [h d] [h' d'] r. unfold liftH.
  destruct (m h) as [h1 r1] eqn:Hmh. intros [= <- _ _].
  unfold heapGrows. cbn. by eapply Hm.
Qed.

Lemma liftD_stable {A} (m : M (DB eng) A) : stable (heapGrows eng) (liftD eng m).
Proof.
  intros [h d] [h' d'] r. unfold liftD.
  destruct (m d) as [d1 r1]. intros [= <- _ _]. by unfold heapGrows.
Qed.

Lemma registerTable_stable (t : TableState) : stable (heapGrows eng) (registerTable rt eng t).
Proof.
  unfold registerTable.
  stable_step; [apply liftH_stable, castedData_stable |]. intros cd.
  stable_step; [apply liftD_stable |]. intros _.
  stable_step; [apply liftD_stable |]. intros _.
  stable_step; [| intros; apply liftD_stable].
  apply liftH_stable. by intros h h' r [= <- _].
Qed.

Lemma tryBlock_stable (st : AppState) : stable (heapGrows eng) (tryBlock rt eng st).
Proof.
  unfold tryBlock.
  stable_step; [| intros; apply liftD_stable].
  stable_step. apply registerTable_stable.
Qed.

Lemma runQuery_unfold (st : AppState) (h : heap) (d d1 d2 : DB eng) (h1 : heap)
    (r : res jsval) :
  forEach (registerTable rt eng) (tables st) (h, d) = ((h1, d1), Ok tt) ->
  alasql eng (query st) d1 = (d2, r) ->
  tryBlock rt eng st (h, d) = ((h1, d2), r).
Proof.
  intros Hreg Hq. unfold tryBlock, bind. rewrite Hreg. unfold liftD.
  by rewrite Hq.
Qed.

(** C2. [runQuery] hands the query text, as it is, to the engine (after
    the tables are registered), and stores what the engine returns: the
    empty array for [undefined] or [null], the array itself for an array,
    and a one-element array for any other value; the error is cleared. *)
Theorem runQuery_result (st : AppState) (h h1 : heap) (d d1 d2 : DB eng)
    (result : jsval) :
  forEach (registerTable rt eng) (tables st) (h, d) = ((h1, d1), Ok tt) ->
  alasql eng (query st) d1 = (d2, Ok result) ->
  exists st',
    runQuery rt eng st (h, d) = ((h1, d2), Ok st') /\
    queryError st' = None /\
    tables st' = tables st /\ query st' = query st /\
    (result = JUndefined \/ result = JNull -> queryResult st' = Some []) /\
    (forall items, result = JArr items -> queryResult st' = Some items) /\
    (isArray result = false -> result ≠ JUndefined -> result ≠ JNull ->
     queryResult st' = Some [result]).
Proof.
  intros Hreg Hq. unfold runQuery.
  rewrite (runQuery_unfold st h d d1 d2 h1 _ Hreg Hq).
  eexists. split; [reflexivity |]. cbn.
  repeat split.
  - by intros [->| ->].
  - by intros items ->.
  - by destruct result.
Qed.

(** C8. When the engine throws on the query, [runQuery] sets the error
    to the thrown message and the result to [null], and leaves the
    tables state as it was: the same tables, and every row object with
    the properties it had (the cast wrote only to objects of its own). *)
Theorem runQuery_engine_throws (st : AppState) (h h1 : heap) (d d1 d2 : DB eng)
    (msg : string) :
  forEach (registerTable rt eng) (tables st) (h, d) = ((h1, d1), Ok tt) ->
  alasql eng (query st) d1 = (d2, Throw msg) ->
  exists st',
    runQuery rt eng st (h, d) = ((h1, d2), Ok st') /\
    queryError st' = Some msg /\
    queryResult st' = None /\
    tables st' = tables st /\
    (forall l o, h !! l = Some o -> h1 !! l = Some o) /\
    (forall t j, t ∈ tables st -> allocated h t -> rowAt h1 t j = rowAt h t j).
Proof.
  intros Hreg Hq. unfold runQuery.
  pose proof (runQuery_unfold st h d d1 d2 h1 _ Hreg Hq) as Htry.
  rewrite Htry.
  pose proof (tryBlock_stable st _ _ _ Htry) as Hsub. unfold heapGrows in Hsub.
  cbn in Hsub.
  eexists. split; [reflexivity |]. cbn. repeat split.
  - intros l o Ho. by eapply lookup_weaken.
  - intros t j _ Hal. by apply rowAt_mono.
Qed.

End QueryFacts.

(** *** What the engine is sent *)

Section Statements.
Import Client.
Context (rt : Runtime).

Lemma castedData_Ok (t : TableState) (cols : list ColumnDefinition)
    (rows : list slot) (h : heap) :
  columns t = Some cols ->
  exists h' cd, mapM (castElement rt t) rows h = (h', Ok cd).
Proof.
  intros Hcols. revert h. induction rows as [|row rows IH]; intros h.
  - by eexists _, _.
  - cbn [mapM]. unfold bind at 1.
    assert (exists h1 r, castElement rt t row h = (h1, Ok r)) as (h1 & r & ->).
    { destruct (castRow_spec rt t cols row h Hcols) as (l & Hrun & _).
      destruct row; [by eexists _, _ | |];
        unfold castElement, bind; rewrite Hrun; by eexists _, _. }
    destruct (IH h1) as (h' & cd & Hrest).
    unfold bind at 1. rewrite Hrest. by eexists _, _.
Qed.

Lemma registerTable_recorder (t : TableState) (h : heap) (log : list string) :
  is_Some (columns t) ->
  exists h',
    registerTable rt Ref.recorder t (h, log)
    = ((h', (log ++ [ "DROP TABLE IF EXISTS " +:+ name t;
                      "CREATE TABLE " +:+ name t ])%list), Ok tt).
Proof.
  intros [cols Hc].
  destruct (castedData_Ok t cols (data t) h Hc) as (h1 & cd & Hcd).
  exists h1. unfold registerTable, bind, liftH, liftD, castedData.
  rewrite Hcd. cbn. by rewrite <- app_assoc.
Qed.

Lemma forEach_registerTable_recorder (ts : list TableState) (h : heap)
    (log : list string) :
  Forall (fun t => is_Some (columns t)) ts ->
  exists h',
    forEach (registerTable rt Ref.recorder) ts (h, log)
    = ((h', (log ++ flat_map
               (fun t => [ "DROP TABLE IF EXISTS " +:+ name t;
                           "CREATE TABLE " +:+ name t ]) ts)%list), Ok tt).
Proof.
  revert h log. induction ts as [|t ts IH]; intros h log Hall.
  - exists h. cbn [forEach flat_map]. by rewrite app_nil_r.
  - apply Forall_cons in Hall as [Ht Hall].
    destruct (registerTable_recorder t h log Ht) as (h1 & Hreg).
    destruct (IH h1 (log ++ [ "DROP TABLE IF EXISTS " +:+ name t;
                              "CREATE TABLE " +:+ name t ])%list Hall)
      as (h' & Hrest).
    exists h'. cbn [forEach flat_map]. unfold bind at 1.
    rewrite Hreg, Hrest. by rewrite <- app_assoc.
Qed.

(** X9. The statements [runQuery] gives the engine when every table has
    its columns: for each table of the page, in order, a DROP and a
    CREATE with its name, and last the query text as it is. *)
Lemma runQuery_statements (st : AppState) (h : heap) (log : list string) :
  Forall (fun t => is_Some (columns t)) (tables st) ->
  snd (fst (runQuery rt Ref.recorder st (h, log)))
  = (log
     ++ flat_map (fun t => [ "DROP TABLE IF EXISTS " +:+ name t;
                             "CREATE TABLE " +:+ name t ]) (tables st)
     ++ [query st])%list.
Proof.
  intros Hcols. unfold runQuery, tryBlock. unfold bind at 1.
  destruct (forEach_registerTable_recorder (tables st) h log Hcols)
    as (h' & ->).
  unfold liftD. cbn. by rewrite <- app_assoc.
Qed.

End Statements.

(** [runQuery_result] on the sample page: selecting the roles. *)
Lemma runQuery_result_roles :
  exists h1 d2 st',
    Client.runQuery Ref.refRuntime Ref.miniSql
      (Ref.sampleState "SELECT * FROM roles") (Ref.sampleStore, [])
    = ((h1, d2), Ok st') /\
    Client.queryError st' = None /\
    Client.tables st' = Ref.sampleTables /\
    Client.query st' = "SELECT * FROM roles" /\
    Client.queryResult st' = Some Ref.sampleRolesResult.
Proof.
  pose (s1 := fst (forEach (Client.registerTable Ref.refRuntime Ref.miniSql)
                     Ref.sampleTables (Ref.sampleStore, []))).
  pose (d2 := fst (Client.alasql Ref.miniSql "SELECT * FROM roles" (snd s1))).
  destruct (runQuery_result Ref.refRuntime Ref.miniSql
              (Ref.sampleState "SELECT * FROM roles")
              Ref.sampleStore (fst s1) [] (snd s1) d2
              (JArr Ref.sampleRolesResult))
    as (st' & Hrun & Herr & Htables & Hquery & _ & Harr & _).
  - vm_compute. reflexivity.
  - vm_compute. reflexivity.
  - exists (fst s1), d2, st'. repeat split; try assumption.
    apply Harr. reflexivity.
Defined.

(** [runQuery_engine_throws] on the sample page: a statement the engine
    cannot parse. *)
Lemma runQuery_engine_throws_join :
  exists h1 d2 st',
    Client.runQuery Ref.refRuntime Ref.miniSql
      (Ref.sampleState "SELECT * FROM roles JOIN flags") (Ref.sampleStore, [])
    = ((h1, d2), Ok st') /\
    Client.queryError st'
    = Some "Parse error: SELECT * FROM roles JOIN flags" /\
    Client.queryResult st' = None /\
    Client.tables st' = Ref.sampleTables /\
    (forall l o, Ref.sampleStore !! l = Some o -> h1 !! l = Some o).
Proof.
  pose (s1 := fst (forEach (Client.registerTable Ref.refRuntime Ref.miniSql)
                     Ref.sampleTables (Ref.sampleStore, []))).
  pose (d2 := fst (Client.alasql Ref.miniSql "SELECT * FROM roles JOIN flags" (snd s1))).
  destruct (runQuery_engine_throws Ref.refRuntime Ref.miniSql
              (Ref.sampleState "SELECT * FROM roles JOIN flags")
              Ref.sampleStore (fst s1) [] (snd s1) d2
              "Parse error: SELECT * FROM roles JOIN flags")
    as (st' & Hrun & Herr & Hres & Htables & Hkeep & _).
  - vm_compute. reflexivity.
  - vm_compute. reflexivity.
  - exists (fst s1), d2, st'. repeat split; assumption.
Defined.

(** ** The client and the backend together *)

Lemma mapM_Forall2 {S A B} (f : A -> M S B) (Q : A -> B -> Prop)
    (l : list A) (s s' : S) (bs : list B) :
  (forall a s s' b, f a s = (s', Ok b) -> Q a b) ->
  mapM f l s = (s', Ok bs) -> Forall2 Q l bs.
Proof.
  intros Hf. revert s bs. induction l as [|a l IH]; intros s bs.
  - cbn. unfold ret. intros [= _ <-]. constructor.
  - cbn [mapM]. unfold bind at 1.
    destruct (f a s) as [s1 [b|msg|]] eqn:Hfa; try done.
    unfold bind at 1.
    destruct (mapM f l s1) as [s2 [bs'|msg|]] eqn:Hrest; try done.
    unfold ret. intros [= <- <-]. constructor; [by eapply Hf | by eapply IH].
Qed.

(** Runs a computation given as an equation through its binds. *)
Ltac run_binds H :=
  unfold bind, ret, throw, unmodelled in H;
  repeat case_match; simplify_eq; try done.

#[export] Instance backendKept_preorder : PreOrder World.backendKept.
Proof.
  split.
  - intros s. by split.
  - intros s1 s2 s3 [H1 E1] [H2 E2]. split; [by etrans | congruence].
Qed.

Section WorldFacts.
Import Server Client World.
Context (rt : Runtime) (eng : Engine) (fallback : string -> string -> response).

Lemma fetchJson_stable (req : request) : stable backendKept (fetchJson fallback req).
Proof.
  intros [h b] s' r. unfold fetchJson.
  pose proof (handle_store fallback req b) as Hb.
  destruct (handle fallback req b) as [resp b']. cbn in Hb. subst b'.
  destruct (body resp); intros [= <- _]; by split.
Qed.

Lemma liftHeap_stable {A} (m : M heap A) :
  stable (⊆) m -> stable backendKept (liftHeap m).
Proof.
  intros Hm [h b] s' r. unfold liftHeap.
  destruct (m h) as [h1 r1] eqn:Hmh. intros [= <- _].
  split; [by eapply Hm | done].
Qed.

Lemma asNames_stable (v : jsval) : stable backendKept (asNames v).
Proof.
  destruct v; try (by stable_step). cbn [asNames].
  stable_step. intros []; by stable_step.
Qed.

Lemma asRows_stable (v : jsval) : stable backendKept (asRows v).
Proof.
  destruct v; try (by stable_step). cbn [asRows].
  stable_step. intros []; try (by stable_step).
  stable_step; [apply liftHeap_stable, alloc_stable | intros; stable_step].
Qed.

Lemma inferColumns_stable (data : list slot) : stable (⊆) (inferColumns data).
Proof.
  unfold inferColumns. destruct (Nat.ltb _ _); [| by stable_step].
  destruct (readIdx data 0); try (by stable_step).
  by intros h h' r [= <- _].
Qed.

Lemma fetchTable_stable (name : string) :
  stable backendKept (fetchTable fallback name).
Proof.
  unfold fetchTable. destruct (plainSegment name); [| by stable_step].
  apply fetchJson_stable.
Qed.

Lemma loadTable_stable (name : string) : stable backendKept (loadTable fallback name).
Proof.
  unfold loadTable.
  stable_step; [apply fetchTable_stable |]. intros v.
  stable_step; [apply asRows_stable |]. intros data.
  stable_step; [apply liftHeap_stable, inferColumns_stable |]. intros cols.
  stable_step.
Qed.

Lemma reloadTable_stable (name : string) :
  stable backendKept (reloadTable fallback name).
Proof.
  unfold reloadTable.
  stable_step; [apply fetchTable_stable |]. intros v.
  stable_step; [apply asRows_stable |]. intros data.
  stable_step.
Qed.

Lemma fetchAll_stable (load : string -> M (heap * obj) TableState) :
  (forall name, stable backendKept (load name)) ->
  stable backendKept (fetchAll fallback load).
Proof.
  intros Hload. unfold fetchAll.
  stable_step; [apply fetchJson_stable |]. intros v.
  stable_step; [apply asNames_stable |]. intros names.
  by stable_step.
Qed.

Lemma fetchData_backend (w : World eng) : backend (fetchData eng fallback w) = backend w.
Proof.
  unfold fetchData.
  destruct (fetchAll fallback (loadTable fallback) (objects w, backend w))
    as [s r] eqn:Hrun.
  apply (fetchAll_stable _ loadTable_stable) in Hrun as [_ Hb].
  by destruct r.
Qed.

Lemma resetToDefault_backend (w : World eng) :
  backend (resetToDefault eng fallback w) = backend w.
Proof.
  unfold resetToDefault.
  destruct (fetchAll fallback (reloadTable fallback) (objects w, backend w))
    as [s r] eqn:Hrun.
  apply (fetchAll_stable _ reloadTable_stable) in Hrun as [_ Hb].
  by destruct r.
Qed.

Lemma setTables_backend updater (w : World eng) :
  backend (setTables eng updater w) = backend w.
Proof.
  unfold setTables. by destruct (updater _ _) as [h [ts|msg|]].
Qed.

Lemma clickRun_backend (w : World eng) : backend (clickRun rt eng w) = backend w.
Proof.
  unfold clickRun. by destruct (runQuery _ _ _ _) as [[h d] [st|msg|]].
Qed.

(** No operation of the page changes the store of the server. *)
Lemma step_backend (w : World eng) (o : op) :
  backend (step rt eng fallback w o) = backend w.
Proof.
  unfold step. destruct (phase w); [| done | done].
  destruct o; auto using fetchData_backend, resetToDefault_backend,
    setTables_backend, clickRun_backend.
Qed.

Lemma run_backend (ops : list op) (w : World eng) :
  backend (run rt eng fallback ops w) = backend w.
Proof.
  revert w. induction ops as [|o ops IH]; intros w; [done |].
  cbn. unfold run in IH. rewrite IH. apply step_backend.
Qed.

(** *** Reloading the tables *)

Lemma objectsOf_map (items : list jsval) (os : list obj) :
  objectsOf items = Some os -> items = map JObj os.
Proof.
  revert os. induction items as [|it items IH]; intros os.
  - by intros [= <-].
  - cbn. destruct it; try done.
    destruct (objectsOf items) as [os'|]; [| done].
    intros [= <-]. cbn. f_equal. by apply IH.
Qed.

Lemma slotValue_mono (h h' : heap) (s : slot) :
  h ⊆ h' -> slotAllocated h s -> slotValue h' s = slotValue h s.
Proof.
  intros Hsub Hs. destruct s as [| |l]; try done. cbn.
  f_equal. by apply props_mono.
Qed.

Lemma slotValues_mono (h h' : heap) (slots : list slot) :
  h ⊆ h' -> Forall (slotAllocated h) slots ->
  map (slotValue h') slots = map (slotValue h) slots.
Proof.
  intros Hsub Hall. induction Hall as [|s slots Hs Hall IH]; [done |].
  cbn. f_equal; [by apply slotValue_mono | done].
Qed.

Lemma asRows_objects (os : list obj) (h : heap) (b : obj) :
  exists h' slots,
    asRows (JArr (map JObj os)) (h, b) = ((h', b), Ok slots) /\
    h ⊆ h' /\ Forall (slotAllocated h') slots /\
    map (slotValue h') slots = map JObj os.
Proof.
  cbn [asRows]. revert h. induction os as [|o os IH]; intros h.
  - exists h, []. by repeat split.
  - cbn [map mapM]. unfold bind at 1. unfold bind at 1.
    unfold liftHeap at 1.
    destruct (alloc_spec o h) as (l & -> & Hfresh).
    unfold ret at 1. set (h1 := <[l := o]> h).
    destruct (IH h1) as (h' & slots & Hrun & Hsub & Hal & Hval).
    unfold bind at 1. rewrite Hrun. unfold ret.
    assert (h' !! l = Some o) as Hl.
    { eapply lookup_weaken; [| exact Hsub]. apply lookup_insert_eq. }
    exists h', (Row l :: slots). split; [done |].
    split. { etrans; [| exact Hsub]. by apply insert_subseteq. }
    split. { constructor; [by exists o | done]. }
    cbn. f_equal; [| done]. unfold props. by rewrite Hl.
Qed.

(** The table at a plain name, when its array reads back from its text
    as it is. *)
Lemma fetchTable_array (name : string) (items : list jsval) (h : heap) (b : obj) :
  own b name = Some (JArr items) -> plainSegment name = true ->
  stringify (JArr items) = Some (JArr items) ->
  fetchTable fallback name (h, b) = ((h, b), Ok (JArr items)).
Proof.
  intros Hown Hname Hjson. unfold fetchTable, fetchJson. rewrite Hname.
  cbn [handle]. unfold tableHandler, hbind, gets, getProp. rewrite Hown.
  cbn [truthy]. unfold json, hret. cbn [body]. by rewrite Hjson.
Qed.


Lemma reloaded_later (b : obj) (h h' : heap) (n : string) (t : TableState) :
  h ⊆ h' -> reloaded b h n t -> reloaded b h' n t.
Proof.
  intros Hsub (Hn & Hc & Hal & Hown). repeat split; try done.
  - eapply Forall_impl; [exact Hal |]. intros s. by apply slotAllocated_mono.
  - by rewrite (slotValues_mono h h' _ Hsub Hal).
Qed.

Lemma reloadTable_spec (n : string) (h : heap) (b : obj) :
  served b n ->
  exists h' t,
    reloadTable fallback n (h, b) = ((h', b), Ok t) /\
    h ⊆ h' /\ reloaded b h' n t.
Proof.
  intros (v & Hown & Hname & [os Hos] & Hjson).
  destruct v as [| | | | |items| |]; try done.
  apply objectsOf_map in Hos. subst items.
  unfold reloadTable. unfold bind at 1.
  rewrite (fetchTable_array n _ h b Hown Hname Hjson).
  destruct (asRows_objects os h b) as (h' & slots & Hrun & Hsub & Hal & Hval).
  unfold bind at 1. rewrite Hrun. unfold ret.
  eexists h', _. split; [reflexivity |]. split; [done |].
  repeat split; try done. cbn. by rewrite Hval.
Qed.

Lemma reloadTables_spec (names : list string) (h : heap) (b : obj) :
  Forall (served b) names ->
  exists h' ts,
    mapM (reloadTable fallback) names (h, b) = ((h', b), Ok ts) /\
    h ⊆ h' /\ Forall2 (reloaded b h') names ts.
Proof.
  revert h. induction names as [|n names IH]; intros h Hall.
  - exists h, []. by repeat split.
  - apply Forall_cons in Hall as [Hn Hall].
    destruct (reloadTable_spec n h b Hn) as (h1 & t & Hrun1 & Hsub1 & Ht).
    destruct (IH h1 Hall) as (h' & ts & Hrun & Hsub & Hts).
    cbn [mapM]. unfold bind at 1. rewrite Hrun1.
    unfold bind at 1. rewrite Hrun. unfold ret.
    exists h', (t :: ts). split; [done |]. split; [by etrans |].
    constructor; [by eapply reloaded_later | done].
Qed.

Lemma asNames_strings (ks : list string) (s : heap * obj) :
  asNames (JArr (map JStr ks)) s = (s, Ok ks).
Proof.
  cbn [asNames]. induction ks as [|k ks IH]; [done |].
  cbn [map mapM]. unfold bind at 1. unfold ret at 1.
  unfold bind at 1. by rewrite IH.
Qed.

Lemma own_first (b : obj) (k : string) (v : jsval) :
  NoDup (keys b) -> (k, v) ∈ b -> own b k = Some v.
Proof.
  induction b as [|[k' v'] b IH]; intros Hnd Hin.
  - by apply elem_of_nil in Hin.
  - cbn in Hnd. apply NoDup_cons in Hnd as [Hk Hnd]. cbn.
    apply elem_of_cons in Hin as [[= -> ->]|Hin].
    + by rewrite String.eqb_refl.
    + destruct (String.eqb_spec k' k) as [->|Hne]; [| by apply IH].
      exfalso. apply Hk. unfold keys. apply list_elem_of_fmap.
      by exists (k, v).
Qed.

Lemma reloaded_entries (store : obj) (h' : heap) (b : obj)
    (ts : list TableState) :
  (forall kv, kv ∈ b -> own store (fst kv) = Some (snd kv)) ->
  Forall2 (reloaded store h') (keys b) ts ->
  map (fun t => (name t, JArr (map (slotValue h') (data t)))) ts = b.
Proof.
  revert ts. induction b as [|[k v] b IH]; intros ts Hown Hall.
  - by apply Forall2_nil_inv_l in Hall as ->.
  - cbn in Hall. apply Forall2_cons_inv_l in Hall as (t & ts' & Ht & Hts & ->).
    cbn. f_equal.
    + destruct Ht as (Hn & _ & _ & Hv).
      pose proof (Hown (k, v) ltac:(left)) as Hkv. cbn in Hkv.
      rewrite Hkv in Hv. injection Hv as <-. by rewrite Hn.
    + apply IH; [| done]. intros kv Hin. apply Hown. by right.
Qed.

Lemma reloaded_columns (b : obj) (h' : heap) (ns : list string)
    (ts : list TableState) :
  Forall2 (reloaded b h') ns ts -> Forall (fun t => columns t = None) ts.
Proof.
  induction 1 as [|n t ns ts Ht _ IH]; constructor; [| done].
  by destruct Ht as (_ & Hc & _).
Qed.

(** Reloading all the tables of a table store gives them back as they
    are in the store, each without columns. *)
Lemma tableStore_own (b : obj) (kv : string * jsval) :
  tableStore b -> kv ∈ b -> own b (fst kv) = Some (snd kv).
Proof. intros [Hnd _] Hin. destruct kv as [k v]. by apply own_first. Qed.

Lemma tableStore_served (b : obj) : tableStore b -> Forall (served b) (keys b).
Proof.
  intros Hstore. pose proof Hstore as [_ Hrows].
  unfold keys. apply Forall_fmap, Forall_forall. intros kv Hin. cbn.
  exists (snd kv). split; [by apply tableStore_own |].
  by eapply Forall_forall in Hrows.
Qed.

(** The names of the tables, as the page reads them. *)
Lemma fetchJson_tables (h : heap) (b : obj) :
  fetchJson fallback GetTables (h, b) = ((h, b), Ok (JArr (map JStr (keys b)))).
Proof.
  unfold fetchJson. cbn [handle].
  unfold tablesHandler, hbind, gets, json, hret. cbn [body].
  by rewrite stringify_strings.
Qed.

Lemma fetchAll_reload (h : heap) (b : obj) :
  tableStore b ->
  exists h' ts,
    fetchAll fallback (reloadTable fallback) (h, b) = ((h', b), Ok ts) /\
    h ⊆ h' /\
    map (fun t => (name t, JArr (map (slotValue h') (data t)))) ts = b /\
    Forall (fun t => columns t = None) ts.
Proof.
  intros Hstore.
  destruct (reloadTables_spec (keys b) h b) as (h' & ts & Hrun & Hsub & Hts);
    [by apply tableStore_served |].
  exists h', ts. split; [| split; [done | split]].
  - unfold fetchAll. unfold bind at 1. rewrite fetchJson_tables.
    unfold bind at 1. rewrite asNames_strings. exact Hrun.
  - apply (reloaded_entries b); [| done].
    intros kv. by apply tableStore_own.
  - by eapply reloaded_columns.
Qed.

Lemma mockData_tableStore : tableStore mockData.
Proof.
  split; [compute_done |].
  repeat constructor; try (by eexists); by vm_compute.
Qed.

Lemma reset_snapshot (w : World eng) :
  tableStore (backend w) ->
  snapshot (resetToDefault eng fallback w) = backend w /\
  Forall (fun t => columns t = None)
    (tables (app (resetToDefault eng fallback w))).
Proof.
  intros Hstore. unfold resetToDefault.
  destruct (fetchAll_reload (objects w) (backend w) Hstore)
    as (h' & ts & -> & _ & Hsnap & Hcols).
  by split.
Qed.

(** C7. No operation of the page changes the data of the backend: the
    server's routes are all GET routes and no handler writes the store,
    so after any sequence of operations the store is the mock data, and
    fetching the tables again gives the hardcoded rows. *)
Theorem client_leaves_backend (ops : list op) (d : DB eng) :
  (forall production, Forall (fun r => rmethod r = "GET") (routes production)) /\
  backend (run rt eng fallback ops (initial eng d)) = mockData /\
  snapshot (resetToDefault eng fallback (run rt eng fallback ops (initial eng d)))
  = mockData.
Proof.
  split. { intros []; repeat constructor. }
  assert (backend (run rt eng fallback ops (initial eng d)) = mockData) as Hb
    by by rewrite run_backend.
  split; [done |].
  destruct (reset_snapshot (run rt eng fallback ops (initial eng d))) as [Hs _].
  { rewrite Hb. apply mockData_tableStore. }
  by rewrite Hs.
Qed.

(** C10, at the Reset to Default click: whatever happened before, the
    handler sets the three tables of the backend with no [columns]
    property, so the state after it does not have the columns defined. *)
Theorem reset_loses_columns (ops : list op) (d : DB eng) :
  let w := resetToDefault eng fallback (run rt eng fallback ops (initial eng d)) in
  map name (tables (app w)) = ["users"; "roles"; "orders"] /\
  Forall (fun t => columns t = None) (tables (app w)) /\
  ~ columnsDefined w.
Proof.
  cbn zeta.
  assert (tableStore (backend (run rt eng fallback ops (initial eng d)))) as Hstore.
  { rewrite run_backend. apply mockData_tableStore. }
  destruct (reset_snapshot _ Hstore) as [Hsnap Hcols].
  rewrite run_backend in Hsnap. cbn [initial backend] in Hsnap.
  assert (map name (tables (app (resetToDefault eng fallback
            (run rt eng fallback ops (initial eng d)))))
          = ["users"; "roles"; "orders"]) as Hnames.
  { change ["users"; "roles"; "orders"] with (map fst mockData).
    rewrite <- Hsnap. unfold snapshot. by rewrite map_map. }
  split; [done |]. split; [done |].
  unfold columnsDefined. intros Hdef.
  destruct (tables (app (resetToDefault eng fallback
              (run rt eng fallback ops (initial eng d))))) as [|t ts]; [done |].
  apply Forall_cons in Hdef as [[c Hc] _].
  apply Forall_cons in Hcols as [Hn _]. congruence.
Qed.

(** *** The columns of the tables *)

Lemma Forall2_Forall_columns (Q : TableState -> TableState -> Prop)
    (ts ts' : list TableState) :
  (forall t t', Q t t' -> is_Some (columns t) -> is_Some (columns t')) ->
  Forall2 Q ts ts' ->
  Forall (fun t => is_Some (columns t)) ts ->
  Forall (fun t => is_Some (columns t)) ts'.
Proof.
  intros HQ Hall. induction Hall as [|t t' ts ts' Ht _ IH]; [done |].
  intros [Hc Hcs]%Forall_cons. constructor; [by eapply HQ | by apply IH].
Qed.

Lemma updateCell_columns tableName rowIndex key value ts h h' ts' :
  updateCell tableName rowIndex key value ts h = (h', Ok ts') ->
  Forall2 (fun t t' => columns t' = columns t) ts ts'.
Proof.
  apply mapM_Forall2. intros t s s' t' Hrun. unfold cellUpdater in Hrun.
  destruct (String.eqb (name t) tableName); run_binds Hrun.
Qed.

Lemma addRow_columns now tableName ts h h' ts' :
  addRow now tableName ts h = (h', Ok ts') ->
  Forall2 (fun t t' => columns t' = columns t) ts ts'.
Proof.
  apply mapM_Forall2. intros t s s' t' Hrun. unfold rowAdder in Hrun.
  destruct (String.eqb (name t) tableName); run_binds Hrun.
Qed.

Lemma updateColumnType_columns tableName columnName newType ts h h' ts' :
  updateColumnType tableName columnName newType ts h = (h', Ok ts') ->
  Forall2 (fun t t' => is_Some (columns t) -> is_Some (columns t')) ts ts'.
Proof.
  apply mapM_Forall2. intros t s s' t' Hrun. unfold typeUpdater in Hrun.
  destruct (String.eqb (name t) tableName) eqn:Hn.
  - destruct (columns t) as [cols|] eqn:Hc; run_binds Hrun.
  - run_binds Hrun.
Qed.

Lemma setTables_columnsDefined updater (w : World eng) :
  (forall ts h h' ts', updater ts h = (h', Ok ts') ->
     Forall2 (fun t t' => is_Some (columns t) -> is_Some (columns t')) ts ts') ->
  columnsDefined w -> columnsDefined (setTables eng updater w).
Proof.
  intros Hup Hw. unfold setTables, columnsDefined in *.
  destruct (updater _ _) as [h [ts|msg|]] eqn:Hrun; try done. cbn.
  eapply Forall2_Forall_columns; [| by eapply Hup | done]. auto.
Qed.

Lemma loadTable_columns n s s' t :
  loadTable fallback n s = (s', Ok t) -> is_Some (columns t).
Proof. unfold loadTable. intros Hrun. run_binds Hrun. Qed.

Lemma fetchData_columnsDefined (w : World eng) :
  columnsDefined w -> columnsDefined (fetchData eng fallback w).
Proof.
  intros Hw. unfold fetchData, columnsDefined in *.
  destruct (fetchAll _ _ _) as [s [ts|msg|]] eqn:Hrun; try done. cbn.
  unfold fetchAll in Hrun. unfold bind at 1 in Hrun.
  destruct (fetchJson _ _ _) as [s1 [v|msg|]]; try done.
  unfold bind at 1 in Hrun.
  destruct (asNames _ _) as [s2 [names|msg|]]; try done.
  apply (mapM_Forall2 _ (fun _ t => is_Some (columns t))) in Hrun.
  - clear -Hrun. induction Hrun; by constructor.
  - intros n ?? t. apply loadTable_columns.
Qed.

Lemma clickRun_columnsDefined (w : World eng) :
  columnsDefined w -> columnsDefined (clickRun rt eng w).
Proof.
  intros Hw. unfold clickRun, runQuery, columnsDefined in *.
  destruct (tryBlock _ _ _ _) as [[h d] [v|msg|]]; done.
Qed.

(** X10. Every operation other than Reset to Default keeps the columns
    defined: if every table of the page has its [columns] before the
    operation, every table has them after it. *)
Lemma step_columnsDefined (w : World eng) (o : op) :
  o ≠ ResetToDefault ->
  columnsDefined w -> columnsDefined (step rt eng fallback w o).
Proof.
  intros Ho Hw. unfold step. destruct (phase w); [| done | done].
  destruct o; try done.
  - by apply fetchData_columnsDefined.
  - apply setTables_columnsDefined; [| done]. intros ts h h' ts' Hrun.
    eapply Forall2_impl; [by eapply updateCell_columns |]. by intros ?? ->.
  - apply setTables_columnsDefined; [| done]. intros ts h h' ts' Hrun.
    eapply Forall2_impl; [by eapply addRow_columns |]. by intros ?? ->.
  - apply setTables_columnsDefined; [| done]. intros ts h h' ts' Hrun.
    by eapply updateColumnType_columns.
  - by apply clickRun_columnsDefined.
Qed.

End WorldFacts.

(** ** What every reachable state satisfies *)

Section InvariantFacts.
Import Server Client World.
Context (rt : Runtime) (eng : Engine) (fallback : string -> string -> response).

Lemma goodTable_mono (t : TableState) (h h' : heap) :
  h ⊆ h' -> goodTable t h -> goodTable t h'.
Proof. intros Hsub [Hal Hnd]. split; [by eapply allocated_mono | done]. Qed.

Lemma mapM_good (f : TableState -> M heap TableState) (ts : list TableState)
    (h h' : heap) (ts' : list TableState) :
  (forall t, stable (⊆) (f t)) ->
  (forall t h h1 t', f t h = (h1, Ok t') -> goodTable t h -> goodTable t' h1) ->
  mapM f ts h = (h', Ok ts') ->
  Forall (fun t => goodTable t h) ts -> Forall (fun t => goodTable t h') ts'.
Proof.
  intros Hst Hf. revert h ts'. induction ts as [|t ts IH]; intros h ts'.
  - cbn. unfold ret. intros [= <- <-]. constructor.
  - cbn [mapM]. unfold bind at 1.
    destruct (f t h) as [h1 [t1|msg|]] eqn:Hft; try done.
    unfold bind at 1.
    destruct (mapM f ts h1) as [h2 [ts1|msg|]] eqn:Hrest; try done.
    unfold ret. intros [= <- <-] [Ht Hts]%Forall_cons.
    assert (h ⊆ h1) as Hsub1 by by eapply Hst.
    assert (h1 ⊆ h2) as Hsub2.
    { exact (stable_mapM (⊆) f ts Hst _ _ _ Hrest). }
    constructor.
    + eapply goodTable_mono; [exact Hsub2 |]. by eapply Hf.
    + eapply IH; [exact Hrest |].
      eapply Forall_impl; [exact Hts |]. intros t0. by apply goodTable_mono.
Qed.

Lemma spreadArray_allocated (h : heap) (a : list slot) :
  Forall (slotAllocated h) a -> Forall (slotAllocated h) (spreadArray a).
Proof.
  intros Hall. unfold spreadArray. apply Forall_fmap.
  eapply Forall_impl; [exact Hall |]. by intros [| |l].
Qed.

Lemma writeIdx_allocated (h : heap) (a d : list slot) (i : nat) (s : slot) :
  Forall (slotAllocated h) a -> slotAllocated h s ->
  writeIdx a i s = Some d -> Forall (slotAllocated h) d.
Proof.
  intros Hall Hs. unfold writeIdx. destruct (Nat.ltb i (length a)).
  - intros [= <-]. by apply Forall_insert.
  - destruct (isArrayIndex i); [| done]. intros [= <-].
    apply Forall_app. split; [done |]. apply Forall_app. split.
    + by apply Forall_replicate.
    + by constructor.
Qed.

Lemma cellUpdater_stable tableName rowIndex key value (t : TableState) :
  stable (⊆) (cellUpdater tableName rowIndex key value t).
Proof.
  unfold cellUpdater. destruct (String.eqb _ _); [| by stable_step].
  stable_step; [| intros l; destruct (writeIdx _ _ _); by stable_step].
  intros h h' r. apply alloc_stable.
Qed.

Lemma rowAdder_stable now tableName (t : TableState) :
  stable (⊆) (rowAdder now tableName t).
Proof.
  unfold rowAdder. destruct (String.eqb _ _); [| by stable_step].
  stable_step; [| intros; by stable_step].
  destruct (Nat.ltb _ _); [| apply alloc_stable].
  destruct (readIdx _ _); try (by stable_step).
  intros h h' r. apply alloc_stable.
Qed.

Lemma typeUpdater_stable tableName columnName newType (t : TableState) :
  stable (⊆) (typeUpdater tableName columnName newType t).
Proof.
  unfold typeUpdater. destruct (String.eqb _ _); [| by stable_step].
  destruct (columns t); by stable_step.
Qed.

Lemma allocated_slots_iff (h : heap) (t : TableState) :
  allocated h t <-> Forall (slotAllocated h) (data t).
Proof. split; [apply allocated_Forall | apply allocated_slots]. Qed.

Lemma cellUpdater_good tableName rowIndex key value t h h1 t' :
  cellUpdater tableName rowIndex key value t h = (h1, Ok t') ->
  goodTable t h -> goodTable t' h1.
Proof.
  unfold cellUpdater. intros Hrun [Hal Hnd].
  destruct (String.eqb _ _); [| run_binds Hrun; by split].
  unfold bind in Hrun.
  destruct (alloc_spec
    (set (spreadSlot h (readIdx (spreadArray (data t)) rowIndex)) key value) h)
    as (l & Hl & Hfresh).
  rewrite Hl in Hrun.
  destruct (writeIdx _ _ _) as [newData|] eqn:Hw; [| done].
  unfold ret in Hrun. injection Hrun as <- <-.
  split; [| done]. apply allocated_slots_iff. cbn.
  assert (h ⊆ <[l := set (spreadSlot h (readIdx (spreadArray (data t)) rowIndex))
                       key value]> h) as Hsub by by apply insert_subseteq.
  eapply writeIdx_allocated; [| | exact Hw].
  - apply spreadArray_allocated. apply allocated_slots_iff.
    by eapply allocated_mono.
  - cbn. rewrite lookup_insert_eq. by eexists.
Qed.

Lemma rowAdder_good now tableName t h h1 t' :
  rowAdder now tableName t h = (h1, Ok t') ->
  goodTable t h -> goodTable t' h1.
Proof.
  unfold rowAdder. intros Hrun [Hal Hnd].
  destruct (String.eqb _ _); [| run_binds Hrun; by split].
  unfold bind in Hrun.
  match type of Hrun with
  | match ?m h with _ => _ end = _ =>
      destruct (m h) as [h2 [l|msg|]] eqn:Hm; try done;
      assert (h ⊆ h2 /\ is_Some (h2 !! l)) as [Hsub Hl]
  end.
  { destruct (Nat.ltb _ _).
    - destruct (readIdx _ _); try done.
      match type of Hm with alloc ?o h = _ =>
        destruct (alloc_spec o h) as (l' & Hl' & Hfresh) end.
      rewrite Hl' in Hm. injection Hm as <- <-.
      split; [by apply insert_subseteq |]. rewrite lookup_insert_eq. by eexists.
    - match type of Hm with alloc ?o h = _ =>
        destruct (alloc_spec o h) as (l' & Hl' & Hfresh) end.
      rewrite Hl' in Hm. injection Hm as <- <-.
      split; [by apply insert_subseteq |]. rewrite lookup_insert_eq. by eexists. }
  unfold ret in Hrun. injection Hrun as <- <-.
  split; [| done]. apply allocated_slots_iff. cbn.
  apply Forall_app. split; [| by constructor].
  apply spreadArray_allocated, allocated_slots_iff. by eapply allocated_mono.
Qed.

Lemma typeUpdater_good tableName columnName newType t h h1 t' :
  typeUpdater tableName columnName newType t h = (h1, Ok t') ->
  goodTable t h -> goodTable t' h1.
Proof.
  unfold typeUpdater. intros Hrun [Hal Hnd].
  destruct (String.eqb _ _); [| run_binds Hrun; by split].
  destruct (columns t) as [cols|] eqn:Hc; run_binds Hrun.
  split; [done |]. cbn. intros ? [= <-].
  rewrite map_map. cbn.
  erewrite map_ext; [by apply Hnd |]. intros c. cbn. by destruct (String.eqb _ _).
Qed.

Lemma setTables_wellFormed (f : TableState -> M heap TableState) (w : World eng) :
  (forall t, stable (⊆) (f t)) ->
  (forall t h h1 t', f t h = (h1, Ok t') -> goodTable t h -> goodTable t' h1) ->
  wellFormed w -> wellFormed (setTables eng (mapM f) w).
Proof.
  intros Hst Hf Hw. unfold setTables, wellFormed in *.
  destruct (mapM f (tables (app w)) (objects w)) as [h r] eqn:Hrun.
  assert (objects w ⊆ h) as Hsub
    by exact (stable_mapM (⊆) f _ Hst _ _ _ Hrun).
  destruct r as [ts|msg|]; cbn.
  - by eapply mapM_good.
  - eapply Forall_impl; [exact Hw |]. intros t. by apply goodTable_mono.
  - eapply Forall_impl; [exact Hw |]. intros t. by apply goodTable_mono.
Qed.

Lemma clickRun_wellFormed (w : World eng) :
  wellFormed w -> wellFormed (clickRun rt eng w).
Proof.
  intros Hw. unfold clickRun, runQuery, wellFormed in *.
  destruct (tryBlock rt eng (app w) (objects w, db w)) as [[h d] r] eqn:Hrun.
  apply tryBlock_stable in Hrun. unfold heapGrows in Hrun. cbn in Hrun.
  destruct r; cbn; (eapply Forall_impl; [exact Hw |]);
    intros t; by apply goodTable_mono.
Qed.

(** *** Loading *)

Lemma asRows_Ok (v : jsval) (s s' : heap * obj) (slots : list slot) :
  asRows v s = (s', Ok slots) -> is_Some (asObjects v).
Proof.
  destruct v as [| | | | |items| |]; try done. cbn [asRows asObjects].
  revert s s' slots. induction items as [|it items IH]; intros s s' slots.
  - by eexists.
  - cbn [mapM objectsOf]. unfold bind at 1.
    destruct it as [| | | | | |o|]; try done.
    destruct ((let* l := liftHeap (alloc o) in ret (Row l)) s)
      as [s1 [sl|msg|]]; try done.
    unfold bind at 1.
    destruct (mapM _ items s1) as [s2 [sls|msg|]] eqn:Hrest; try done.
    intros _. destruct (IH _ _ _ Hrest) as [os ->]. by eexists.
Qed.

Lemma own_elem (b : obj) (k : string) (v : jsval) :
  own b k = Some v -> (k, v) ∈ b.
Proof.
  induction b as [|[k' v'] b IH]; [done |]. cbn.
  destruct (String.eqb_spec k' k) as [->|Hne].
  - intros [= ->]. by left.
  - intros Hown. right. by apply IH.
Qed.

Lemma getProp_array (b : obj) (k : string) (items : list jsval) :
  getProp b k = JArr items -> own b k = Some (JArr items).
Proof.
  unfold getProp. destruct (own b k) as [v|]; [by intros -> |].
  destruct (own ObjectPrototype k) as [v|] eqn:Hp; [| done]. cbn.
  intros ->. unfold ObjectPrototype in Hp. cbn in Hp.
  repeat (case_match; simplify_eq).
Qed.

(** What reads back as an array was written from an array, element by
    element. *)
Lemma stringify_array (v : jsval) (items' : list jsval) :
  stringify v = Some (JArr items') ->
  exists items, v = JArr items /\
    items' = map (fun item => default JNull (stringify item)) items.
Proof.
  destruct v as [| | |n| |items| |]; cbn [stringify]; try done.
  - by repeat case_match.
  - intros [= <-]. by exists items.
Qed.

(** What reads back as an object was written from an object, and has no
    key the object has not. *)
Lemma stringify_object (item : jsval) (o' : obj) :
  default JNull (stringify item) = JObj o' ->
  exists o, item = JObj o /\ keys o' `sublist_of` keys o.
Proof.
  destruct item as [| | |n| | |o|]; cbn [stringify default]; try done.
  - by repeat case_match.
  - intros [= <-]. exists o. split; [done |].
    induction o as [|[k x] o IH]; [done |]. cbn.
    destruct (stringify x); cbn; [by apply sublist_skip | by apply sublist_cons].
Qed.

Lemma stringify_objects (items : list jsval) (os' : list obj) :
  map (fun item => default JNull (stringify item)) items = map JObj os' ->
  exists os, items = map JObj os /\
    Forall2 (fun o o' => keys o' `sublist_of` keys o) os os'.
Proof.
  revert os'. induction items as [|item items IH]; intros [|o' os'] Heq;
    try done.
  - by exists [].
  - cbn in Heq. injection Heq as Hitem Hrest.
    destruct (stringify_object _ _ Hitem) as (o & -> & Hsub).
    destruct (IH _ Hrest) as (os & -> & Hall).
    exists (o :: os). split; [done | by constructor].
Qed.

(** A table that reads as an array of objects is one in the store. *)
Lemma fetchTable_Ok (n : string) (h : heap) (b : obj) (s' : heap * obj)
    (os' : list obj) :
  fetchTable fallback n (h, b) = (s', Ok (JArr (map JObj os'))) ->
  s' = (h, b) /\
  exists os, own b n = Some (JArr (map JObj os)) /\
    Forall2 (fun o o' => keys o' `sublist_of` keys o) os os'.
Proof.
  unfold fetchTable. destruct (plainSegment n); [| done].
  unfold fetchJson. cbn [handle].
  unfold tableHandler, hbind, gets, json, status_json, hret.
  destruct (truthy (getProp b n)); cbn [body]; [| done].
  destruct (stringify (getProp b n)) as [v|] eqn:Hv; [| done].
  intros [= <- ->]. split; [done |].
  destruct (stringify_array _ _ Hv) as (items & Hget & Hitems).
  symmetry in Hitems. destruct (stringify_objects _ _ Hitems) as (os & -> & Hall).
  exists os. split; [by apply getProp_array | done].
Qed.

Lemma inferColumns_objects (slots : list slot) (os : list obj) (h : heap) :
  map (slotValue h) slots = map JObj os ->
  inferColumns slots h = (h, Ok (inferred os)).
Proof.
  intros Hval. unfold inferColumns, readIdx.
  destruct slots as [|sl slots], os as [|o os]; try done.
  cbn in Hval. injection Hval as Hsl _.
  destruct sl as [| |l]; try done. cbn in *. by injection Hsl as ->.
Qed.

Lemma loadTable_Ok (n : string) (h : heap) (b : obj) (s' : heap * obj)
    (t : TableState) :
  loadTable fallback n (h, b) = (s', Ok t) ->
  exists os os',
    (n, JArr (map JObj os)) ∈ b /\
    Forall2 (fun o o' => keys o' `sublist_of` keys o) os os' /\
    name t = n /\ columns t = Some (inferred os') /\
    Forall (slotAllocated (fst s')) (data t) /\
    map (slotValue (fst s')) (data t) = map JObj os'.
Proof.
  unfold loadTable. unfold bind at 1.
  destruct (fetchTable fallback n (h, b)) as [s1 [v|msg|]] eqn:Hf;
    try done.
  unfold bind at 1.
  destruct (asRows v s1) as [s2 [slots|msg|]] eqn:Hrows; try done.
  destruct (asRows_Ok _ _ _ _ Hrows) as [os' Hos].
  destruct v as [| | | | |items| |]; try done.
  apply objectsOf_map in Hos. subst items.
  apply fetchTable_Ok in Hf as [-> (os & Hown & Hkeys)].
  destruct (asRows_objects os' h b) as (h' & slots' & Hrun & Hsub & Hal & Hval).
  rewrite Hrun in Hrows. injection Hrows as <- <-.
  unfold bind at 1, liftHeap. rewrite (inferColumns_objects _ os' h' Hval).
  unfold ret. intros [= <- <-]. exists os, os'. cbn.
  split; [by apply own_elem |]. by repeat split.
Qed.

Lemma inferred_names (os : list obj) :
  map cname (inferred os) = match os with o :: _ => keys o | [] => [] end.
Proof.
  destruct os as [|o os]; [done |]. cbn. rewrite map_map. cbn. by rewrite map_id.
Qed.

Lemma inferred_NoDup (b : obj) (n : string) (os os' : list obj) :
  firstKeysDistinct b -> (n, JArr (map JObj os)) ∈ b ->
  Forall2 (fun o o' => keys o' `sublist_of` keys o) os os' ->
  NoDup (map cname (inferred os')).
Proof.
  intros Hb Hin Hkeys. eapply Forall_forall in Hb; [| exact Hin]. cbn in Hb.
  assert (objectsOf (map JObj os) = Some os) as Hos.
  { clear. induction os as [|o os IH]; [done |]. cbn. by rewrite IH. }
  rewrite Hos in Hb. rewrite inferred_names.
  destruct Hkeys as [|o o' os os' Hsub _]; [constructor |].
  by eapply sublist_NoDup.
Qed.

Lemma loadTable_good (n : string) (s s' : heap * obj) (t : TableState) :
  firstKeysDistinct (snd s) ->
  loadTable fallback n s = (s', Ok t) -> goodTable t (fst s').
Proof.
  destruct s as [h b]. intros Hb Hrun.
  destruct (loadTable_Ok _ _ _ _ _ Hrun)
    as (os & os' & Hin & Hkeys & Hn & Hc & Hal & Hval).
  split; [by apply allocated_slots |].
  intros cols Hcols. rewrite Hc in Hcols. injection Hcols as <-.
  by eapply inferred_NoDup.
Qed.

Lemma reloadTable_good (n : string) (s s' : heap * obj) (t : TableState) :
  reloadTable fallback n s = (s', Ok t) -> goodTable t (fst s').
Proof.
  destruct s as [h b]. unfold reloadTable. unfold bind at 1.
  destruct (fetchTable fallback n (h, b)) as [s1 [v|msg|]] eqn:Hf;
    try done.
  unfold bind at 1.
  destruct (asRows v s1) as [s2 [slots|msg|]] eqn:Hrows; try done.
  destruct (asRows_Ok _ _ _ _ Hrows) as [os Hos].
  destruct v as [| | | | |items| |]; try done.
  apply objectsOf_map in Hos. subst items.
  apply fetchTable_Ok in Hf as [-> _].
  destruct (asRows_objects os h b) as (h' & slots' & Hrun & Hsub & Hal & Hval).
  rewrite Hrun in Hrows. injection Hrows as <- <-.
  unfold ret. intros [= <- <-]. split; [by apply allocated_slots | done].
Qed.

Lemma mapM_loaded (P : obj -> Prop)
    (load : string -> M (heap * obj) TableState)
    (names : list string) (s s' : heap * obj) (ts : list TableState) :
  (forall n, stable backendKept (load n)) ->
  (forall n s s' t, P (snd s) -> load n s = (s', Ok t) -> goodTable t (fst s')) ->
  P (snd s) ->
  mapM load names s = (s', Ok ts) ->
  Forall (fun t => goodTable t (fst s')) ts.
Proof.
  intros Hst Hload. revert s ts. induction names as [|n names IH]; intros s ts HP.
  - cbn. unfold ret. intros [= <- <-]. constructor.
  - cbn [mapM]. unfold bind at 1.
    destruct (load n s) as [s1 [t|msg|]] eqn:Hl; try done.
    unfold bind at 1.
    destruct (mapM load names s1) as [s2 [ts1|msg|]] eqn:Hrest; try done.
    unfold ret. intros [= <- <-].
    destruct (Hst n _ _ _ Hl) as [_ Hb1].
    assert (backendKept s1 s2) as [Hsub _].
    { exact (stable_mapM backendKept load names Hst _ _ _ Hrest). }
    constructor.
    + eapply goodTable_mono; [exact Hsub |]. by eapply Hload.
    + eapply IH; [| exact Hrest]. by rewrite Hb1.
Qed.

Lemma fetchAll_good (P : obj -> Prop)
    (load : string -> M (heap * obj) TableState)
    (s s' : heap * obj) (ts : list TableState) :
  (forall n, stable backendKept (load n)) ->
  (forall n s s' t, P (snd s) -> load n s = (s', Ok t) -> goodTable t (fst s')) ->
  P (snd s) ->
  fetchAll fallback load s = (s', Ok ts) ->
  Forall (fun t => goodTable t (fst s')) ts.
Proof.
  intros Hst Hload HP. unfold fetchAll. unfold bind at 1.
  destruct (fetchJson fallback GetTables s) as [s1 [v|msg|]] eqn:Hf; try done.
  unfold bind at 1.
  destruct (asNames v s1) as [s2 [names|msg|]] eqn:Hn; try done.
  apply (mapM_loaded P); [done | done |].
  destruct (fetchJson_stable fallback _ _ _ _ Hf) as [_ E1].
  destruct (asNames_stable _ _ _ _ Hn) as [_ E2]. by rewrite E2, E1.
Qed.

Lemma fetched_kept (load : string -> M (heap * obj) TableState)
    (w : World eng) (s : heap * obj) (r : res (list TableState)) :
  (forall n, stable backendKept (load n)) ->
  fetchAll fallback load (objects w, backend w) = (s, r) ->
  wellFormed w ->
  Forall (fun t => goodTable t (fst s)) (tables (app w)).
Proof.
  intros Hst Hrun Hw.
  destruct (fetchAll_stable fallback load Hst _ _ _ Hrun) as [Hsub _].
  eapply Forall_impl; [exact Hw |]. intros t. by apply goodTable_mono.
Qed.

Lemma fetchData_wellFormed (w : World eng) :
  firstKeysDistinct (backend w) ->
  wellFormed w -> wellFormed (fetchData eng fallback w).
Proof.
  intros Hb Hw. unfold fetchData.
  destruct (fetchAll fallback (loadTable fallback) (objects w, backend w))
    as [s r] eqn:Hrun.
  pose proof (fetched_kept _ w s r (loadTable_stable fallback) Hrun Hw) as Hold.
  destruct r as [ts|msg|]; try exact Hold.
  unfold wellFormed. cbn.
  eapply (fetchAll_good firstKeysDistinct);
    [apply loadTable_stable | | | exact Hrun]; [| done].
  intros n sa sb t HP Hload. by eapply loadTable_good.
Qed.

Lemma resetToDefault_wellFormed (w : World eng) :
  wellFormed w -> wellFormed (resetToDefault eng fallback w).
Proof.
  intros Hw. unfold resetToDefault.
  destruct (fetchAll fallback (reloadTable fallback) (objects w, backend w))
    as [s r] eqn:Hrun.
  pose proof (fetched_kept _ w s r (reloadTable_stable fallback) Hrun Hw) as Hold.
  destruct r as [ts|msg|]; try exact Hold.
  unfold wellFormed. cbn.
  eapply (fetchAll_good (fun _ => True));
    [apply reloadTable_stable | | | exact Hrun]; [| done].
  intros n sa sb t _ Hload. by eapply reloadTable_good.
Qed.

(** Every operation keeps the page well formed. *)
Lemma step_wellFormed (w : World eng) (o : op) :
  firstKeysDistinct (backend w) ->
  wellFormed w -> wellFormed (step rt eng fallback w o).
Proof.
  intros Hb Hw. unfold step. destruct (phase w); [| done | done].
  destruct o.
  - by apply fetchData_wellFormed.
  - apply setTables_wellFormed;
      [apply cellUpdater_stable | apply cellUpdater_good | done].
  - apply setTables_wellFormed;
      [apply rowAdder_stable | apply rowAdder_good | done].
  - apply setTables_wellFormed;
      [apply typeUpdater_stable | apply typeUpdater_good | done].
  - done.
  - by apply clickRun_wellFormed.
  - by apply resetToDefault_wellFormed.
Qed.

Lemma mockData_firstKeysDistinct : firstKeysDistinct mockData.
Proof. repeat constructor; cbn; compute_done. Qed.

(** X11. In every state the page reaches, the row objects of the tables
    are in the store and the column names of each table are distinct. *)
Lemma run_wellFormed (ops : list op) (d : DB eng) :
  wellFormed (run rt eng fallback ops (initial eng d)).
Proof.
  assert (forall w : World eng,
            backend w = mockData -> wellFormed w ->
            wellFormed (run rt eng fallback ops w)) as Hrun.
  { induction ops as [|o ops IH]; intros w Hb Hw; [done |].
    cbn. apply IH.
    - by rewrite step_backend.
    - apply step_wellFormed; [| done]. rewrite Hb.
      apply mockData_firstKeysDistinct. }
  apply Hrun; [done | constructor].
Qed.

End InvariantFacts.

(** Loading and then resetting: the three tables have no columns, and a
    query run then fails in the cast, before the engine sees anything. *)
Example reset_then_query (d : Client.DB Ref.miniSql) :
  let w := World.run Ref.refRuntime Ref.miniSql Ref.noPage
             [World.Mount; World.ResetToDefault; World.ExecuteQuery]
             (World.initial Ref.miniSql d) in
  World.phase w = World.Live /\
  map Client.columns (Client.tables (World.app w)) = [None; None; None] /\
  Client.queryError (World.app w)
  = Some "Cannot read properties of undefined (reading 'forEach')" /\
  World.db w = d.
Proof. vm_compute. auto. Qed.

(** Loading alone infers the columns from the first row of each table. *)
Example mount_columns :
  map Client.columns
    (Client.tables (World.app
       (World.fetchData Ref.miniSql Ref.noPage (World.initial Ref.miniSql []))))
  = [ Some [ {| Client.cname := "id"; Client.ctype := Client.TNumber |};
             {| Client.cname := "name"; Client.ctype := Client.TString |};
             {| Client.cname := "email"; Client.ctype := Client.TString |};
             {| Client.cname := "role_id"; Client.ctype := Client.TNumber |} ];
      Some [ {| Client.cname := "id"; Client.ctype := Client.TNumber |};
             {| Client.cname := "role_name"; Client.ctype := Client.TString |};
             {| Client.cname := "permissions"; Client.ctype := Client.TString |} ];
      Some [ {| Client.cname := "id"; Client.ctype := Client.TNumber |};
             {| Client.cname := "user_id"; Client.ctype := Client.TNumber |};
             {| Client.cname := "product"; Client.ctype := Client.TString |};
             {| Client.cname := "amount"; Client.ctype := Client.TNumber |} ] ].
Proof. vm_compute. reflexivity. Qed.

(** * More of the page

    The properties below are read off the code of the updaters, of the
    loading, of [runQuery], of the table route and of the controls of the
    page. *)

(** ** The updaters *)

Section UpdaterFacts.
Import Client.

Lemma mapM_tables (f : TableState -> M heap TableState)
    (P : TableState -> Prop)
    (Q : heap -> heap -> TableState -> TableState -> Prop)
    (ts : list TableState) (h : heap) :
  (forall t h, P t -> allocated h t ->
     exists h1 t', f t h = (h1, Ok t') /\ h ⊆ h1 /\ Q h h1 t t') ->
  (forall h h1 h2 t t', h1 ⊆ h2 -> Q h h1 t t' -> Q h h2 t t') ->
  (forall h0 h h2 t t', allocated h0 t -> h0 ⊆ h -> Q h h2 t t' -> Q h0 h2 t t') ->
  Forall P ts -> Forall (allocated h) ts ->
  exists h' ts', mapM f ts h = (h', Ok ts') /\ h ⊆ h' /\ Forall2 (Q h h') ts ts'.
Proof.
  intros Hstep Hlater Hearlier. revert h.
  induction ts as [|t ts IH]; intros h HP Hal.
  - exists h, []. by repeat split.
  - apply Forall_cons in HP as [Pt HP]. apply Forall_cons in Hal as [Ht Hal].
    destruct (Hstep t h Pt Ht) as (h1 & t' & Hf & Hsub & HQ).
    destruct (IH h1 HP) as (h' & ts' & Hrun & Hsub' & Hall).
    { eapply Forall_impl; [exact Hal |]. intros t0. by apply allocated_mono. }
    exists h', (t' :: ts'). cbn [mapM]. unfold bind at 1. rewrite Hf.
    unfold bind at 1. rewrite Hrun. split; [done |]. split; [by etrans |].
    constructor; [by eapply Hlater |].
    eapply Forall2_impl_Forall; [exact Hal | exact Hall |].
    intros t0 t0' Ht0. by apply Hearlier.
Qed.

Lemma own_fold_set (v : jsval) (ks : list string) (acc : obj) (k : string) :
  own (fold_left (fun acc key => set acc key v) ks acc) k
  = if bool_decide (k ∈ ks) then Some v else own acc k.
Proof.
  revert acc. induction ks as [|k0 ks IH]; intros acc; cbn [fold_left].
  - done.
  - rewrite IH. destruct (decide (k = k0)) as [->|Hne].
    + rewrite own_set_eq. rewrite (bool_decide_eq_true_2 (k0 ∈ k0 :: ks)) by left.
      by destruct (bool_decide _).
    + rewrite own_set_ne by done.
      destruct (decide (k ∈ ks)) as [Hin|Hin].
      * rewrite !bool_decide_eq_true_2; [done | by right | done].
      * rewrite !bool_decide_eq_false_2; [done | | done].
        rewrite elem_of_cons. by intros [?|?].
Qed.

Lemma keys_set_new (o : obj) (k : string) (v : jsval) :
  k ∉ keys o -> keys (set o k v) = (keys o ++ [k])%list.
Proof.
  induction o as [|[k' v'] o IH]; cbn; [done |].
  intros Hk. apply not_elem_of_cons in Hk as [Hne Hk].
  destruct (String.eqb_spec k' k) as [->|_]; [done |].
  cbn. f_equal. by apply IH.
Qed.

Lemma keys_fold_set (v : jsval) (ks : list string) (acc : obj) :
  NoDup (keys acc ++ ks) ->
  keys (fold_left (fun acc key => set acc key v) ks acc) = (keys acc ++ ks)%list.
Proof.
  revert acc. induction ks as [|k0 ks IH]; intros acc Hnd; cbn [fold_left].
  - by rewrite app_nil_r.
  - assert (k0 ∉ keys acc) as Hk0.
    { apply NoDup_app in Hnd as (_ & Hdis & _). intros Hin.
      apply (Hdis k0 Hin). left. }
    rewrite IH; rewrite keys_set_new by done.
    + by rewrite <- app_assoc.
    + by rewrite <- app_assoc.
Qed.

(** X1. [addRow] on tables whose rows are in the store, when each table
    with the name is empty or starts with a row object: it succeeds and
    appends exactly one new row to each table with the name, leaving the
    rows before it, the columns and every other table as they were. The
    new row of an empty table is [{id: now}]; otherwise its keys are the
    keys of the first row (in the same order), each with the empty
    string as its value. No existing row object is written. *)
Theorem addRow_appends now tableName prev (h : heap) :
  Forall (allocated h) prev ->
  (forall t, t ∈ prev -> name t = tableName ->
     data t = [] \/ exists l, data t !! 0 = Some (Row l)) ->
  exists h' next,
    addRow now tableName prev h = (h', Ok next) /\
    h ⊆ h' /\
    Forall2 (rowAdded now h h' tableName) prev next.
Proof.
  intros Hal Hfirst.
  set (P := fun t : TableState => name t = tableName ->
     data t = [] \/ exists l, data t !! 0 = Some (Row l)).
  set (Q := fun (h h' : heap) (t t' : TableState) =>
     allocated h' t' /\ rowAdded now h h' tableName t t').
  destruct (mapM_tables (rowAdder now tableName) P Q prev h)
    as (h' & next & Hrun & Hsub & Hall); try done.
  - clear. intros t h Pt Ht. unfold rowAdder.
    destruct (String.eqb_spec (name t) tableName) as [Hname|Hname].
    + destruct (Pt Hname) as [Hd|[first Hd]].
      * rewrite Hd. cbn [length Nat.ltb Nat.leb]. unfold bind.
        destruct (alloc_spec [("id", JNum now)] h) as (l & -> & Hfresh).
        eexists _, _. split; [done |].
        assert (h ⊆ <[l := [("id", JNum now)]]> h) as Hsub
          by by apply insert_subseteq.
        split; [done |]. split.
        { intros l0. cbn. intros [= <-]%list_elem_of_singleton.
          rewrite lookup_insert_eq. by eexists. }
        split; [done |]. split; [done |]. split; [done |]. intros _.
        rewrite !Hd. cbn. split; [done |]. split; [lia |].
        exists [("id", JNum now)]. split; [| done].
        unfold rowAt. cbn. apply lookup_insert_eq.
      * assert (Nat.ltb 0 (length (data t)) = true) as ->.
        { apply Nat.ltb_lt. by eapply lookup_lt_Some. }
        unfold readIdx. rewrite Hd. cbn [default id]. unfold bind.
        destruct (Ht first) as [o Ho]; [by eapply list_elem_of_lookup_2 |].
        match goal with |- context [alloc ?o' h] =>
          destruct (alloc_spec o' h) as (l & -> & Hfresh); set (new := o') end.
        eexists _, _. split; [done |].
        assert (h ⊆ <[l := new]> h) as Hsub by by apply insert_subseteq.
        split; [done |]. split.
        { intros l0. cbn. rewrite elem_of_app, list_elem_of_singleton.
          intros [Hin| [= <-]]; [| rewrite lookup_insert_eq; by eexists].
          unfold spreadArray in Hin. apply list_elem_of_fmap in Hin as (s & Hs & Hin).
          destruct s; try done. injection Hs as <-.
          destruct (Ht _ Hin) as [o0 Ho0]. exists o0.
          by eapply lookup_weaken. }
        split; [done |]. split; [done |]. split; [done |]. intros _. cbn.
        split. { rewrite length_app. unfold spreadArray. rewrite length_map. cbn. lia. }
        split.
        { intros j Hj. unfold rowAt. cbn.
          rewrite lookup_app_l by (unfold spreadArray; by rewrite length_map).
          unfold spreadArray. rewrite list_lookup_fmap.
          destruct (data t !! j) as [[| |l0]|] eqn:Hlj; cbn; try done.
          destruct (Ht l0) as [o0 Ho0]; [by eapply list_elem_of_lookup_2 |].
          by rewrite Ho0, (lookup_weaken _ _ _ _ Ho0 Hsub). }
        exists new. split.
        { unfold rowAt. cbn.
          rewrite lookup_app_r by (unfold spreadArray; by rewrite length_map).
          unfold spreadArray. rewrite length_map, Nat.sub_diag. cbn.
          apply lookup_insert_eq. }
        destruct (data t) as [|s0 rest] eqn:Hdt; [done |].
        exists o. split.
        { unfold rowAt. rewrite Hdt. cbn in Hd |- *. by injection Hd as ->. }
        subst new. unfold props. rewrite Ho. cbn [default]. split.
        -- intros k. by rewrite own_fold_set.
        -- intros Hnd. by rewrite keys_fold_set.
    + exists h, t. unfold ret. split; [done |]. split; [done |].
      split; [done |]. by repeat split.
  - clear. intros h h1 h2 t t' Hsub [Hal' (Hn & Hc & Hother & Hnamed)].
    split; [by eapply allocated_mono |].
    split; [done |]. split; [done |]. split; [done |]. intros Hname.
    destruct (Hnamed Hname) as (Hlen & Hrows & o' & Ho' & Hnew).
    split; [done |]. split.
    + intros j Hj. rewrite <- (Hrows j Hj). by apply rowAt_mono.
    + exists o'. split; [| done]. rewrite <- Ho'. by apply rowAt_mono.
  - clear. intros h0 h h2 t t' Hal0 Hsub [Hal' (Hn & Hc & Hother & Hnamed)].
    split; [done |].
    split; [done |]. split; [done |]. split; [done |]. intros Hname.
    destruct (Hnamed Hname) as (Hlen & Hrows & o' & Ho' & Hnew).
    split; [done |]. split.
    + intros j Hj. rewrite (Hrows j Hj). by apply rowAt_mono.
    + exists o'. split; [done |].
      destruct (data t) as [|s0 rest] eqn:Hdt; [done |].
      destruct Hnew as (first & Hfirst & Hrest). exists first. split; [| done].
      rewrite <- Hfirst. symmetry. by apply rowAt_mono.
  - apply Forall_forall. intros t Ht. unfold P. by apply Hfirst.
  - exists h', next. split; [done |]. split; [done |].
    eapply Forall2_impl; [exact Hall |]. by intros t t' [_ HQ].
Qed.

Lemma cellUpdated_length (h h' : heap) tableName rowIndex key value t t' :
  cellUpdated h h' tableName rowIndex key value t t' ->
  (name t = tableName -> rowIndex < length (data t)) ->
  length (data t') = length (data t).
Proof.
  intros (_ & _ & Hother & Hnamed) Hin.
  destruct (decide (name t = tableName)) as [Hname|Hname].
  - destruct (Hnamed Hname) as (l & _ & _ & Hd). specialize (Hin Hname).
    assert (length (spreadArray (data t)) = length (data t)) as Hlen
      by (unfold spreadArray; by rewrite length_map).
    rewrite writeIdx_inside in Hd by (by rewrite Hlen).
    injection Hd as <-. by rewrite length_insert.
  - by rewrite (Hother Hname).
Qed.

(** X2. [updateCell] at any row index that is an array index (an
    integer below [2^32 - 1]), inside the table or past its end: it
    succeeds; in each table with the name the addressed row then exists
    and reads the new value at the key and, at every other key, what the
    row read before (nothing when there was no row); every other index
    reads as before; and the table has as many rows as before, or
    [rowIndex + 1] when that is more. *)
Theorem updateCell_reads_back tableName rowIndex key value prev (h : heap) :
  Forall (allocated h) prev ->
  (N.of_nat rowIndex < 4294967295)%N ->
  exists h' next,
    updateCell tableName rowIndex key value prev h = (h', Ok next) /\
    Forall2 (fun t t' =>
      name t = tableName ->
        length (data t') = Nat.max (length (data t)) (S rowIndex) /\
        (forall j, j ≠ rowIndex -> rowAt h' t' j = rowAt h t j) /\
        exists o', rowAt h' t' rowIndex = Some o' /\
          own o' key = Some value /\
          forall k, k ≠ key ->
            own o' k = own (default [] (rowAt h t rowIndex)) k)
      prev next.
Proof.
  intros Hal Hidx. apply N.ltb_lt in Hidx.
  destruct (updateCell_locations tableName rowIndex key value prev h Hal)
    as (h' & next & Hrun & Hsub & Hall).
  { intros t _ _. by right. }
  exists h', next. split; [done |].
  eapply Forall2_impl_Forall; [exact Hal | exact Hall |].
  intros t t' Ht (Hn & Hc & Hother & Hnamed) Hname.
  destruct (Hnamed Hname) as (l & Hfresh & Hl & Hd).
  assert (length (spreadArray (data t)) = length (data t)) as Hlen
    by (unfold spreadArray; by rewrite length_map).
  assert (forall j, j < length (data t) ->
            match spreadArray (data t) !! j with
            | Some (Row l0) => h' !! l0
            | _ => None
            end = rowAt h t j) as Hold.
  { intros j Hj. unfold rowAt, spreadArray. rewrite list_lookup_fmap.
    destruct (data t !! j) as [[| |l0]|] eqn:Hlj; cbn; try done.
    destruct (Ht l0) as [o0 Ho0]; [by eapply list_elem_of_lookup_2 |].
    by rewrite Ho0, (lookup_weaken _ _ _ _ Ho0 Hsub). }
  assert (own (set (spreadSlot h (readIdx (spreadArray (data t)) rowIndex))
                 key value) key = Some value /\
          forall k, k ≠ key ->
            own (set (spreadSlot h (readIdx (spreadArray (data t)) rowIndex))
                   key value) k
            = own (default [] (rowAt h t rowIndex)) k) as [Hkey Hrest].
  { split; [apply own_set_eq |]. intros k Hk. rewrite own_set_ne by done.
    f_equal. unfold readIdx, rowAt, spreadArray. rewrite list_lookup_fmap.
    by destruct (data t !! rowIndex) as [[| |l0]|] eqn:Hlj. }
  unfold writeIdx, isArrayIndex in Hd. rewrite Hlen, Hidx in Hd.
  destruct (Nat.ltb_spec rowIndex (length (data t))) as [Hin|Hout];
    injection Hd as Hd; symmetry in Hd.
  - split. { rewrite Hd, length_insert, Hlen. lia. }
    split.
    + intros j Hj. unfold rowAt at 1. rewrite Hd, list_lookup_insert_ne by done.
      destruct (decide (j < length (data t))) as [Hlt|Hge]; [by apply Hold |].
      unfold rowAt. rewrite !lookup_ge_None_2; [done | lia | rewrite Hlen; lia].
    + eexists. split; [| done].
      unfold rowAt. rewrite Hd, list_lookup_insert_eq; [exact Hl | by rewrite Hlen].
  - split. { rewrite Hd, !length_app, length_replicate, Hlen. cbn. lia. }
    split.
    + intros j Hj. unfold rowAt at 1. rewrite Hd.
      destruct (decide (j < length (data t))) as [Hlt|Hge].
      * rewrite lookup_app_l by (by rewrite Hlen). by apply Hold.
      * rewrite lookup_app_r by (rewrite Hlen; lia). rewrite Hlen.
        assert (rowAt h t j = None) as ->.
        { unfold rowAt. rewrite lookup_ge_None_2; [done | lia]. }
        destruct (decide (j - length (data t) < rowIndex - length (data t)))
          as [Hlt|Hge'].
        -- rewrite lookup_app_l by (by rewrite length_replicate).
           by rewrite lookup_replicate_2.
        -- rewrite lookup_app_r by (rewrite length_replicate; lia).
           rewrite length_replicate.
           destruct (j - length (data t) - (rowIndex - length (data t)))
             as [|n0] eqn:Hn0; [lia | done].
    + eexists. split; [| done].
      unfold rowAt. rewrite Hd.
      rewrite lookup_app_r by (rewrite Hlen; lia). rewrite Hlen.
      rewrite lookup_app_r by (by rewrite length_replicate).
      rewrite length_replicate, Nat.sub_diag. exact Hl.
Qed.

(** X3. [updateColumnType] on tables in which each table with the name
    has its columns: it succeeds, allocates nothing, and changes nothing
    but the type of the columns called [columnName] in the tables with
    the name; the column names, their order, the data and every other
    table are as before. *)
Theorem updateColumnType_frame tableName columnName newType prev (h : heap) :
  (forall t, t ∈ prev -> name t = tableName -> is_Some (columns t)) ->
  exists next,
    updateColumnType tableName columnName newType prev h = (h, Ok next) /\
    Forall2 (typeUpdated tableName columnName newType) prev next.
Proof.
  induction prev as [|t prev IH]; intros Hcols.
  - by exists [].
  - destruct IH as (next & Hrun & Hall).
    { intros t0 Ht0. apply Hcols. by right. }
    unfold updateColumnType in *. cbn [mapM]. unfold bind at 1.
    unfold typeUpdater at 1.
    destruct (String.eqb_spec (name t) tableName) as [Hname|Hname].
    + destruct (Hcols t ltac:(left) Hname) as [cols Hc]. rewrite Hc.
      unfold ret at 1. unfold bind at 1. rewrite Hrun. unfold ret.
      eexists. split; [reflexivity |]. constructor; [| done].
      split; [done |]. split; [done |]. split; [done |]. intros _.
      eexists cols, _. split; [done |]. split; [reflexivity |].
      clear. induction cols as [|c cols IH]; constructor; [| done].
      destruct (String.eqb_spec (cname c) columnName) as [Hc|Hc].
      * by rewrite bool_decide_eq_true_2.
      * by rewrite bool_decide_eq_false_2.
    + unfold ret at 1. unfold bind at 1. rewrite Hrun. unfold ret.
      eexists. split; [reflexivity |]. constructor; [| done].
      by repeat split.
Qed.

(** X4. [updateColumnType] throws when a table with the name has no
    [columns] (the state Reset to Default leaves): it reads [map] of
    [undefined]. *)
Theorem updateColumnType_without_columns tableName columnName newType prev
    (h : heap) (t : TableState) :
  t ∈ prev -> name t = tableName -> columns t = None ->
  updateColumnType tableName columnName newType prev h
  = (h, Throw "Cannot read properties of undefined (reading 'map')").
Proof.
  intros Hin Hname Hnone. unfold updateColumnType.
  induction prev as [|t0 prev IH]; [by apply elem_of_nil in Hin |].
  cbn [mapM]. unfold bind at 1. unfold typeUpdater at 1.
  destruct (String.eqb_spec (name t0) tableName) as [Hname0|Hname0].
  - destruct (columns t0) as [cols|] eqn:Hc0; [| done].
    apply elem_of_cons in Hin as [->|Hin]; [congruence |].
    unfold ret at 1. unfold bind at 1. by rewrite (IH Hin).
  - apply elem_of_cons in Hin as [->|Hin]; [congruence |].
    unfold ret at 1. unfold bind at 1. by rewrite (IH Hin).
Qed.

Lemma typeUpdater_heap tableName columnName newType t (h h' : heap) r :
  typeUpdater tableName columnName newType t h = (h', r) -> h' = h.
Proof.
  unfold typeUpdater. destruct (String.eqb _ _); [| by intros [= <- _]].
  destruct (columns t); by intros [= <- _].
Qed.

Lemma typeUpdater_twice tableName columnName a b t t1 (h h' : heap) :
  typeUpdater tableName columnName a t h = (h', Ok t1) ->
  typeUpdater tableName columnName b t1 h'
  = typeUpdater tableName columnName b t h.
Proof.
  unfold typeUpdater.
  destruct (String.eqb_spec (name t) tableName) as [Hname|Hname].
  - destruct (columns t) as [cols|] eqn:Hc; [| done].
    unfold ret. intros [= <- <-]. cbn.
    destruct (String.eqb_spec (name t) tableName); [| done].
    unfold with_columns. cbn. do 4 f_equal.
    rewrite map_map. apply map_ext. intros c.
    destruct (String.eqb_spec (cname c) columnName) as [Hcn|Hcn]; cbn.
    + by destruct (String.eqb_spec (cname c) columnName).
    + by destruct (String.eqb_spec (cname c) columnName).
  - unfold ret. intros [= <- <-].
    by destruct (String.eqb_spec (name t) tableName).
Qed.

(** X5. Changing the type of a column twice leaves what changing it once
    to the second type leaves. *)
Theorem updateColumnType_last_wins tableName columnName a b prev mid
    (h h1 : heap) :
  updateColumnType tableName columnName a prev h = (h1, Ok mid) ->
  updateColumnType tableName columnName b mid h1
  = updateColumnType tableName columnName b prev h.
Proof.
  unfold updateColumnType. revert mid h h1.
  induction prev as [|t prev IH]; intros mid h h1.
  - cbn. unfold ret. by intros [= <- <-].
  - cbn [mapM]. unfold bind at 1.
    destruct (typeUpdater tableName columnName a t h) as [h2 [t1|msg|]] eqn:Ht;
      try done.
    unfold bind at 1.
    destruct (mapM _ prev h2) as [h3 [ts1|msg|]] eqn:Hrest; try done.
    unfold ret. intros [= <- <-].
    pose proof (typeUpdater_twice _ _ _ b _ _ _ _ Ht) as Heq.
    pose proof (typeUpdater_heap _ _ _ _ _ _ _ Ht) as ->.
    assert (h3 = h) as ->.
    { clear -Hrest. revert h h3 ts1 Hrest.
      induction prev as [|t0 prev IH]; intros h h3 ts1.
      - cbn. unfold ret. by intros [= <- _].
      - cbn [mapM]. unfold bind at 1.
        destruct (typeUpdater _ _ _ t0 h) as [h2 [t1|msg|]] eqn:Ht; try done.
        apply typeUpdater_heap in Ht as ->. unfold bind at 1.
        destruct (mapM _ prev h) as [h4 [ts2|msg|]] eqn:Hrest; try done.
        unfold ret. intros [= <- _]. by eapply IH. }
    cbn [mapM]. unfold bind. rewrite Heq.
    destruct (typeUpdater tableName columnName b t h) as [h4 [t2|msg|]] eqn:Ht2;
      try done.
    apply typeUpdater_heap in Ht2 as ->.
    by rewrite (IH _ _ _ Hrest).
Qed.

End UpdaterFacts.

Section UpdaterSamples.
Import Client.

(** [addRow_appends] on the sample page: a third role. *)
Lemma addRow_appends_roles :
  exists h' next,
    addRow 0%float "roles" Ref.sampleTables Ref.sampleStore = (h', Ok next) /\
    Ref.sampleStore ⊆ h' /\
    Forall2 (rowAdded 0%float Ref.sampleStore h' "roles") Ref.sampleTables next.
Proof.
  apply addRow_appends.
  - exact sampleTables_allocated.
  - intros t Ht Hname. unfold Ref.sampleTables in Ht.
    rewrite !elem_of_cons, elem_of_nil in Ht.
    destruct Ht as [->| [->| []]]; [| discriminate Hname].
    right. by exists 1%positive.
Defined.

(** [updateCell_reads_back] on the sample page: row index 5 of the
    two-row table [roles]. *)
Lemma updateCell_reads_back_roles :
  exists h' next,
    updateCell "roles" 5 "id" (JStr "7") Ref.sampleTables Ref.sampleStore
    = (h', Ok next) /\
    Forall2 (fun t t' =>
      name t = "roles" ->
        length (data t') = Nat.max (length (data t)) 6 /\
        (forall j, j ≠ 5 -> rowAt h' t' j = rowAt Ref.sampleStore t j) /\
        exists o', rowAt h' t' 5 = Some o' /\
          own o' "id" = Some (JStr "7") /\
          forall k, k ≠ "id" ->
            own o' k = own (default [] (rowAt Ref.sampleStore t 5)) k)
      Ref.sampleTables next.
Proof.
  apply (updateCell_reads_back "roles" 5 "id" (JStr "7")).
  - exact sampleTables_allocated.
  - reflexivity.
Defined.

(** [updateColumnType_frame] on the sample page. *)
Lemma updateColumnType_frame_roles :
  exists next,
    updateColumnType "roles" "id" TString Ref.sampleTables Ref.sampleStore
    = (Ref.sampleStore, Ok next) /\
    Forall2 (typeUpdated "roles" "id" TString) Ref.sampleTables next.
Proof.
  apply updateColumnType_frame.
  intros t Ht _. unfold Ref.sampleTables in Ht.
  rewrite !elem_of_cons, elem_of_nil in Ht.
  destruct Ht as [->| [->| []]]; by eexists.
Defined.

(** [updateColumnType_without_columns] on the roles without columns. *)
Lemma updateColumnType_without_columns_roles :
  Client.updateColumnType "roles" "id" Client.TString
    [Ref.sampleFlags; Ref.bareRoles] Ref.sampleStore
  = (Ref.sampleStore,
     Throw "Cannot read properties of undefined (reading 'map')").
Proof.
  apply (updateColumnType_without_columns "roles" "id" Client.TString
           [Ref.sampleFlags; Ref.bareRoles] Ref.sampleStore Ref.bareRoles).
  - rewrite !elem_of_cons. auto.
  - reflexivity.
  - reflexivity.
Defined.

(** [updateColumnType_last_wins] on the sample page: string, then
    boolean. *)
Lemma updateColumnType_last_wins_roles :
  updateColumnType "roles" "id" TBoolean
    (with_columns Ref.sampleRoles
       [ {| cname := "id"; ctype := TString |};
         {| cname := "role_name"; ctype := TString |};
         {| cname := "permissions"; ctype := TString |} ] :: [Ref.sampleFlags])
    Ref.sampleStore
  = updateColumnType "roles" "id" TBoolean Ref.sampleTables Ref.sampleStore.
Proof.
  apply (updateColumnType_last_wins "roles" "id" TString TBoolean).
  reflexivity.
Defined.

End UpdaterSamples.

(** ** Loading the tables *)

Section LoadFacts.
Import Server Client World.
Context (rt : Runtime) (eng : Engine) (fallback : string -> string -> response).

Lemma loaded_later (b : obj) (h h' : heap) (n : string) (t : TableState) :
  h ⊆ h' -> loaded b h n t -> loaded b h' n t.
Proof.
  intros Hsub (Hn & Hal & Hown & os & Hos & Hc).
  rewrite <- (slotValues_mono h h' _ Hsub Hal) in Hown, Hos.
  split; [done |]. split; [| split; [done | by exists os]].
  eapply Forall_impl; [exact Hal |]. intros s. by apply slotAllocated_mono.
Qed.

Lemma loadTable_spec (n : string) (h : heap) (b : obj) :
  served b n ->
  exists h' t,
    loadTable fallback n (h, b) = ((h', b), Ok t) /\
    h ⊆ h' /\ loaded b h' n t.
Proof.
  intros (v & Hown & Hname & [os Hos] & Hjson).
  destruct v as [| | | | |items| |]; try done.
  apply objectsOf_map in Hos. subst items.
  unfold loadTable. unfold bind at 1.
  rewrite (fetchTable_array fallback n _ h b Hown Hname Hjson).
  destruct (asRows_objects os h b) as (h' & slots & Hrun & Hsub & Hal & Hval).
  unfold bind at 1. rewrite Hrun.
  unfold bind at 1, liftHeap. rewrite (inferColumns_objects _ os h' Hval).
  unfold ret.
  eexists h', _. split; [reflexivity |]. split; [done |].
  split; [done |]. split; [done |]. cbn. split; [by rewrite Hval |].
  by exists os.
Qed.

Lemma loadTables_spec (names : list string) (h : heap) (b : obj) :
  Forall (served b) names ->
  exists h' ts,
    mapM (loadTable fallback) names (h, b) = ((h', b), Ok ts) /\
    h ⊆ h' /\ Forall2 (loaded b h') names ts.
Proof.
  revert h. induction names as [|n names IH]; intros h Hall.
  - exists h, []. by repeat split.
  - apply Forall_cons in Hall as [Hn Hall].
    destruct (loadTable_spec n h b Hn) as (h1 & t & Hrun1 & Hsub1 & Ht).
    destruct (IH h1 Hall) as (h' & ts & Hrun & Hsub & Hts).
    cbn [mapM]. unfold bind at 1. rewrite Hrun1.
    unfold bind at 1. rewrite Hrun. unfold ret.
    exists h', (t :: ts). split; [done |]. split; [by etrans |].
    constructor; [by eapply loaded_later | done].
Qed.

Lemma loaded_entries (store : obj) (h' : heap) (b : obj)
    (ts : list TableState) :
  (forall kv, kv ∈ b -> own store (fst kv) = Some (snd kv)) ->
  Forall2 (loaded store h') (keys b) ts ->
  map (fun t => (name t, JArr (map (slotValue h') (data t)))) ts = b /\
  Forall2 (fun kv t => exists os, asObjects (snd kv) = Some os /\
                         columns t = Some (inferred os)) b ts.
Proof.
  revert ts. induction b as [|[k v] b IH]; intros ts Hown Hall.
  - apply Forall2_nil_inv_l in Hall as ->. by split.
  - cbn in Hall. apply Forall2_cons_inv_l in Hall as (t & ts' & Ht & Hts & ->).
    destruct (IH ts') as [Hmap Hcols]; [| done |].
    { intros kv Hin. apply Hown. by right. }
    destruct Ht as (Hn & _ & Hv & os & Hos & Hc).
    pose proof (Hown (k, v) ltac:(left)) as Hkv. cbn in Hkv.
    rewrite Hkv in Hv. injection Hv as ->.
    split.
    + cbn. by rewrite Hn, Hmap.
    + constructor; [| done]. exists os. split; [| done]. cbn. rewrite Hos.
      clear. induction os as [|o os IH]; [done |]. cbn. by rewrite IH.
Qed.

Lemma fetchAll_load (h : heap) (b : obj) :
  tableStore b ->
  exists h' ts,
    fetchAll fallback (loadTable fallback) (h, b) = ((h', b), Ok ts) /\
    h ⊆ h' /\
    map (fun t => (name t, JArr (map (slotValue h') (data t)))) ts = b /\
    Forall2 (fun kv t => exists os, asObjects (snd kv) = Some os /\
                           columns t = Some (inferred os)) b ts.
Proof.
  intros Hstore.
  destruct (loadTables_spec (keys b) h b) as (h' & ts & Hrun & Hsub & Hts);
    [by apply tableStore_served |].
  exists h', ts. split; [| split; [done |]].
  - unfold fetchAll. unfold bind at 1. rewrite fetchJson_tables.
    unfold bind at 1. rewrite asNames_strings. exact Hrun.
  - apply (loaded_entries b); [| done]. intros kv. by apply tableStore_own.
Qed.

Lemma own_key (o : obj) (k : string) : k ∈ keys o -> is_Some (own o k).
Proof.
  induction o as [|[k' x] o IH]; cbn; [by intros ?%elem_of_nil |].
  destruct (String.eqb_spec k' k) as [->|Hne]; [by eexists |].
  intros [?|?]%elem_of_cons; [done | by apply IH].
Qed.

(** The columns inferred for the rows of a table: one for each key of
    the first row, typed by the value the row has there. *)
Lemma inferred_columns (v : jsval) (os : list obj) :
  asObjects v = Some os ->
  match v with
  | JArr (JObj first :: _) =>
      map cname (inferred os) = keys first /\
      Forall (fun c =>
                exists x, own first (cname c) = Some x /\
                  ctype c = match x with
                            | JNum _ => TNumber
                            | JBool _ => TBoolean
                            | _ => TString
                            end) (inferred os)
  | _ => inferred os = []
  end.
Proof.
  destruct v as [| | | | |items| |]; try done. cbn [asObjects].
  intros Hos. apply objectsOf_map in Hos as ->.
  destruct os as [|first os]; [done |]. cbn [map].
  split; [apply inferred_names |].
  cbn [inferred]. apply Forall_fmap, Forall_forall. intros k Hk. cbn.
  destruct (own_key first k Hk) as [x Hx].
  exists x. split; [done |]. unfold getProp. rewrite Hx. by destruct x.
Qed.

(** X6. The mount effect on a backend that stores tables the page loads
    as they are (distinct names, each a plain path segment, each with an
    array of objects that reads back from its JSON text as it is): the
    page then shows the data of the backend, table by table and row by
    row; each table has one column for each key of its first row, in the
    order of the keys, of type number or boolean when the first row has a
    number or a boolean there and string otherwise, and no column when
    it has no row; the first table is selected; loading is over; and the
    backend is as before. *)
Theorem fetchData_loads (w : World eng) :
  tableStore (backend w) ->
  let w' := fetchData eng fallback w in
  snapshot w' = backend w /\
  backend w' = backend w /\
  phase w' = phase w /\
  loading (app w') = false /\
  selectedTableName (app w')
  = match keys (backend w) with
    | k :: _ => Some k
    | [] => selectedTableName (app w)
    end /\
  Forall2 (fun kv t =>
             name t = fst kv /\
             exists cols, columns t = Some cols /\
               match snd kv with
               | JArr (JObj first :: _) =>
                   map cname cols = keys first /\
                   Forall (fun c =>
                             exists x, own first (cname c) = Some x /\
                               ctype c = match x with
                                         | JNum _ => TNumber
                                         | JBool _ => TBoolean
                                         | _ => TString
                                         end) cols
               | _ => cols = []
               end)
    (backend w) (tables (app w')).
Proof.
  intros Hstore. cbn zeta. unfold fetchData.
  destruct (fetchAll_load (objects w) (backend w) Hstore)
    as (h' & ts & -> & _ & Hsnap & Hcols).
  unfold snapshot. cbn. repeat split; try done.
  { rewrite <- Hsnap at 1. by destruct ts. }
  assert (Forall2 (fun kv t => name t = fst kv) (backend w) ts) as Hnames.
  { rewrite <- Hsnap at 1. clear.
    induction ts as [|t ts IH]; constructor; done. }
  clear Hsnap Hstore. revert Hnames.
  induction Hcols as [|kv t b ts (os & Hos & Hc) _ IH];
    intros Hnames; [constructor |].
  apply Forall2_cons in Hnames as [Hn Hnames].
  constructor; [| by apply IH].
  split; [done |]. exists (inferred os). split; [done |].
  by apply inferred_columns.
Qed.

End LoadFacts.

Section NameFacts.
Import Server Client World.
Context (rt : Runtime) (eng : Engine) (fallback : string -> string -> response).

Lemma mapM_names {S} (f : TableState -> M S TableState) (ts ts' : list TableState)
    (s s' : S) :
  (forall t s s' t', f t s = (s', Ok t') -> name t' = name t) ->
  mapM f ts s = (s', Ok ts') -> map name ts' = map name ts.
Proof.
  intros Hf Hrun. apply (mapM_Forall2 _ (fun t t' => name t' = name t)) in Hrun;
    [| done].
  induction Hrun as [|t t' ts ts' Hn _ IH]; [done |]. cbn. by rewrite Hn, IH.
Qed.

Lemma setTables_names (f : TableState -> M heap TableState) (w : World eng) :
  (forall t s s' t', f t s = (s', Ok t') -> name t' = name t) ->
  map name (tables (app (setTables eng (mapM f) w)))
  = map name (tables (app w)).
Proof.
  intros Hf. unfold setTables.
  destruct (mapM f (tables (app w)) (objects w)) as [h [ts|msg|]] eqn:Hrun;
    [| done | done].
  cbn. by eapply mapM_names.
Qed.

Lemma snapshot_names (w : World eng) : map fst (snapshot w) = map name (tables (app w)).
Proof. unfold snapshot. by rewrite map_map. Qed.

Lemma step_names (w : World eng) (o : op) :
  tableStore (backend w) ->
  map name (tables (app (step rt eng fallback w o))) = map name (tables (app w)) \/
  map name (tables (app (step rt eng fallback w o))) = keys (backend w).
Proof.
  intros Hstore. unfold step. destruct (phase w); [| by left | by left].
  destruct o.
  - right. rewrite <- snapshot_names.
    unfold fetchData.
    destruct (fetchAll_load fallback (objects w) (backend w) Hstore)
      as (h' & ts & -> & _ & Hsnap & _).
    unfold snapshot. cbn. by rewrite Hsnap.
  - left. apply setTables_names. intros t s s' t' Hrun.
    unfold cellUpdater in Hrun.
    destruct (String.eqb (name t) tableName); run_binds Hrun.
  - left. apply setTables_names. intros t s s' t' Hrun.
    unfold rowAdder in Hrun.
    destruct (String.eqb (name t) tableName); run_binds Hrun.
  - left. apply setTables_names. intros t s s' t' Hrun.
    unfold typeUpdater in Hrun.
    destruct (String.eqb (name t) tableName); [| run_binds Hrun].
    destruct (columns t); run_binds Hrun.
  - by left.
  - left. unfold clickRun, runQuery.
    by destruct (tryBlock _ _ _ _) as [[h d] [v|msg|]].
  - right. rewrite <- snapshot_names.
    by destruct (reset_snapshot eng fallback w Hstore) as [-> _].
Qed.

(** X12. Whatever the user does, the tables of the page are none (before
    the first load) or the three tables of the backend, in its order. *)
Theorem run_names (ops : list op) (d : DB eng) :
  let names := map name (tables (app (run rt eng fallback ops (initial eng d)))) in
  names = [] \/ names = ["users"; "roles"; "orders"].
Proof.
  cbn zeta.
  assert (forall w : World eng,
            backend w = mockData ->
            (map name (tables (app w)) = [] \/
             map name (tables (app w)) = ["users"; "roles"; "orders"]) ->
            map name (tables (app (run rt eng fallback ops w))) = [] \/
            map name (tables (app (run rt eng fallback ops w)))
            = ["users"; "roles"; "orders"]) as Hrun.
  { induction ops as [|o ops IH]; intros w Hb Hw; [done |].
    cbn. apply IH; [by rewrite step_backend |].
    destruct (step_names w o) as [-> | ->]; [| done |].
    - rewrite Hb. apply mockData_tableStore.
    - rewrite Hb. by right. }
  apply Hrun; [done | by left].
Qed.

End NameFacts.

(** [fetchData_loads] on the page before the mount effect. *)
Lemma fetchData_loads_mock :
  let w := World.initial Ref.miniSql [] in
  let w' := World.fetchData Ref.miniSql Ref.noPage w in
  World.snapshot w' = Server.mockData /\
  World.backend w' = Server.mockData /\
  World.phase w' = World.Live /\
  Client.loading (World.app w') = false /\
  Client.selectedTableName (World.app w') = Some "users" /\
  Forall2 (fun kv t =>
             Client.name t = fst kv /\
             exists cols, Client.columns t = Some cols /\
               match snd kv with
               | JArr (JObj first :: _) =>
                   map Client.cname cols = keys first /\
                   Forall (fun c =>
                             exists x, own first (Client.cname c) = Some x /\
                               Client.ctype c
                               = match x with
                                 | JNum _ => Client.TNumber
                                 | JBool _ => Client.TBoolean
                                 | _ => Client.TString
                                 end) cols
               | _ => cols = []
               end)
    Server.mockData (Client.tables (World.app w')).
Proof.
  apply (fetchData_loads Ref.miniSql Ref.noPage (World.initial Ref.miniSql [])).
  apply mockData_tableStore.
Defined.

(** ** More on runQuery *)

Section QueryMore.
Import Client.
Context (rt : Runtime) (eng : Engine).

(** X7. [runQuery] catches whatever is thrown: it never throws itself.
    It leaves the tables, the query and the selection as they were, sets
    either a result or an error, and writes no existing row object. *)
Theorem runQuery_catches (st : AppState) (h : heap) (d : DB eng) :
  let '((h', _), r) := runQuery rt eng st (h, d) in
  h ⊆ h' /\
  match r with
  | Ok st' =>
      tables st' = tables st /\ query st' = query st /\
      selectedTableName st' = selectedTableName st /\
      (queryResult st' = None <-> is_Some (queryError st'))
  | Throw _ => False
  | Unmodelled => True
  end.
Proof.
  unfold runQuery.
  destruct (tryBlock rt eng st (h, d)) as [[h' d'] r] eqn:Hrun.
  apply tryBlock_stable in Hrun. unfold heapGrows in Hrun. cbn in Hrun.
  destruct r as [v|msg|]; cbn; (split; [done |]); [| | done];
    repeat split; try done; try (by intros [? ?]); by eexists.
Qed.

Lemma castedData_without_columns (t : TableState) (h : heap) :
  columns t = None -> (exists s, s ∈ data t /\ s ≠ Hole) ->
  exists h', castedData rt t h
  = (h', Throw "Cannot read properties of undefined (reading 'forEach')").
Proof.
  intros Hc. unfold castedData. revert h.
  induction (data t) as [|s rows IH]; intros h (s0 & Hin & Hs0).
  - by apply elem_of_nil in Hin.
  - cbn [mapM]. unfold bind at 1.
    assert (forall s, s ≠ Hole -> exists h1, castElement rt t s h
      = (h1, Throw "Cannot read properties of undefined (reading 'forEach')"))
      as Hthrow.
    { intros s1 Hs1. unfold castElement, castRow. rewrite Hc.
      destruct s1 as [| |l0]; [done | |]; unfold bind;
        match goal with |- context [alloc ?o h] =>
          destruct (alloc_spec o h) as (l & -> & _) end; by eexists. }
    destruct s as [| |l].
    + cbn. apply elem_of_cons in Hin as [->|Hin]; [done |].
      destruct (IH h) as (h' & Hrun); [by exists s0 |].
      unfold bind. rewrite Hrun. by eexists.
    + destruct (Hthrow Undef) as (h1 & ->); [done |]. by eexists.
    + destruct (Hthrow (Row l)) as (h1 & ->); [done |]. by eexists.
Qed.

(** X8. When the first table of the page has no [columns] and has a
    row, [runQuery] fails in the cast of that table: the error is the
    message of the [TypeError], the result is [null], and the engine is
    given nothing (its database is as before). *)
Theorem runQuery_without_columns (st : AppState) (t : TableState)
    (rest : list TableState) (h : heap) (d : DB eng) :
  tables st = t :: rest -> columns t = None ->
  (exists s, s ∈ data t /\ s ≠ Hole) ->
  exists h' st',
    runQuery rt eng st (h, d) = ((h', d), Ok st') /\
    queryError st'
    = Some "Cannot read properties of undefined (reading 'forEach')" /\
    queryResult st' = None /\ tables st' = tables st.
Proof.
  intros Hts Hc Hrow.
  destruct (castedData_without_columns t h Hc Hrow) as (h' & Hcast).
  exists h'. eexists. unfold runQuery, tryBlock. rewrite Hts.
  cbn [forEach]. unfold bind at 1. unfold bind at 1. unfold registerTable.
  unfold bind at 1. unfold liftH at 1. rewrite Hcast. cbn.
  by repeat split.
Qed.

End QueryMore.

(** [runQuery_without_columns] on the roles without columns. *)
Lemma runQuery_without_columns_roles :
  exists h' st',
    Client.runQuery Ref.refRuntime Ref.miniSql Ref.bareState
      (Ref.sampleStore, [])
    = ((h', []), Ok st') /\
    Client.queryError st'
    = Some "Cannot read properties of undefined (reading 'forEach')" /\
    Client.queryResult st' = None /\
    Client.tables st' = Client.tables Ref.bareState.
Proof.
  apply (runQuery_without_columns Ref.refRuntime Ref.miniSql Ref.bareState
           Ref.bareRoles []).
  - reflexivity.
  - reflexivity.
  - exists (Client.Row 1). split; [left | discriminate].
Defined.

(** [runQuery_statements] on the sample page. *)
Lemma runQuery_statements_sample :
  snd (fst (Client.runQuery Ref.refRuntime Ref.recorder
              (Ref.sampleState "SELECT * FROM roles") (Ref.sampleStore, [])))
  = [ "DROP TABLE IF EXISTS roles"; "CREATE TABLE roles";
      "DROP TABLE IF EXISTS flags"; "CREATE TABLE flags";
      "SELECT * FROM roles" ].
Proof.
  apply (runQuery_statements Ref.refRuntime
           (Ref.sampleState "SELECT * FROM roles") Ref.sampleStore []).
  repeat constructor; by eexists.
Defined.

(** [step_columnsDefined] on the mount of the page. *)
Lemma step_columnsDefined_mount :
  World.columnsDefined
    (World.step Ref.refRuntime Ref.miniSql Ref.noPage
       (World.initial Ref.miniSql []) World.Mount).
Proof.
  apply step_columnsDefined; [discriminate | constructor].
Defined.

(** ** More on the table route *)

Section ServerMore.
Import Server.
Context (fallback : string -> string -> response).

Lemma own_None_keys (o : obj) (k : string) : own o k = None <-> k ∉ keys o.
Proof.
  induction o as [|[k' v] o IH]; cbn.
  - split; [intros _; apply not_elem_of_nil | done].
  - destruct (String.eqb_spec k' k) as [->|Hne].
    + split; [done |]. intros Hk. exfalso. apply Hk. left.
    + rewrite IH. rewrite not_elem_of_cons. split; [by split | by intros [_ ?]].
Qed.

(** X13. [/api/table/:name] on a store whose values are all truthy (as
    arrays are): the answer is 404 exactly when the name is neither a key
    of the store nor the name of a property of [Object.prototype], and
    its body is then the error object; for a key of the store it is 200
    with the value stored under the key. *)
Theorem table_route_not_found (store : obj) (name : string) :
  Forall (fun kv => truthy (snd kv) = true) store ->
  let resp := fst (handle fallback (GetTable name) store) in
  (status resp = 404 <-> ((name ∉ keys store) /\ (name ∉ keys ObjectPrototype))) /\
  (status resp = 404 ->
   body resp = Some (JObj [("error", JStr "Table not found")])) /\
  (forall v, own store name = Some v ->
     status resp = 200 /\ body resp = stringify v).
Proof.
  intros Htruthy. cbn zeta. cbn [handle].
  unfold tableHandler, hbind, gets, json, status_json, hret, getProp.
  destruct (own store name) as [v|] eqn:Hown.
  - assert (truthy v = true) as ->.
    { apply own_elem in Hown.
      eapply Forall_forall in Htruthy; [| exact Hown]. exact Htruthy. }
    cbn [fst status body]. split.
    + split; [done |]. intros [Hk _]. apply own_None_keys in Hk. congruence.
    + split; [done |]. by intros ? [= <-].
  - apply own_None_keys in Hown.
    destruct (own ObjectPrototype name) as [v|] eqn:Hproto.
    + change (default JUndefined (Some v)) with v.
      assert (truthy v = true) as ->.
      { apply own_elem in Hproto. unfold ObjectPrototype in Hproto.
        rewrite !elem_of_cons, elem_of_nil in Hproto.
        repeat (destruct Hproto as [Hproto|Hproto];
                [by injection Hproto as _ -> |]).
        done. }
      cbn [fst status body]. split; [| done].
      split; [done |]. intros [_ Hk]. apply own_None_keys in Hk. congruence.
    + cbn [fst status body default truthy]. apply own_None_keys in Hproto.
      by repeat split.
Qed.

End ServerMore.

(** [table_route_not_found] on the mock data. *)
Lemma table_route_not_found_mock :
  let resp := fst (Server.handle Ref.noPage (Server.GetTable "nothing")
                     Server.mockData) in
  (Server.status resp = 404 <->
   (("nothing" ∉ keys Server.mockData) /\ ("nothing" ∉ keys ObjectPrototype))) /\
  (Server.status resp = 404 ->
   Server.body resp = Some (JObj [("error", JStr "Table not found")])) /\
  (forall v, own Server.mockData "nothing" = Some v ->
     Server.status resp = 200 /\ Server.body resp = Server.stringify v).
Proof.
  apply (table_route_not_found Ref.noPage Server.mockData "nothing").
  repeat constructor.
Defined.

(** ** The controls of the visual builder *)

Section ControlsFacts.
Import Builder Client Controls.
Context (rt : Runtime).

Lemma filterIndex_delete {A} (idx k : nat) (a : list A) :
  filterIndex (fun i => negb (Nat.eqb i (k + idx))) k a = delete idx a.
Proof.
  revert idx k. induction a as [|x a IH]; intros idx k; [done |].
  cbn [filterIndex]. destruct idx as [|idx].
  - rewrite Nat.add_0_r, Nat.eqb_refl. cbn.
    clear IH. revert k. induction a as [|y a IH]; intros k; [done |].
    cbn [filterIndex]. destruct (Nat.eqb_spec (S k) k) as [Hk|_]; [lia |].
    cbn. f_equal.
    assert (forall m, k < m ->
              filterIndex (fun i => negb (Nat.eqb i k)) m a = a) as Hrest.
    { clear. induction a as [|z a IH]; intros m Hm; [done |].
      cbn [filterIndex]. destruct (Nat.eqb_spec m k) as [Hk|_]; [lia |].
      cbn. f_equal. apply IH. lia. }
    apply Hrest. lia.
  - destruct (Nat.eqb_spec k (k + S idx)) as [Hk|_]; [lia |]. cbn. f_equal.
    replace (k + S idx) with (S k + idx) by lia. apply IH.
Qed.

Lemma withoutIndex_delete {A} (idx : nat) (a : list A) :
  withoutIndex idx a = delete idx a.
Proof. apply (filterIndex_delete idx 0). Qed.

Lemma map_delete_idx {A B} (f : A -> B) (idx : nat) (a : list A) :
  map f (delete idx a) = delete idx (map f a).
Proof.
  revert idx. induction a as [|x a IH]; intros [|idx]; cbn; try done.
  f_equal. apply IH.
Qed.

(** X14. The remove buttons: removing at [idx] takes exactly the join
    (the filter) at that index out of the array, the others keeping
    their order, and leaves the other array and the base table as they
    were. *)
Theorem remove_removes_one (idx : nat) (vb : VB) :
  let vj := fst (removeJoin idx vb) in
  let vf := fst (removeFilter idx vb) in
  (joinsOf vj = delete idx (joinsOf vb) /\ filtersOf vj = filtersOf vb /\
   vbBaseTable vj = vbBaseTable vb) /\
  (filtersOf vf = delete idx (filtersOf vb) /\ joinsOf vf = joinsOf vb /\
   vbBaseTable vf = vbBaseTable vb).
Proof.
  cbn. unfold joinsOf, filtersOf, joinAt, filterAt. cbn.
  by rewrite !withoutIndex_delete, !map_delete_idx.
Qed.

Lemma joinsOf_fresh (vb : VB) (j : Join) (locs : list loc) :
  Forall (fun l => is_Some (joinObjects vb !! l)) locs ->
  map (fun l => default {| jtable := ""; leftCol := ""; rightCol := "" |}
                  (<[fresh (dom (joinObjects vb)) := j]> (joinObjects vb) !! l))
    locs
  = map (joinAt vb) locs.
Proof.
  intros Hall. apply map_ext_Forall. eapply Forall_impl; [exact Hall |].
  intros l [o Ho]. cbn. unfold joinAt. rewrite lookup_insert_ne; [done |].
  intros <-. pose proof (is_fresh (dom (joinObjects vb))) as Hf.
  apply not_elem_of_dom in Hf. congruence.
Qed.

Lemma filtersOf_fresh (vb : VB) (f : Filter) (locs : list loc) :
  Forall (fun l => is_Some (filterObjects vb !! l)) locs ->
  map (fun l => default {| column := ""; operator := ""; value := "" |}
                  (<[fresh (dom (filterObjects vb)) := f]> (filterObjects vb) !! l))
    locs
  = map (filterAt vb) locs.
Proof.
  intros Hall. apply map_ext_Forall. eapply Forall_impl; [exact Hall |].
  intros l [o Ho]. cbn. unfold filterAt. rewrite lookup_insert_ne; [done |].
  intros <-. pose proof (is_fresh (dom (filterObjects vb))) as Hf.
  apply not_elem_of_dom in Hf. congruence.
Qed.

Lemma addJoin_joins (tables : list TableState) (vb : VB) :
  Forall (fun l => is_Some (joinObjects vb !! l)) (vbJoins vb) ->
  joinsOf (fst (addJoin tables vb))
  = (joinsOf vb ++ [ {| jtable := otherTable tables (vbBaseTable vb);
                        leftCol := "id"; rightCol := "id" |} ])%list.
Proof.
  intros Hall. unfold joinsOf at 1. cbn. rewrite map_app. f_equal.
  - unfold joinAt at 1. cbn. by apply joinsOf_fresh.
  - cbn. unfold joinAt. cbn. by rewrite lookup_insert_eq.
Qed.

(** The table of a new join is the first one that is not the base
    table. *)
Lemma otherTable_first (before after : list TableState) (t : TableState)
    (B : string) :
  Forall (fun t0 => name t0 = B) before -> name t ≠ B ->
  otherTable (before ++ t :: after) B = name t.
Proof.
  intros Hbefore Ht. unfold otherTable.
  induction Hbefore as [|t0 before Ht0 _ IH]; cbn.
  - by destruct (String.eqb_spec (name t) B).
  - by destruct (String.eqb_spec (name t0) B).
Qed.

Lemma otherTable_none (tables : list TableState) (B : string) :
  Forall (fun t => name t = B) tables -> otherTable tables B = "".
Proof.
  unfold otherTable. induction 1 as [|t ts Ht _ IH]; cbn; [done |].
  by destruct (String.eqb_spec (name t) B).
Qed.

(** X15. Add Join appends one join, on [id = id], with the first table
    of the page whose name is not the base table (the table before which
    every table has the name of the base table); its table name is empty
    when every table of the page is the base table. The filters and the
    base table are kept, and with no filter the query of the builder is
    the former one followed by the clause of the new join. *)
Theorem addJoin_appends (tables : list TableState) (vb : VB) :
  Forall (fun l => is_Some (joinObjects vb !! l)) (vbJoins vb) ->
  let vb' := fst (addJoin tables vb) in
  exists T,
    snd (addJoin tables vb) = Ok tt /\
    joinsOf vb'
    = (joinsOf vb
       ++ [ {| jtable := T; leftCol := "id"; rightCol := "id" |} ])%list /\
    filtersOf vb' = filtersOf vb /\ vbBaseTable vb' = vbBaseTable vb /\
    (forall before t after,
       tables = (before ++ t :: after)%list ->
       Forall (fun t0 => name t0 = vbBaseTable vb) before ->
       name t ≠ vbBaseTable vb -> T = name t) /\
    (Forall (fun t => name t = vbBaseTable vb) tables -> T = "") /\
    (vbFilters vb = [] ->
     builderQuery rt vb'
     = builderQuery rt vb +:+ " JOIN " +:+ T +:+ " ON " +:+ vbBaseTable vb
         +:+ ".id = " +:+ T +:+ ".id").
Proof.
  intros Hall. cbn zeta. exists (otherTable tables (vbBaseTable vb)).
  split; [done |].
  split; [by apply addJoin_joins |]. split; [done |]. split; [done |].
  split. { intros before t after -> Hbefore Ht. by apply otherTable_first. }
  split; [apply otherTable_none |].
  intros Hnof. unfold builderQuery. rewrite addJoin_joins by done.
  unfold filtersOf. cbn. rewrite Hnof. cbn.
  rewrite fold_left_app. cbn [fold_left]. by f_equal.
Qed.

(** X16. Adding a join and removing it again (it is the last one) gives
    back the joins, the filters and the query of the builder. *)
Theorem addJoin_removeJoin (tables : list TableState) (vb : VB) :
  Forall (fun l => is_Some (joinObjects vb !! l)) (vbJoins vb) ->
  let vb' := fst (removeJoin (length (vbJoins vb)) (fst (addJoin tables vb))) in
  joinsOf vb' = joinsOf vb /\ filtersOf vb' = filtersOf vb /\
  vbBaseTable vb' = vbBaseTable vb /\
  builderQuery rt vb' = builderQuery rt vb.
Proof.
  intros Hall. cbn zeta.
  assert (joinsOf (fst (removeJoin (length (vbJoins vb)) (fst (addJoin tables vb))))
          = joinsOf vb) as Hj.
  { unfold joinsOf at 1, removeJoin, addJoin.
    cbn [fst vbJoins joinObjects]. rewrite withoutIndex_delete.
    replace (delete (length (vbJoins vb))
               (vbJoins vb ++ [fresh (dom (joinObjects vb))])%list)
      with (vbJoins vb).
    - unfold joinAt at 1. cbn [joinObjects]. by apply joinsOf_fresh.
    - clear. induction (vbJoins vb) as [|l ls IH]; [done |]. cbn. by f_equal. }
  split; [done |]. split; [done |]. split; [done |].
  unfold builderQuery. by rewrite Hj.
Qed.

Lemma map_alter_NoDup (assign : Join -> Join) (m : gmap positive Join)
    (locs : list loc) (idx : nat) (l : loc) (d : Join) :
  NoDup locs -> locs !! idx = Some l -> is_Some (m !! l) ->
  map (fun l0 => default d (alter assign l m !! l0)) locs
  = <[idx := assign (default d (m !! l))]> (map (fun l0 => default d (m !! l0)) locs).
Proof.
  intros Hnd Hidx [j Hj]. revert idx Hidx.
  induction locs as [|l0 locs IH]; intros idx Hidx; [done |].
  apply NoDup_cons in Hnd as [Hl0 Hnd].
  destruct idx as [|idx]; cbn in *.
  - injection Hidx as ->. rewrite lookup_alter_eq, Hj. cbn. f_equal.
    apply map_ext_Forall, Forall_forall. intros l1 Hl1.
    rewrite lookup_alter_ne; [done |]. by intros <-.
  - rewrite lookup_alter_ne.
    + f_equal. by apply IH.
    + intros <-. apply Hl0. by eapply list_elem_of_lookup_2.
Qed.

Lemma map_alter_NoDup_filter (assign : Filter -> Filter)
    (m : gmap positive Filter) (locs : list loc) (idx : nat) (l : loc)
    (d : Filter) :
  NoDup locs -> locs !! idx = Some l -> is_Some (m !! l) ->
  map (fun l0 => default d (alter assign l m !! l0)) locs
  = <[idx := assign (default d (m !! l))]> (map (fun l0 => default d (m !! l0)) locs).
Proof.
  intros Hnd Hidx [j Hj]. revert idx Hidx.
  induction locs as [|l0 locs IH]; intros idx Hidx; [done |].
  apply NoDup_cons in Hnd as [Hl0 Hnd].
  destruct idx as [|idx]; cbn in *.
  - injection Hidx as ->. rewrite lookup_alter_eq, Hj. cbn. f_equal.
    apply map_ext_Forall, Forall_forall. intros l1 Hl1.
    rewrite lookup_alter_ne; [done |]. by intros <-.
  - rewrite lookup_alter_ne.
    + f_equal. by apply IH.
    + intros <-. apply Hl0. by eapply list_elem_of_lookup_2.
Qed.

Lemma editJoin_joins (field : string) (assign : Join -> Join)
    (idx : nat) (l : loc) (vb : VB) :
  distinctObjects vb -> vbJoins vb !! idx = Some l ->
  let vb' := fst (editJoin field assign idx vb) in
  snd (editJoin field assign idx vb) = Ok tt /\
  vbJoins vb' = vbJoins vb /\
  dom (joinObjects vb') = dom (joinObjects vb) /\
  joinsOf vb' = <[idx := assign (joinAt vb l)]> (joinsOf vb) /\
  filtersOf vb' = filtersOf vb /\ vbBaseTable vb' = vbBaseTable vb.
Proof.
  intros (Hnd & _ & Hal & _) Hidx. cbn zeta. unfold editJoin. rewrite Hidx. cbn.
  split; [done |]. split; [done |]. split; [by rewrite dom_alter_L |].
  split; [| done].
  unfold joinsOf, joinAt. cbn. apply map_alter_NoDup; [done | done |].
  eapply Forall_forall in Hal; [exact Hal |]. by eapply list_elem_of_lookup_2.
Qed.

Lemma editFilter_filters (field : string) (assign : Filter -> Filter)
    (idx : nat) (l : loc) (vb : VB) :
  distinctObjects vb -> vbFilters vb !! idx = Some l ->
  let vb' := fst (editFilter field assign idx vb) in
  snd (editFilter field assign idx vb) = Ok tt /\
  vbFilters vb' = vbFilters vb /\
  dom (filterObjects vb') = dom (filterObjects vb) /\
  filtersOf vb' = <[idx := assign (filterAt vb l)]> (filtersOf vb) /\
  joinsOf vb' = joinsOf vb /\ vbBaseTable vb' = vbBaseTable vb.
Proof.
  intros (_ & Hnd & _ & Hal) Hidx. cbn zeta. unfold editFilter. rewrite Hidx. cbn.
  split; [done |]. split; [done |]. split; [by rewrite dom_alter_L |].
  split; [| done].
  unfold filtersOf, filterAt. cbn. apply map_alter_NoDup_filter; [done | done |].
  eapply Forall_forall in Hal; [exact Hal |]. by eapply list_elem_of_lookup_2.
Qed.

(** X17. The change handlers of a join or a filter write the object in
    place: when the elements of the arrays are distinct objects, a change
    at an index that has an element succeeds, creates no object, keeps
    the array's elements, and changes only what the element at that index
    reads, the other array and the base table being as before; at an
    index that has no element the handler throws and the state is as
    before. *)
Theorem edit_in_place (idx : nat) (vb : VB) :
  distinctObjects vb ->
  (forall field assign l, vbJoins vb !! idx = Some l ->
     let vb' := fst (editJoin field assign idx vb) in
     snd (editJoin field assign idx vb) = Ok tt /\
     vbJoins vb' = vbJoins vb /\
     dom (joinObjects vb') = dom (joinObjects vb) /\
     joinsOf vb' = <[idx := assign (joinAt vb l)]> (joinsOf vb) /\
     filtersOf vb' = filtersOf vb /\ vbBaseTable vb' = vbBaseTable vb) /\
  (forall field assign l, vbFilters vb !! idx = Some l ->
     let vb' := fst (editFilter field assign idx vb) in
     snd (editFilter field assign idx vb) = Ok tt /\
     vbFilters vb' = vbFilters vb /\
     dom (filterObjects vb') = dom (filterObjects vb) /\
     filtersOf vb' = <[idx := assign (filterAt vb l)]> (filtersOf vb) /\
     joinsOf vb' = joinsOf vb /\ vbBaseTable vb' = vbBaseTable vb) /\
  (forall field assign, vbJoins vb !! idx = None ->
     exists msg, editJoin field assign idx vb = (vb, Throw msg)) /\
  (forall field assign, vbFilters vb !! idx = None ->
     exists msg, editFilter field assign idx vb = (vb, Throw msg)).
Proof.
  intros Hvb. split; [| split; [| split]].
  - intros field assign l Hl. by apply editJoin_joins.
  - intros field assign l Hl. by apply editFilter_filters.
  - intros field assign Hnone. unfold editJoin. rewrite Hnone. by eexists.
  - intros field assign Hnone. unfold editFilter. rewrite Hnone. by eexists.
Qed.

Lemma fresh_not_in {V} (m : gmap positive V) (locs : list loc) :
  Forall (fun l => is_Some (m !! l)) locs -> fresh (dom m) ∉ locs.
Proof.
  intros Hall Hin. eapply Forall_forall in Hall; [| exact Hin].
  destruct Hall as [v Hv].
  pose proof (is_fresh (dom m)) as Hf. apply not_elem_of_dom in Hf. congruence.
Qed.

Lemma Forall_insert_fresh {V} (m : gmap positive V) (v : V) (locs : list loc) :
  Forall (fun l => is_Some (m !! l)) locs ->
  Forall (fun l => is_Some (<[fresh (dom m) := v]> m !! l))
    (locs ++ [fresh (dom m)]).
Proof.
  intros Hall. apply Forall_app. split.
  - eapply Forall_impl; [exact Hall |]. intros l [x Hx].
    destruct (decide (l = fresh (dom m))) as [->|Hne].
    + rewrite lookup_insert_eq. by eexists.
    + rewrite lookup_insert_ne by done. by eexists.
  - constructor; [| done]. rewrite lookup_insert_eq. by eexists.
Qed.

Lemma NoDup_delete_idx {A} (idx : nat) (a : list A) : NoDup a -> NoDup (delete idx a).
Proof. intros H. eapply sublist_NoDup; [exact H | apply sublist_delete]. Qed.

Lemma handler_distinct (tables : list TableState) (a : action) (vb : VB) :
  distinctObjects vb -> distinctObjects (fst (handler tables a vb)).
Proof.
  intros (Hj & Hf & Haj & Haf).
  assert (forall field assign idx,
            distinctObjects (fst (editJoin field assign idx vb))) as Hej.
  { intros field assign idx. unfold editJoin.
    destruct (vbJoins vb !! idx) as [l|]; [| done]. cbn.
    split; [done |]. split; [done |]. split; [| done]. cbn.
    eapply Forall_impl; [exact Haj |]. intros l0 [j Hl0].
    destruct (decide (l0 = l)) as [->|Hne].
    - rewrite lookup_alter_eq, Hl0. by eexists.
    - rewrite lookup_alter_ne by done. by eexists. }
  assert (forall field assign idx,
            distinctObjects (fst (editFilter field assign idx vb))) as Hef.
  { intros field assign idx. unfold editFilter.
    destruct (vbFilters vb !! idx) as [l|]; [| done]. cbn.
    split; [done |]. split; [done |]. split; [done |]. cbn.
    eapply Forall_impl; [exact Haf |]. intros l0 [j Hl0].
    destruct (decide (l0 = l)) as [->|Hne].
    - rewrite lookup_alter_eq, Hl0. by eexists.
    - rewrite lookup_alter_ne by done. by eexists. }
  destruct a; cbn [handler]; try apply Hej; try apply Hef.
  - repeat split; cbn; constructor.
  - split; [| split; [done | split; [| done]]]; cbn.
    + apply NoDup_app. split; [done |]. split; [| apply NoDup_singleton].
      intros l Hl Hin. apply list_elem_of_singleton in Hin as ->.
      exact (fresh_not_in _ _ Haj Hl).
    + by apply Forall_insert_fresh.
  - split; [| split; [done | split; [| done]]]; cbn;
      rewrite withoutIndex_delete.
    + by apply NoDup_delete_idx.
    + by apply Forall_delete.
  - unfold addFilter.
    destruct (firstColumn tables (vbBaseTable vb) vb) as [s [col|msg|]];
      [| done | done].
    split; [done | split; [| split; [done |]]]; cbn.
    + apply NoDup_app. split; [done |]. split; [| apply NoDup_singleton].
      intros l Hl Hin. apply list_elem_of_singleton in Hin as ->.
      by eapply fresh_not_in.
    + by apply Forall_insert_fresh.
  - split; [done | split; [| split; [done |]]]; cbn;
      rewrite withoutIndex_delete.
    + by apply NoDup_delete_idx.
    + by apply Forall_delete.
Qed.

(** X18. Whatever the user does in the builder, and whatever the tables
    of the page are meanwhile, the elements of the joins array are
    distinct objects of the store, and so are those of the filters
    array. *)
Theorem acts_distinctObjects (es : list (list TableState * action)) :
  distinctObjects (acts es initialVB).
Proof.
  assert (forall vb, distinctObjects vb -> distinctObjects (acts es vb)) as H.
  { induction es as [|[ts a] es IH]; intros vb Hvb; [done |].
    cbn. apply IH. by apply handler_distinct. }
  apply H. repeat split; constructor.
Qed.

Lemma addFilter_filters (tables : list TableState) (vb : VB) (col : string) :
  Forall (fun l => is_Some (filterObjects vb !! l)) (vbFilters vb) ->
  firstColumn tables (vbBaseTable vb) vb = (vb, Ok col) ->
  snd (addFilter tables vb) = Ok tt /\
  filtersOf (fst (addFilter tables vb))
  = (filtersOf vb ++ [ {| column := col; operator := "="; value := "" |} ])%list /\
  joinsOf (fst (addFilter tables vb)) = joinsOf vb /\
  vbBaseTable (fst (addFilter tables vb)) = vbBaseTable vb.
Proof.
  intros Hall Hcol. unfold addFilter. rewrite Hcol. cbn [fst snd].
  split; [done |]. split; [| done].
  unfold filtersOf at 1. cbn. rewrite map_app. f_equal.
  - unfold filterAt at 1. cbn. by apply filtersOf_fresh.
  - cbn. unfold filterAt. cbn. by rewrite lookup_insert_eq.
Qed.

(** X19. Add Filter, when the base table is not a table of the page or
    has a first column: it appends one filter, with the operator [=] and
    an empty value, on the first column of the base table (on the empty
    column name when the table is not found), and keeps the joins and
    the base table. *)
Theorem addFilter_appends (tables : list TableState) (vb : VB) :
  Forall (fun l => is_Some (filterObjects vb !! l)) (vbFilters vb) ->
  (forall t, findTable tables (vbBaseTable vb) = Some t ->
     exists c cols, columns t = Some (c :: cols)) ->
  let col := match findTable tables (vbBaseTable vb) with
             | Some t => match columns t with
                         | Some (c :: _) => cname c
                         | _ => ""
                         end
             | None => ""
             end in
  snd (addFilter tables vb) = Ok tt /\
  filtersOf (fst (addFilter tables vb))
  = (filtersOf vb ++ [ {| column := col; operator := "="; value := "" |} ])%list /\
  joinsOf (fst (addFilter tables vb)) = joinsOf vb /\
  vbBaseTable (fst (addFilter tables vb)) = vbBaseTable vb.
Proof.
  intros Hall Hcols. cbn zeta. apply addFilter_filters; [done |].
  unfold firstColumn.
  destruct (findTable tables (vbBaseTable vb)) as [t|]; [| done].
  by destruct (Hcols t eq_refl) as (c & cols & ->).
Qed.

(** X20. Add Filter throws, and leaves the builder as it was, when the
    base table is a table of the page without [columns] (after Reset to
    Default) or with no column (a table loaded without rows). *)
Theorem addFilter_throws (tables : list TableState) (vb : VB) (t : TableState) :
  findTable tables (vbBaseTable vb) = Some t ->
  columns t = None \/ columns t = Some [] ->
  exists msg, addFilter tables vb = (vb, Throw msg) /\
    msg = "Cannot read properties of undefined (reading '"
          +:+ match columns t with Some _ => "name" | None => "0" end
          +:+ "')".
Proof.
  intros Hfind Hc. unfold addFilter, firstColumn. rewrite Hfind.
  destruct Hc as [->| ->]; by eexists.
Qed.

(** X21. The query right after the first filter is added: with a
    runtime in which [Number('')] is a number (it is 0), the empty value
    of the new filter is put in the text bare, so the query of the
    builder is the former one followed by a [WHERE] clause that ends
    after the operator. *)
Theorem addFilter_query (tables : list TableState) (vb : VB) (t : TableState)
    (c : ColumnDefinition) (cols : list ColumnDefinition) :
  vbFilters vb = [] ->
  findTable tables (vbBaseTable vb) = Some t ->
  columns t = Some (c :: cols) ->
  isNaN (StringToNumber rt "") = false ->
  builderQuery rt (fst (addFilter tables vb))
  = builderQuery rt vb +:+ " WHERE "
      +:+ (if includes "." (cname c) then "" else vbBaseTable vb +:+ ".")
      +:+ cname c +:+ " = ".
Proof.
  intros Hnof Hfind Hc Hnum.
  destruct (addFilter_filters tables vb (cname c)) as (_ & Hf & Hj & Hb).
  { rewrite Hnof. constructor. }
  { unfold firstColumn. by rewrite Hfind, Hc. }
  unfold builderQuery. rewrite Hf, Hj, Hb.
  unfold filtersOf. rewrite Hnof. cbn [map app].
  unfold generateQuery. cbn [length Nat.ltb Nat.leb map String.concat].
  unfold filterString. cbn [column operator value Number]. rewrite Hnum.
  reflexivity.
Qed.

End ControlsFacts.

(** *** Rendering the selects *)

Section RenderFacts.
Import Builder Client Controls.

Lemma findTable_elem (tables : list TableState) (n : string) (t : TableState) :
  findTable tables n = Some t -> t ∈ tables /\ name t = n.
Proof.
  unfold findTable. intros Hf. apply find_some in Hf as [Hin Hn].
  split; [by apply list_elem_of_In |]. by apply String.eqb_eq.
Qed.

Lemma columnOptions_defined (tables : list TableState) (n : string)
    (f : string -> string) :
  Forall (fun t => is_Some (columns t)) tables ->
  exists opts, columnOptions tables n f tt = (tt, Ok opts).
Proof.
  intros Hall. unfold columnOptions.
  destruct (findTable tables n) as [t|] eqn:Hf; [| by eexists].
  apply findTable_elem in Hf as [Hin _].
  eapply Forall_forall in Hall as [cols ->]; [| exact Hin]. by eexists.
Qed.

Lemma mapM_unit_defined {A B} (f : A -> M unit B) (l : list A) :
  (forall a, exists b, f a tt = (tt, Ok b)) ->
  exists bs, mapM f l tt = (tt, Ok bs).
Proof.
  intros Hf. induction l as [|a l [bs IH]]; [by eexists |].
  destruct (Hf a) as [b Hb]. cbn [mapM]. unfold bind. rewrite Hb, IH.
  by eexists.
Qed.

(** X22. When every table of the page has its [columns], the selects of
    the builder render, whatever its joins and filters are. *)
Theorem renderBuilder_defined (tables : list TableState) (vb : VB) :
  Forall (fun t => is_Some (columns t)) tables ->
  exists v, renderBuilder tables vb = Ok v.
Proof.
  intros Hall. unfold renderBuilder.
  destruct (mapM_unit_defined (joinSelects tables (vbBaseTable vb)) (joinsOf vb))
    as [js Hjs].
  { intros j. unfold joinSelects.
    destruct (columnOptions_defined tables (vbBaseTable vb) id Hall) as [l Hl].
    destruct (columnOptions_defined tables (jtable j) id Hall) as [r Hr].
    unfold bind. rewrite Hl, Hr. by eexists. }
  destruct (mapM_unit_defined
              (fun _ : Filter =>
                 filterSelect tables (vbBaseTable vb) (joinsOf vb))
              (filtersOf vb)) as [fs Hfs].
  { intros _. unfold filterSelect.
    destruct (columnOptions_defined tables (vbBaseTable vb) id Hall) as [l Hl].
    destruct (mapM_unit_defined
                (fun j => columnOptions tables (jtable j)
                            (fun c => jtable j +:+ "." +:+ c)) (joinsOf vb))
      as [r Hr].
    { intros j. by apply columnOptions_defined. }
    unfold bind. rewrite Hl, Hr. by eexists. }
  unfold bind. rewrite Hjs, Hfs. by eexists.
Qed.

(** X23. When the base table is a table of the page without [columns]
    (after Reset to Default) and the builder has a join or a filter,
    rendering the selects of the builder throws: the column select reads
    [map] of [undefined]. *)
Theorem renderBuilder_without_columns (tables : list TableState) (vb : VB)
    (t : TableState) :
  findTable tables (vbBaseTable vb) = Some t -> columns t = None ->
  vbJoins vb ≠ [] \/ vbFilters vb ≠ [] ->
  renderBuilder tables vb
  = Throw "Cannot read properties of undefined (reading 'map')".
Proof.
  intros Hfind Hc Hsome. unfold renderBuilder.
  assert (forall f, columnOptions tables (vbBaseTable vb) f tt
          = (tt, Throw "Cannot read properties of undefined (reading 'map')"))
    as Hbase.
  { intros f. unfold columnOptions. by rewrite Hfind, Hc. }
  unfold joinsOf, filtersOf.
  destruct (vbJoins vb) as [|l ls].
  - destruct (vbFilters vb) as [|l ls]; [by destruct Hsome |].
    cbn [map mapM]. unfold bind at 1. unfold ret at 1.
    unfold bind at 1. unfold bind at 1. unfold filterSelect at 1.
    unfold bind at 1. by rewrite Hbase.
  - cbn [map mapM]. unfold bind at 1. unfold bind at 1.
    unfold joinSelects at 1. unfold bind at 1. by rewrite Hbase.
Qed.

End RenderFacts.

(** [addJoin_appends] on the sample page, from the base table [roles]:
    the join goes to the other table. *)
Lemma addJoin_appends_roles :
  Controls.joinsOf (fst (Controls.addJoin Ref.sampleTables Ref.rolesBuilder))
  = [ {| Builder.jtable := "flags"; Builder.leftCol := "id";
         Builder.rightCol := "id" |} ] /\
  Controls.builderQuery Ref.refRuntime
    (fst (Controls.addJoin Ref.sampleTables Ref.rolesBuilder))
  = "SELECT * FROM roles JOIN flags ON roles.id = flags.id".
Proof.
  destruct (addJoin_appends Ref.refRuntime Ref.sampleTables Ref.rolesBuilder)
    as (T & _ & Hj & _ & _ & Hfirst & _ & Hq); [constructor |].
  assert (T = "flags") as ->.
  { apply (Hfirst [Ref.sampleRoles] Ref.sampleFlags [] eq_refl);
      [by repeat constructor | done]. }
  split; [exact Hj | exact (Hq eq_refl)].
Defined.

Lemma sampleBuilder_distinct : Controls.distinctObjects Ref.sampleBuilder.
Proof.
  unfold Ref.sampleBuilder, Ref.rolesBuilder, Controls.acts. cbn [fold_left].
  unfold Controls.act. cbn [fst snd].
  repeat apply handler_distinct. repeat split; constructor.
Qed.

(** [addJoin_removeJoin] on the sample builder. *)
Lemma addJoin_removeJoin_sample :
  let vb' := fst (Controls.removeJoin 1
                    (fst (Controls.addJoin Ref.sampleTables Ref.sampleBuilder))) in
  Controls.joinsOf vb' = Controls.joinsOf Ref.sampleBuilder /\
  Controls.filtersOf vb' = Controls.filtersOf Ref.sampleBuilder /\
  Controls.vbBaseTable vb' = "roles" /\
  Controls.builderQuery Ref.refRuntime vb'
  = Controls.builderQuery Ref.refRuntime Ref.sampleBuilder.
Proof.
  apply (addJoin_removeJoin Ref.refRuntime Ref.sampleTables Ref.sampleBuilder).
  by destruct sampleBuilder_distinct as (_ & _ & H & _).
Defined.

(** [edit_in_place] on the join of the sample builder. *)
Lemma edit_in_place_sample :
  Controls.joinsOf (fst (Controls.setJoinLeftCol 0 "role_name" Ref.sampleBuilder))
  = [ {| Builder.jtable := "flags"; Builder.leftCol := "role_name";
         Builder.rightCol := "id" |} ] /\
  Controls.filtersOf (fst (Controls.setJoinLeftCol 0 "role_name" Ref.sampleBuilder))
  = Controls.filtersOf Ref.sampleBuilder.
Proof.
  destruct (edit_in_place 0 Ref.sampleBuilder sampleBuilder_distinct)
    as (Hjoin & _).
  destruct (Hjoin "leftCol"
              (fun j => {| Builder.jtable := Builder.jtable j;
                           Builder.leftCol := "role_name";
                           Builder.rightCol := Builder.rightCol j |})
              1%positive ltac:(vm_compute; reflexivity))
    as (_ & _ & _ & Hj & Hf & _).
  split; [exact Hj | exact Hf].
Defined.

(** [addFilter_appends] on the sample page, from the base table [roles]. *)
Lemma addFilter_appends_roles :
  snd (Controls.addFilter Ref.sampleTables Ref.rolesBuilder) = Ok tt /\
  Controls.filtersOf (fst (Controls.addFilter Ref.sampleTables Ref.rolesBuilder))
  = [ {| Builder.column := "id"; Builder.operator := "=";
         Builder.value := "" |} ] /\
  Controls.joinsOf (fst (Controls.addFilter Ref.sampleTables Ref.rolesBuilder))
  = [] /\
  Controls.vbBaseTable (fst (Controls.addFilter Ref.sampleTables Ref.rolesBuilder))
  = "roles".
Proof.
  apply (addFilter_appends Ref.sampleTables Ref.rolesBuilder).
  - constructor.
  - intros t Ht. vm_compute in Ht. injection Ht as <-. by eexists _, _.
Defined.

(** [addFilter_throws] on the roles without columns. *)
Lemma addFilter_throws_roles :
  exists msg,
    Controls.addFilter [Ref.bareRoles] Ref.rolesBuilder
    = (Ref.rolesBuilder, Throw msg) /\
    msg = "Cannot read properties of undefined (reading '0')".
Proof.
  apply (addFilter_throws [Ref.bareRoles] Ref.rolesBuilder Ref.bareRoles).
  - reflexivity.
  - by left.
Defined.

(** [addFilter_query] on the sample page. *)
Lemma addFilter_query_roles :
  Controls.builderQuery Ref.refRuntime
    (fst (Controls.addFilter Ref.sampleTables Ref.rolesBuilder))
  = "SELECT * FROM roles WHERE roles.id = ".
Proof.
  apply (addFilter_query Ref.refRuntime Ref.sampleTables Ref.rolesBuilder
           Ref.sampleRoles
           {| Client.cname := "id"; Client.ctype := Client.TNumber |}
           [ {| Client.cname := "role_name"; Client.ctype := Client.TString |};
             {| Client.cname := "permissions"; Client.ctype := Client.TString |} ]).
  - reflexivity.
  - reflexivity.
  - reflexivity.
  - vm_compute. reflexivity.
Defined.

(** [renderBuilder_defined] on the sample page. *)
Lemma renderBuilder_defined_sample :
  exists v, Controls.renderBuilder Ref.sampleTables Ref.sampleBuilder = Ok v.
Proof.
  apply renderBuilder_defined. repeat constructor; by eexists.
Defined.

(** [renderBuilder_without_columns] on the roles without columns. *)
Lemma renderBuilder_without_columns_roles :
  Controls.renderBuilder [Ref.bareRoles] Ref.sampleBuilder
  = Throw "Cannot read properties of undefined (reading 'map')".
Proof.
  apply (renderBuilder_without_columns [Ref.bareRoles] Ref.sampleBuilder
           Ref.bareRoles).
  - reflexivity.
  - reflexivity.
  - left. discriminate.
Defined.

(** ** The grid *)

Section GridFacts.
Import Client.

Lemma activeTable_elem (st : AppState) (t : TableState) :
  Grid.activeTable st = Some t ->
  t ∈ tables st /\ selectedTableName st = Some (name t).
Proof.
  unfold Grid.activeTable. intros Hf. apply find_some in Hf as [Hin Hn].
  split; [by apply list_elem_of_In |].
  by apply bool_decide_eq_true_1 in Hn.
Qed.

Lemma NoDup_name_eq (ts : list TableState) (t t' : TableState) :
  NoDup (map name ts) -> t ∈ ts -> t' ∈ ts -> name t' = name t -> t' = t.
Proof.
  induction ts as [|t0 ts IH]; intros Hnd Ht Ht' Hn.
  - by apply elem_of_nil in Ht.
  - cbn in Hnd. apply NoDup_cons in Hnd as [Hnot Hnd].
    apply elem_of_cons in Ht as [->|Ht]; apply elem_of_cons in Ht' as [->|Ht'].
    + done.
    + exfalso. apply Hnot. rewrite <- Hn. apply list_elem_of_fmap. by exists t'.
    + exfalso. apply Hnot. rewrite Hn. apply list_elem_of_fmap. by exists t.
    + by apply IH.
Qed.

Lemma renderRows_length (st : AppState) (t : TableState) (h h' : heap)
    (rows : list (option (list jsval))) :
  Grid.activeTable st = Some t ->
  Grid.renderRows st h = (h', Ok rows) -> length rows = length (data t).
Proof.
  intros Hact. unfold Grid.renderRows. rewrite Hact. intros Hrun.
  apply (mapM_Forall2 _ (fun _ _ => True)) in Hrun; [| done].
  symmetry. by eapply Forall2_length.
Qed.

Lemma inputs_spec (st : AppState) (h : heap) (idx : nat) (key : string) :
  (idx, key) ∈ Grid.inputs st h ->
  exists t, Grid.activeTable st = Some t /\ idx < length (data t) /\
    key ∈ map cname (Grid.columns st).
Proof.
  unfold Grid.inputs.
  destruct (Grid.renderRows st h) as [h' [rows|msg|]] eqn:Hrows;
    [| by intros ?%elem_of_nil | by intros ?%elem_of_nil].
  intros Hin. apply list_elem_of_In, in_concat in Hin as (cells & Hcells & Hin).
  apply list_elem_of_In, elem_of_lookup_imap in Hcells as (i & r & -> & Hr).
  destruct r as [vals|]; [| done].
  apply list_elem_of_In, list_elem_of_fmap in Hin as (col & [= -> ->] & Hcol).
  destruct (Grid.activeTable st) as [t|] eqn:Hact.
  - exists t. split; [done |]. split.
    + rewrite <- (renderRows_length st t h h' rows Hact Hrows).
      by eapply lookup_lt_Some.
    + apply list_elem_of_fmap. by exists col.
  - unfold Grid.renderRows in Hrows. rewrite Hact in Hrows.
    injection Hrows as _ <-. done.
Qed.

(** X24. An edit made in the grid keeps every row count: when the table
    names of the page are distinct and the rows are in the store, each
    text input of the rendered grid belongs to a selected table, its key
    is the name of a column of the grid, and the [updateCell] its change
    handler calls succeeds and leaves every table with its name, its
    columns and as many rows as before. *)
Theorem grid_edit_keeps_rows (st : AppState) (h : heap) (idx : nat)
    (key : string) (value : jsval) :
  NoDup (map name (tables st)) -> Forall (allocated h) (tables st) ->
  (idx, key) ∈ Grid.inputs st h ->
  exists n h' next,
    selectedTableName st = Some n /\
    key ∈ Grid.typeSelects st /\
    updateCell n idx key value (tables st) h = (h', Ok next) /\
    Forall2 (fun t t' =>
               name t' = name t /\ columns t' = columns t /\
               length (data t') = length (data t)) (tables st) next.
Proof.
  intros Hnd Hal Hin.
  destruct (inputs_spec st h idx key Hin) as (t & Hact & Hidx & Hkey).
  destruct (activeTable_elem st t Hact) as [Ht Hsel].
  assert (Forall (fun t0 => name t0 = name t -> idx < length (data t0))
            (tables st)) as Hrange.
  { apply Forall_forall. intros t0 Ht0 Hn0.
    by rewrite (NoDup_name_eq (tables st) t t0 Hnd Ht Ht0 Hn0). }
  destruct (updateCell_locations (name t) idx key value (tables st) h Hal)
    as (h' & next & Hrun & _ & Hall).
  { intros t0 Ht0 Hn0. left.
    eapply Forall_forall in Hrange; [| exact Ht0]. by apply Hrange. }
  exists (name t), h', next. split; [done |]. split; [done |]. split; [done |].
  eapply Forall2_impl_Forall; [exact Hrange | exact Hall |].
  intros t0 t0' Hr Hcell. pose proof Hcell as (Hn & Hc & _).
  split; [done |]. split; [done |]. by eapply cellUpdated_length.
Qed.

Lemma grid_without_columns (st : AppState) (h : heap) :
  Forall (fun t => columns t = None) (tables st) ->
  Grid.columns st = [] /\ Grid.typeSelects st = [] /\ Grid.inputs st h = [].
Proof.
  intros Hall.
  assert (Grid.columns st = []) as Hcols.
  { unfold Grid.columns. destruct (Grid.activeTable st) as [t|] eqn:Hact; [| done].
    apply activeTable_elem in Hact as [Ht _].
    eapply Forall_forall in Hall; [| exact Ht]. by rewrite Hall. }
  split; [done |]. split; [unfold Grid.typeSelects; by rewrite Hcols |].
  apply elem_of_nil_inv. intros [idx key] Hin.
  destruct (inputs_spec st h idx key Hin) as (t & _ & _ & Hkey).
  rewrite Hcols in Hkey. by apply elem_of_nil in Hkey.
Qed.

End GridFacts.

Section GridWorld.
Import Server Client World.
Context (rt : Runtime) (eng : Engine) (fallback : string -> string -> response).

(** X25. After Reset to Default, whatever happened before, the grid
    has no column: it shows the three tables' rows with no cell, no type
    select and no text input, so no cell can be edited. *)
Theorem reset_empties_grid (ops : list op) (d : DB eng) :
  let w := resetToDefault eng fallback (run rt eng fallback ops (initial eng d)) in
  map name (tables (app w)) = ["users"; "roles"; "orders"] /\
  Grid.columns (app w) = [] /\ Grid.typeSelects (app w) = [] /\
  Grid.inputs (app w) (objects w) = [].
Proof.
  cbn zeta.
  assert (tableStore (backend (run rt eng fallback ops (initial eng d)))) as Hstore.
  { rewrite run_backend. apply mockData_tableStore. }
  destruct (reset_snapshot eng fallback _ Hstore) as [Hsnap Hcols].
  split; [| by apply grid_without_columns].
  rewrite run_backend in Hsnap. cbn [initial backend] in Hsnap.
  change ["users"; "roles"; "orders"] with (map fst mockData).
  rewrite <- Hsnap. unfold snapshot. by rewrite map_map.
Qed.

End GridWorld.

(** [grid_edit_keeps_rows] on the sample page: the role name of the
    second role. *)
Lemma grid_edit_keeps_rows_roles :
  exists n h' next,
    Client.selectedTableName (Ref.sampleState "") = Some n /\
    "role_name" ∈ Grid.typeSelects (Ref.sampleState "") /\
    Client.updateCell n 1 "role_name" (JStr "Guest")
      (Client.tables (Ref.sampleState "")) Ref.sampleStore = (h', Ok next) /\
    Forall2 (fun t t' =>
               Client.name t' = Client.name t /\
               Client.columns t' = Client.columns t /\
               length (Client.data t') = length (Client.data t))
      (Client.tables (Ref.sampleState "")) next.
Proof.
  apply (grid_edit_keeps_rows (Ref.sampleState "") Ref.sampleStore 1
           "role_name" (JStr "Guest")).
  - compute_done.
  - exact sampleTables_allocated.
  - apply list_elem_of_In. vm_compute. do 4 right. left. reflexivity.
Defined.

(** ** The result set *)

Section PanelFacts.
Import Client Panel.
Context (rt : Runtime) (eng : Engine).

(** X26. What the result area shows after [runQuery], by the outcome of
    its [try] block. For a value, the rows are the elements of the value
    when it is an array, none when it is [undefined] or [null], and the
    value alone otherwise. Without rows the area shows [No results
    found]. With rows it shows a table: the headers are the keys of the
    first row when that is an object, its indices when it is an array,
    and the one header [Result] otherwise; each row shows the values of
    its properties when it is an object, its elements when it is an
    array, and itself otherwise. For an error the area shows its
    message, except that an error with an empty message shows [No
    results to display], as if no query had run. *)
Theorem resultView_after_runQuery (st : AppState) (s : heap * DB eng) :
  match tryBlock rt eng st s, runQuery rt eng st s with
  | (_, Ok result), (_, Ok st') =>
      let rows :=
        match result with
        | JUndefined | JNull => []
        | JArr items => items
        | _ => [result]
        end in
      resultView st'
      = match rows with
        | [] => MessageView "No results found"
        | first :: _ =>
            TableView
              match first with
              | JObj o => map fst o
              | JArr items => map (fun i : nat => pretty i) (seq 0 (length items))
              | _ => ["Result"]
              end
              (map (fun row =>
                      match row with
                      | JObj o => map snd o
                      | JArr items => items
                      | _ => [row]
                      end) rows)
        end
  | (_, Throw msg), (_, Ok st') =>
      resultView st'
      = if String.eqb msg "" then MessageView "No results to display"
        else ErrorView msg
  | (_, Unmodelled), (_, Unmodelled) => True
  | _, _ => False
  end.
Proof.
  unfold runQuery. destruct (tryBlock rt eng st s) as [s' [result|msg|]].
  - unfold resultView. cbn.
    change (match result with
            | JUndefined | JNull => []
            | JArr items => items
            | _ => [result]
            end) with (processedResult result).
    destruct (processedResult result) as [|first rest]; [done |].
    f_equal; [by destruct first |].
    change (cells first :: map cells rest) with (map cells (first :: rest)).
    apply map_ext. by intros [].
  - unfold resultView. cbn. by destruct (String.eqb msg "").
  - done.
Qed.

End PanelFacts.

(** ** The page as the user drives it *)

Section ExplorerFacts.
Import Server Client World Explorer.
Context (rt : Runtime) (eng : Engine) (fallback : string -> string -> response).

Lemma spreadArray_dense (a : list slot) :
  Forall (fun s => exists l, s = Row l) a -> spreadArray a = a.
Proof.
  intros Hall. unfold spreadArray. induction Hall as [|s a [l ->] _ IH]; [done |].
  cbn. by rewrite IH.
Qed.

Lemma mapM_dense (f : TableState -> M heap TableState) (P : TableState -> Prop)
    (ts : list TableState) (h : heap) :
  (forall t h, P t -> dense t ->
     exists h1 t', f t h = (h1, Ok t') /\ dense t') ->
  Forall P ts -> Forall dense ts ->
  exists h' ts', mapM f ts h = (h', Ok ts') /\ Forall dense ts'.
Proof.
  intros Hf. revert h. induction ts as [|t ts IH]; intros h HP Hd.
  - by exists h, [].
  - apply Forall_cons in HP as [Pt HP]. apply Forall_cons in Hd as [Dt Hd].
    destruct (Hf t h Pt Dt) as (h1 & t' & Hrun & Dt').
    destruct (IH h1 HP Hd) as (h' & ts' & Hrest & Hd').
    exists h', (t' :: ts'). cbn [mapM]. unfold bind. rewrite Hrun, Hrest.
    split; [done |]. by constructor.
Qed.

Lemma cellUpdater_dense tableName rowIndex key value t (h : heap) :
  (name t = tableName -> rowIndex < length (data t)) -> dense t ->
  exists h1 t',
    cellUpdater tableName rowIndex key value t h = (h1, Ok t') /\ dense t'.
Proof.
  intros Hin Hd. unfold cellUpdater.
  destruct (String.eqb_spec (name t) tableName) as [Hname|Hname];
    [| by eexists _, _].
  unfold bind.
  match goal with |- context [alloc ?o h] =>
    destruct (alloc_spec o h) as (l & -> & _) end.
  rewrite (spreadArray_dense _ Hd).
  rewrite writeIdx_inside by (by apply Hin).
  eexists _, _. split; [reflexivity |].
  unfold dense. cbn. apply Forall_insert; [done | by eexists].
Qed.

Lemma rowAdder_dense now tableName t (h : heap) :
  dense t ->
  exists h1 t', rowAdder now tableName t h = (h1, Ok t') /\ dense t'.
Proof.
  intros Hd. unfold rowAdder.
  destruct (String.eqb_spec (name t) tableName) as [Hname|Hname];
    [| by eexists _, _].
  assert (forall l, dense (with_data t (spreadArray (data t) ++ [Row l])))
    as Hnew.
  { intros l. unfold dense. cbn. rewrite (spreadArray_dense _ Hd).
    apply Forall_app. split; [done |]. constructor; [by eexists | done]. }
  unfold bind. unfold dense in Hd.
  destruct (data t) as [|s rest] eqn:Hdt.
  - cbn [length Nat.ltb Nat.leb].
    destruct (alloc_spec [("id", JNum now)] h) as (l & -> & _).
    eexists _, _. split; [reflexivity |]. by apply Hnew.
  - cbn [length Nat.ltb Nat.leb]. unfold readIdx. cbn [lookup list_lookup default].
    apply Forall_cons in Hd as [[l0 ->] _]. cbn [id].
    match goal with |- context [alloc ?o h] =>
      destruct (alloc_spec o h) as (l & -> & _) end.
    eexists _, _. split; [reflexivity |]. by apply Hnew.
Qed.

Lemma typeUpdater_dense tableName columnName newType t (h : heap) :
  (name t = tableName -> is_Some (columns t)) -> dense t ->
  exists h1 t',
    typeUpdater tableName columnName newType t h = (h1, Ok t') /\ dense t'.
Proof.
  intros Hc Hd. unfold typeUpdater.
  destruct (String.eqb_spec (name t) tableName) as [Hname|Hname];
    [| by eexists _, _].
  destruct (Hc Hname) as [cols ->]. by eexists _, _.
Qed.

Lemma setTables_dense (f : TableState -> M heap TableState)
    (P : TableState -> Prop) (w : World eng) :
  (forall t h, P t -> dense t ->
     exists h1 t', f t h = (h1, Ok t') /\ dense t') ->
  Forall P (tables (app w)) -> Forall dense (tables (app w)) ->
  Forall dense (tables (app (setTables eng (mapM f) w))) /\
  phase (setTables eng (mapM f) w) = phase w.
Proof.
  intros Hf HP Hd. unfold setTables.
  destruct (mapM_dense f P (tables (app w)) (objects w) Hf HP Hd)
    as (h' & ts' & -> & Hd').
  by split.
Qed.

Lemma slotValues_dense (h : heap) (slots : list slot) (os : list obj) :
  map (slotValue h) slots = map JObj os ->
  Forall (fun s => exists l, s = Row l) slots.
Proof.
  revert os. induction slots as [|s slots IH]; intros [|o os] Hmap;
    try done.
  cbn in Hmap. injection Hmap as Hs Hrest. constructor; [| by eapply IH].
  destruct s; try done. by eexists.
Qed.

Lemma entries_dense (b : obj) (h : heap) (ts : list TableState) :
  tableStore b ->
  map (fun t => (name t, JArr (map (slotValue h) (data t)))) ts = b ->
  Forall dense ts.
Proof.
  intros [_ Hrows] <-. apply Forall_forall. intros t Ht.
  eapply Forall_forall in Hrows as (_ & [os Hos] & _).
  2: { apply list_elem_of_fmap. by exists t. }
  cbn in Hos. apply objectsOf_map in Hos. by eapply slotValues_dense.
Qed.

Lemma fetchData_dense (w : World eng) :
  tableStore (backend w) ->
  Forall dense (tables (app (fetchData eng fallback w))) /\
  phase (fetchData eng fallback w) = phase w.
Proof.
  intros Hstore. unfold fetchData.
  destruct (fetchAll_load fallback (objects w) (backend w) Hstore)
    as (h' & ts & -> & _ & Hsnap & _).
  split; [| done]. cbn. by eapply entries_dense.
Qed.

Lemma resetToDefault_dense (w : World eng) :
  tableStore (backend w) ->
  Forall dense (tables (app (resetToDefault eng fallback w))) /\
  phase (resetToDefault eng fallback w) = phase w.
Proof.
  intros Hstore. unfold resetToDefault.
  destruct (fetchAll_reload fallback (objects w) (backend w) Hstore)
    as (h' & ts & -> & _ & Hsnap & _).
  split; [| done]. cbn. by eapply entries_dense.
Qed.

Lemma clickRun_dense (w : World eng) :
  tables (app (clickRun rt eng w)) = tables (app w) /\
  (phase (clickRun rt eng w) = phase w \/
   phase (clickRun rt eng w) = OutOfModel).
Proof.
  unfold clickRun, runQuery.
  destruct (tryBlock _ _ _ _) as [[h d] [v|msg|]]; cbn; auto.
Qed.

Lemma wellFormed_allocated (w : World eng) :
  wellFormed w -> Forall (allocated (objects w)) (tables (app w)).
Proof.
  intros Hw. eapply Forall_impl; [exact Hw |]. by intros t [? _].
Qed.

Lemma names_NoDup (w : World eng) (o : op) :
  tableStore (backend w) -> NoDup (keys (backend w)) ->
  NoDup (map name (tables (app w))) ->
  NoDup (map name (tables (app (step rt eng fallback w o)))).
Proof.
  intros Hstore Hk Hnd.
  by destruct (step_names rt eng fallback w o Hstore) as [-> | ->].
Qed.

Lemma offered_explored (w : World eng) (o : op) :
  wellFormed w -> explored w -> offered eng w o ->
  explored (step rt eng fallback w o).
Proof.
  intros Hwf (Hb & Hnd & Hal & Hd & Hph) Hoff.
  assert (tableStore (backend w)) as Hstore
    by (rewrite Hb; apply mockData_tableStore).
  split; [by rewrite step_backend |].
  split; [apply names_NoDup; [done | by destruct Hstore | done] |].
  split.
  { apply wellFormed_allocated, step_wellFormed; [| done].
    rewrite Hb. apply mockData_firstKeysDistinct. }
  unfold step. destruct Hph as [Hph|Hph]; rewrite Hph;
    [| split; [done | right; exact Hph]].
  destruct Hoff as [n idx key text Hsel Hin|now n Hsel|n col ty Hsel Hcol Hty
                    | |q| |].
  - destruct (inputs_spec (app w) (objects w) idx key Hin)
      as (t & Hact & Hidx & _).
    destruct (activeTable_elem (app w) t Hact) as [Ht Hsel'].
    rewrite Hsel in Hsel'. injection Hsel' as ->.
    destruct (setTables_dense (cellUpdater (name t) idx key (JStr text))
                (fun t0 => name t0 = name t -> idx < length (data t0)) w)
      as [Hd' Hph']; [| | done |].
    + intros t0 h Hr Hd0. by apply cellUpdater_dense.
    + apply Forall_forall. intros t0 Ht0 Hn0.
      by rewrite (NoDup_name_eq (tables (app w)) t t0 Hnd Ht Ht0 Hn0).
    + split; [exact Hd' |]. left. by rewrite <- Hph.
  - destruct (setTables_dense (rowAdder now n) (fun _ => True) w)
      as [Hd' Hph']; [| | done |].
    + intros t0 h _ Hd0. by apply rowAdder_dense.
    + by apply Forall_forall.
    + split; [exact Hd' |]. left. by rewrite <- Hph.
  - destruct (setTables_dense (typeUpdater n col ty)
                (fun t0 => name t0 = n -> is_Some (columns t0)) w)
      as [Hd' Hph']; [| | done |].
    + intros t0 h Hc0 Hd0. by apply typeUpdater_dense.
    + unfold Grid.typeSelects, Grid.columns in Hcol.
      destruct (Grid.activeTable (app w)) as [t|] eqn:Hact;
        [| by apply elem_of_nil in Hcol].
      destruct (activeTable_elem (app w) t Hact) as [Ht Hsel'].
      rewrite Hsel in Hsel'. injection Hsel' as ->.
      apply Forall_forall. intros t0 Ht0 Hn0.
      rewrite (NoDup_name_eq (tables (app w)) t t0 Hnd Ht Ht0 Hn0).
      destruct (columns t) as [cols|]; [by eexists |].
      by apply elem_of_nil in Hcol.
    + split; [exact Hd' |]. left. by rewrite <- Hph.
  - destruct (fetchData_dense w Hstore) as [Hd' ->]. split; [done | by left].
  - split; [done | by left].
  - destruct (clickRun_dense w) as [-> [-> | ->]]; split; auto.
  - destruct (resetToDefault_dense w Hstore) as [Hd' ->]. split; [done | by left].
Qed.

Lemma rowCells_row (cols : list ColumnDefinition) (l : loc) (h : heap) :
  exists vals, Grid.rowCells cols (Row l) h = (h, Ok vals).
Proof.
  unfold Grid.rowCells. induction cols as [|c cols IH]; [by eexists |].
  destruct IH as [vals IH].
  cbn [mapM]. unfold bind at 1. unfold readProp at 1. unfold bind at 1.
  rewrite IH. by eexists.
Qed.

Lemma renderRows_dense (st : AppState) (h : heap) :
  Forall dense (tables st) ->
  exists rows, Grid.renderRows st h = (h, Ok rows).
Proof.
  intros Hd. unfold Grid.renderRows.
  destruct (Grid.activeTable st) as [t|] eqn:Hact; [| by eexists].
  apply activeTable_elem in Hact as [Ht _].
  eapply Forall_forall in Hd; [| exact Ht]. unfold dense in Hd.
  induction Hd as [|s rows Hs _ IH]; [by eexists |].
  destruct Hs as [l ->]. destruct IH as [cells IH].
  destruct (rowCells_row (Grid.columns st) l h) as [vals Hvals].
  cbn [mapM]. unfold bind in IH |- *. rewrite Hvals. unfold ret at 1.
  rewrite IH. by eexists.
Qed.

Lemma reachable_explored (w : World eng) :
  reachable rt eng fallback w -> wellFormed w /\ explored w.
Proof.
  induction 1 as [d|w o _ [Hwf Hex] Hoff|w t _ [Hwf Hex] Ht].
  - split; [constructor |]. split; [done |]. split; [constructor |].
    split; [constructor |]. split; [constructor | by left].
  - split; [| by apply offered_explored].
    apply step_wellFormed; [| done]. destruct Hex as [-> _].
    apply mockData_firstKeysDistinct.
  - by split.
Qed.

(** X27. In every state the page reaches through what it offers (the
    text inputs and the type selects of the grid as rendered, Add Row, the
    tables of the sidebar, the query box, Execute Query, Reset to Default
    and the mount effect), no updater has thrown, so the page was not
    unmounted; every element of the data of every table is a row object
    (no empty slot, no [undefined]); and the rows of the grid render
    without throwing. *)
Theorem explorer_never_crashes (w : World eng) :
  reachable rt eng fallback w ->
  (forall msg, phase w ≠ Crashed msg) /\
  Forall dense (tables (app w)) /\
  exists rows, Grid.renderRows (app w) (objects w) = (objects w, Ok rows).
Proof.
  intros Hr. destruct (reachable_explored w Hr) as [_ (_ & _ & _ & Hd & Hph)].
  split; [| split; [done | by apply renderRows_dense]].
  intros msg Hc. destruct Hph as [Hph|Hph]; congruence.
Qed.

End ExplorerFacts.

(** [explorer_never_crashes] after the mount of the page. *)
Lemma explorer_never_crashes_mount :
  let w := World.step Ref.refRuntime Ref.miniSql Ref.noPage
             (World.initial Ref.miniSql []) World.Mount in
  (forall msg, World.phase w ≠ World.Crashed msg) /\
  Forall Explorer.dense (Client.tables (World.app w)) /\
  exists rows,
    Grid.renderRows (World.app w) (World.objects w)
    = (World.objects w, Ok rows).
Proof.
  apply (explorer_never_crashes Ref.refRuntime Ref.miniSql Ref.noPage).
  apply Explorer.reachable_step.
  - apply Explorer.reachable_initial.
  - apply Explorer.offered_mount.
Defined.
